(** * ssh_tunnel: tunnel orchestration and mesh overlay

    A shallow embedding of the Go packages [config], [protocols] and [mesh]
    of the ssh_tunnel repository, and the properties of their lifecycle,
    selection and address-allocation code.

    Conventions of the embedding.
    - A Go [string] is a [string]; a [time.Duration] and a [time.Time] are
      [Z] (nanoseconds); a [float64] is a primitive binary64 [float]; an
      [error] is its message, [nil] being the absence of one.
    - A Go [map[string]T] is a [gmap string T].  Go does not fix the order
      in which [range] visits a map, so every loop whose result can depend
      on it takes the visiting order as an argument ([range_order]).
    - Clock readings, random bytes and what the network answers are
      arguments of the operation that consumes them.
    - [sync.RWMutex] is not reentrant: an operation that locks a mutex the
      running call chain already holds never returns ([Blocks]). *)

From Stdlib Require Import ZArith Floats.
From Stdlib.Strings Require Import Ascii String Byte.
From stdpp Require Import gmap strings list fin_maps pretty.

Set Warnings "-inexact-float".

Local Open Scope string_scope.
Local Open Scope list_scope.
Local Open Scope Z_scope.

(** Equality of bytes is decidable. *)
#[global] Instance byte_eq_dec : EqDecision byte := Byte.byte_eq_dec.

(** ** Results of fallible and of blocking calls *)

(** [(T, error)]: either the value, or the error's message. *)
Inductive result (A : Type) : Type :=
  | Ok (a : A)
  | Err (msg : string).
Arguments Ok {A} a.
Arguments Err {A} msg.

(** What a call that takes a lock and follows pointers does: it returns,
    it waits for ever on the lock, or it panics (on a nil pointer, or on
    a nil context handed to [context.WithCancel]). *)
Inductive outcome (A : Type) : Type :=
  | Returns (a : A)
  | Blocks
  | Panics.
Arguments Returns {A} a.
Arguments Blocks {A}.
Arguments Panics {A}.

(** [ks] is an order in which [range m] may visit the map [m]. *)
Definition range_order {V : Type} (m : gmap string V) (ks : list string) : Prop :=
  ks ≡ₚ (map_to_list m).*1.

(** [time.Hour], [time.Millisecond] in nanoseconds. *)
Definition Hour : Z := 3600000000000.
Definition Millisecond : Z := 1000000.

(** [d.Milliseconds()]: integer division truncated toward zero. *)
Definition Milliseconds (d : Z) : Z := Z.quot d Millisecond.

(** [float64(n)] for an [int64] [n] other than the least one; the value is
    exact below [2^53] and rounded to the nearest binary64 above. *)
Definition float64_of_int (n : Z) : float :=
  if n <? 0 then PrimFloat.opp (PrimFloat.of_uint63 (Uint63.of_Z (- n)))
  else PrimFloat.of_uint63 (Uint63.of_Z n).

(** ** Package net: the parts of [net.IP] the mesh uses *)

Module Net.

(** A [net.IP] is a slice of bytes, most significant first. *)
Definition IP : Type := list Z.

Record IPNet : Type := mkIPNet { netIP : IP; netMask : list Z }.

(** [nextIP]'s loop: [for i := len(next)-1; i >= 0; i-- { next[i]++; if
    next[i] > 0 { break } }], with [n] the number of indices still to
    visit.  [next[i]++] on a [byte] wraps around at 256. *)
Fixpoint nextIP_loop (n : nat) (next : IP) : IP :=
  match n with
  | O => next
  | S i =>
      let next' := <[i := (next !!! i + 1) mod 256]> next in
      if 0 <? next' !!! i then next' else nextIP_loop i next'
  end.

(** [nextIP]: the copy of [ip], incremented as a big-endian number. *)
Definition nextIP (ip : IP) : IP := nextIP_loop (length ip) ip.

Definition hexDigit (d : Z) : string :=
  match d with
  | 0 => "0" | 1 => "1" | 2 => "2" | 3 => "3" | 4 => "4" | 5 => "5"
  | 6 => "6" | 7 => "7" | 8 => "8" | 9 => "9" | 10 => "a" | 11 => "b"
  | 12 => "c" | 13 => "d" | 14 => "e" | _ => "f"
  end.

Definition hexString (ip : IP) : string :=
  foldr (λ b s, hexDigit (b / 16) +:+ hexDigit (b mod 16) +:+ s) "" ip.

(** [ip.String()]: dotted decimal for a 4-byte address, ["<nil>"] for the
    empty one and ["?"] followed by the hexadecimal digits for a length
    that is neither 4 nor 16.  The IPv6 text form of a 16-byte address is
    not modelled: the blocks considered here are IPv4 blocks, for which
    [net.ParseCIDR] yields a 4-byte network address. *)
Definition ipString (ip : IP) : string :=
  match ip with
  | [] => "<nil>"
  | [a; b; c; d] =>
      pretty (Z.to_N a) +:+ "." +:+ pretty (Z.to_N b) +:+ "." +:+
      pretty (Z.to_N c) +:+ "." +:+ pretty (Z.to_N d)
  | _ => "?" +:+ hexString ip
  end.

(** [network.Contains(ip)] for addresses of the network's own length:
    [ip] and the network address agree on the bits of the mask. *)
Definition contains (n : IPNet) (ip : IP) : bool :=
  bool_decide (length ip = length (netIP n)) &&
  forallb (λ t, Z.land t.1.1 t.2 =? Z.land t.1.2 t.2)
          (zip (zip ip (netIP n)) (netMask n)).

(** *** Vocabulary of the statements below *)

(** The bytes of an address are bytes. *)
Definition valid (ip : IP) : Prop := Forall (λ b, 0 ≤ b < 256) ip.

(** The number an address is, read big-endian. *)
Definition toZ (ip : IP) : Z := foldl (λ acc b, acc * 256 + b) 0 ip.

(** The text before and after the first dot, and the absence of a dot. *)
Fixpoint beforeDot (s : string) : string :=
  match s with
  | EmptyString => EmptyString
  | String c s' => if bool_decide (c = "."%char) then EmptyString else String c (beforeDot s')
  end.

Fixpoint afterDot (s : string) : string :=
  match s with
  | EmptyString => EmptyString
  | String c s' => if bool_decide (c = "."%char) then s' else afterDot s'
  end.

Fixpoint noDot (s : string) : bool :=
  match s with
  | EmptyString => true
  | String c s' => negb (bool_decide (c = "."%char)) && noDot s'
  end.

End Net.

(** ** Package config *)

Module Config.

(** [TransportType] and its constants. *)
Definition TransportType : Type := string.
Definition TransportSSH : TransportType := "ssh".
Definition TransportHysteria : TransportType := "hysteria".
Definition TransportV2Ray : TransportType := "v2ray".
Definition TransportWireGuard : TransportType := "wireguard".
Definition TransportTrojan : TransportType := "trojan".
Definition TransportVLESS : TransportType := "vless".
Definition TransportVMess : TransportType := "vmess".

(** [Server]: one configured endpoint.  The protocol-specific blocks
    ([Hysteria], [V2Ray], [WireGuard]) are left out: no function below
    reads them. *)
Record Server : Type := mkServer {
  Name : string;
  Host : string;
  Port : string;
  User : string;
  Password : string;
  KeyPath : string;
  Transport : TransportType;
  Proxy : string;
  LocalPort : Z;
  Priority : Z;
  MaxRetries : Z;
  Timeout : Z;
  Enabled : bool;
  Region : string;
  Tags : list string
}.

(** [Config]: the server list and the auto-selection settings. *)
Record Config : Type := mkConfig {
  Version : string;
  Servers : list Server;
  AutoSelect : bool;
  SelectionMethod : string;
  LatencyTimeout : Z;
  EnableFailover : bool;
  FailoverTimeout : Z
}.

(** *** Encryption of the configuration file *)

(** [strings.HasPrefix] and [strings.TrimPrefix]. *)
Fixpoint HasPrefix (s prefix : string) : bool :=
  match prefix, s with
  | EmptyString, _ => true
  | String p prefix', String c s' => bool_decide (c = p) && HasPrefix s' prefix'
  | String _ _, EmptyString => false
  end.

Definition TrimPrefix (s prefix : string) : string :=
  if HasPrefix s prefix
  then String.substring (String.length prefix)
                        (String.length s - String.length prefix) s
  else s.

Definition hexChar (n : N) : ascii :=
  match n with
  | 0 => "0" | 1 => "1" | 2 => "2" | 3 => "3" | 4 => "4" | 5 => "5"
  | 6 => "6" | 7 => "7" | 8 => "8" | 9 => "9" | 10 => "a" | 11 => "b"
  | 12 => "c" | 13 => "d" | 14 => "e" | _ => "f"
  end%N%char.

(** [hex.EncodeToString]: two lower-case digits per byte. *)
Fixpoint EncodeToString (src : list byte) : string :=
  match src with
  | [] => ""
  | b :: src' =>
      let n := Byte.to_N b in
      String (hexChar (n / 16)) (String (hexChar (n mod 16)) (EncodeToString src'))
  end.

(** [fromHexChar]: the value of a digit of either case. *)
Definition fromHexChar (c : ascii) : option N :=
  let n := N_of_ascii c in
  if (48 <=? n)%N && (n <=? 57)%N then Some (n - 48)%N
  else if (97 <=? n)%N && (n <=? 102)%N then Some (n - 97 + 10)%N
  else if (65 <=? n)%N && (n <=? 70)%N then Some (n - 65 + 10)%N
  else None.

(** [hex.DecodeString]: fails on a character that is no digit and on an
    odd number of digits (the texts of the two errors are shortened). *)
Fixpoint DecodeString (s : string) : result (list byte) :=
  match s with
  | EmptyString => Ok []
  | String _ EmptyString => Err "encoding/hex: odd length hex string"
  | String c1 (String c2 s') =>
      match fromHexChar c1, fromHexChar c2 with
      | Some a, Some b =>
          match Byte.of_N (a * 16 + b), DecodeString s' with
          | Some x, Ok rest => Ok (x :: rest)
          | _, Err e => Err e
          | None, _ => Err "encoding/hex: invalid byte"
          end
      | _, _ => Err "encoding/hex: invalid byte"
      end
  end.

(** [isEncrypted] *)
Definition isEncrypted (data : list byte) : bool :=
  HasPrefix (string_of_list_byte data) "ENC:".

Section Crypto.

(** The primitives of Go's [crypto] packages, which are not part of
    the repository: [sha256.Sum256]; AES-GCM sealing of a plaintext
    under a key and a nonce (the ciphertext followed by the tag); and
    its opening, which fails when the tag does not verify. *)
Variable Sum256 : list byte → list byte.
Variable gcmSeal : list byte → list byte → list byte → list byte.
Variable gcmOpen : list byte → list byte → list byte → option (list byte).

(** [gcm.NonceSize()] of the standard GCM. *)
Definition NonceSize : nat := 12.

(** [aes.NewCipher] accepts keys of 16, 24 and 32 bytes. *)
Definition validKeySize (key : list byte) : bool :=
  bool_decide (length key = 16%nat ∨ length key = 24%nat ∨ length key = 32%nat).

(** [encrypt].  [random] is what [io.ReadFull(rand.Reader, nonce)]
    delivers: the bytes of the nonce, or its error. *)
Definition encrypt (data : list byte) (password : string)
    (random : result (list byte)) : result (list byte) :=
  let key := Sum256 (list_byte_of_string password) in
  if negb (validKeySize key) then Err "crypto/aes: invalid key size"
  else
    match random with
    | Err e => Err e
    | Ok nonce =>
        (* gcm.Seal(nonce, nonce, data, nil) appends to its first argument *)
        let ciphertext := nonce ++ gcmSeal key nonce data in
        Ok (list_byte_of_string ("ENC:" +:+ EncodeToString ciphertext))
    end.

(** [decrypt] *)
Definition decrypt (data : list byte) (password : string) : result (list byte) :=
  if negb (HasPrefix (string_of_list_byte data) "ENC:") then Err "not encrypted data"
  else
    let encryptedHex := TrimPrefix (string_of_list_byte data) "ENC:" in
    match DecodeString encryptedHex with
    | Err e => Err e
    | Ok encrypted =>
        let key := Sum256 (list_byte_of_string password) in
        if negb (validKeySize key) then Err "crypto/aes: invalid key size"
        else if bool_decide (length encrypted < NonceSize)%nat
        then Err "ciphertext too short"
        else
          let nonce := take NonceSize encrypted in
          let ciphertext := drop NonceSize encrypted in
          match gcmOpen key nonce ciphertext with
          | Some plaintext => Ok plaintext
          | None => Err "cipher: message authentication failed"
          end
    end.

End Crypto.

End Config.

(** ** Package protocols: the tunnel manager *)

Module Protocols.

(** [TunnelStatus] *)
Record TunnelStatus : Type := mkTunnelStatus {
  ServerName : string;
  Status : string;          (* "connected", "connecting", "disconnected", "error" *)
  StartTime : Z;
  LastError : string;
  BytesSent : Z;
  BytesRecv : Z;
  Latency : Z
}.

Definition set_Status (v : string) (s : TunnelStatus) : TunnelStatus :=
  mkTunnelStatus (ServerName s) v (StartTime s) (LastError s)
                 (BytesSent s) (BytesRecv s) (Latency s).

Definition set_StartTime (v : Z) (s : TunnelStatus) : TunnelStatus :=
  mkTunnelStatus (ServerName s) (Status s) v (LastError s)
                 (BytesSent s) (BytesRecv s) (Latency s).

(** The implementations of the [Tunnel] interface, each bound to the
    server it was created for. *)
Inductive Tunnel : Type :=
  | SSHTunnel (server : Config.Server)
  | HysteriaTunnel (server : Config.Server)
  | V2RayTunnel (server : Config.Server)
  | WireGuardTunnel (server : Config.Server)
  | TrojanTunnel (server : Config.Server).

(** [TunnelManager].  [ctx] is [None] while [tm.ctx] and [tm.cancel]
    are nil and otherwise tells whether the context has been cancelled; [mu] tells
    whether [tm.mu] is held; [workers] lists, latest first, the tunnels
    for which [StartTunnel] has launched the goroutine that runs the
    adapter's [Start]. *)
Record TunnelManager : Type := mkTunnelManager {
  config : Config.Config;
  tunnels : gmap string Tunnel;
  status : gmap string TunnelStatus;
  ctx : option bool;
  mu : bool;
  workers : list string
}.

Definition set_tunnels (v : gmap string Tunnel) (tm : TunnelManager) : TunnelManager :=
  mkTunnelManager (config tm) v (status tm) (ctx tm) (mu tm) (workers tm).
Definition set_status (v : gmap string TunnelStatus) (tm : TunnelManager) : TunnelManager :=
  mkTunnelManager (config tm) (tunnels tm) v (ctx tm) (mu tm) (workers tm).
Definition set_ctx (v : option bool) (tm : TunnelManager) : TunnelManager :=
  mkTunnelManager (config tm) (tunnels tm) (status tm) v (mu tm) (workers tm).
Definition set_mu (v : bool) (tm : TunnelManager) : TunnelManager :=
  mkTunnelManager (config tm) (tunnels tm) (status tm) (ctx tm) v (workers tm).
Definition set_workers (v : list string) (tm : TunnelManager) : TunnelManager :=
  mkTunnelManager (config tm) (tunnels tm) (status tm) (ctx tm) (mu tm) v.
Definition set_config (v : Config.Config) (tm : TunnelManager) : TunnelManager :=
  mkTunnelManager v (tunnels tm) (status tm) (ctx tm) (mu tm) (workers tm).

(** [NewTunnelManager] *)
Definition NewTunnelManager (cfg : Config.Config) : TunnelManager :=
  mkTunnelManager cfg ∅ ∅ None false [].

(** [createTunnel]: the adapter of the server's transport. *)
Definition createTunnel (server : Config.Server) : result Tunnel :=
  let t := Config.Transport server in
  if bool_decide (t = Config.TransportSSH) then Ok (SSHTunnel server)
  else if bool_decide (t = Config.TransportHysteria) then Ok (HysteriaTunnel server)
  else if bool_decide (t = Config.TransportV2Ray ∨ t = Config.TransportVMess
                       ∨ t = Config.TransportVLESS) then Ok (V2RayTunnel server)
  else if bool_decide (t = Config.TransportWireGuard) then Ok (WireGuardTunnel server)
  else if bool_decide (t = Config.TransportTrojan) then Ok (TrojanTunnel server)
  else Err ("unsupported transport type: " +:+ t).

(** One round of [Start]'s loop over [tm.config.Servers]: a disabled
    server and a server whose adapter cannot be created are skipped. *)
Definition registerServer (tm : TunnelManager) (server : Config.Server) : TunnelManager :=
  if negb (Config.Enabled server) then tm
  else
    match createTunnel server with
    | Err _ => tm
    | Ok tunnel =>
        set_status
          (<[Config.Name server :=
               mkTunnelStatus (Config.Name server) "disconnected" 0 "" 0 0 0]>
             (status tm))
          (set_tunnels (<[Config.Name server := tunnel]> (tunnels tm)) tm)
    end.

(** [%v] of a [[]error]. *)
Definition fmtErrors (errors : list string) : string :=
  "[" +:+ String.concat " " errors +:+ "]".

Section Adapters.

(** What the adapters answer during one operation of the manager:
    [tunnel.Stop()] returns an error or nil, [tunnel.Test()] a latency
    or an error. *)
Variable adapterStop : Tunnel → option string.
Variable adapterTest : Tunnel → result Z.

(** [StartTunnel], called at time [now]. *)
Definition StartTunnel (now : Z) (serverName : string) (tm : TunnelManager)
    : outcome (TunnelManager * option string) :=
  if mu tm then Blocks
  else
    match tunnels tm !! serverName with
    | None => Returns (tm, Some ("tunnel " +:+ serverName +:+ " not found"))
    | Some _ =>
        match status tm !! serverName with
        | None => Panics   (* status is nil *)
        | Some st =>
            let st' := set_StartTime now (set_Status "connecting" st) in
            Returns (set_workers (serverName :: workers tm)
                       (set_status (<[serverName := st']> (status tm)) tm),
                     None)
        end
    end.

(** One round of the loop of [Stop] and [StopAllTunnels]. *)
Definition stopStep (tm : TunnelManager)
    (acc : gmap string TunnelStatus * list string) (name : string)
    : gmap string TunnelStatus * list string :=
  match tunnels tm !! name with
  | None => acc
  | Some tunnel =>
      let errors :=
        match adapterStop tunnel with
        | Some err => acc.2 ++ ["failed to stop tunnel " +:+ name +:+ ": " +:+ err]
        | None => acc.2
        end in
      let st :=
        match acc.1 !! name with
        | Some s => <[name := set_Status "disconnected" s]> acc.1
        | None => acc.1
        end in
      (st, errors)
  end.

Definition stopResult (errors : list string) : option string :=
  match errors with
  | [] => None
  | _ => Some ("errors stopping tunnels: " +:+ fmtErrors errors)
  end.

(** [StopAllTunnels], visiting [tm.tunnels] in [order]. *)
Definition StopAllTunnels (order : list string) (tm : TunnelManager)
    : outcome (TunnelManager * option string) :=
  if mu tm then Blocks
  else
    let r := foldl (stopStep tm) (status tm, []) order in
    Returns (set_status r.1 tm, stopResult r.2).

(** [Stop]: cancels the context, then stops as [StopAllTunnels] does. *)
Definition Stop (order : list string) (tm : TunnelManager)
    : outcome (TunnelManager * option string) :=
  if mu tm then Blocks
  else
    let tm1 := match ctx tm with Some _ => set_ctx (Some true) tm | None => tm end in
    let r := foldl (stopStep tm1) (status tm1, []) order in
    Returns (set_status r.1 tm1, stopResult r.2).

(** One round of [startBestLatency]'s loop; [acc] is
    [(bestServer, bestLatency)]. *)
Definition bestLatencyStep (tm : TunnelManager) (acc : string * Z) (name : string)
    : string * Z :=
  match tunnels tm !! name with
  | None => acc
  | Some tunnel =>
      match adapterTest tunnel with
      | Err _ => acc
      | Ok latency => if latency <? acc.2 then (name, latency) else acc
      end
  end.

(** The server [startBestLatency] settles on, with its latency. *)
Definition bestLatency (order : list string) (tm : TunnelManager) : string * Z :=
  foldl (bestLatencyStep tm) ("", Hour) order.

(** [startBestLatency] *)
Definition startBestLatency (order : list string) (now : Z) (tm : TunnelManager)
    : outcome (TunnelManager * option string) :=
  let bestServer := (bestLatency order tm).1 in
  if bool_decide (bestServer = "") then Returns (tm, Some "no available servers found")
  else StartTunnel now bestServer tm.

(** [startRandom]: the first tunnel the map yields. *)
Definition startRandom (order : list string) (now : Z) (tm : TunnelManager)
    : outcome (TunnelManager * option string) :=
  match order with
  | name :: _ => StartTunnel now name tm
  | [] => Returns (tm, Some "no available servers found")
  end.

(** [startLeastLoad] *)
Definition startLeastLoad (order : list string) (now : Z) (tm : TunnelManager)
    : outcome (TunnelManager * option string) :=
  startBestLatency order now tm.

(** [startAutoSelected] *)
Definition startAutoSelected (order : list string) (now : Z) (tm : TunnelManager)
    : outcome (TunnelManager * option string) :=
  let m := Config.SelectionMethod (config tm) in
  if bool_decide (m = "latency") then startBestLatency order now tm
  else if bool_decide (m = "random") then startRandom order now tm
  else if bool_decide (m = "load") then startLeastLoad order now tm
  else startBestLatency order now tm.

(** [Start]'s loop: the tunnels and statuses after every server of the
    configuration has been considered. *)
Definition registerAll (tm : TunnelManager) : TunnelManager :=
  foldl registerServer tm (Config.Servers (config tm)).

(** [Start], called with the context [parent]: [None] is the nil
    context, [Some cancelled] a context that has or has not been
    cancelled (its later cancellation by the caller is not
    represented).  The lock is taken first and released by the deferred
    [Unlock] when the body returns; [context.WithCancel] panics on a nil
    parent, and otherwise makes a context that is cancelled from the
    start exactly when its parent is; the selection policy runs while
    the lock is held.  [order] is the order in which the policy's loop
    visits [tm.tunnels]. *)
Definition Start (parent : option bool) (order : list string) (now : Z)
    (tm : TunnelManager) : outcome (TunnelManager * option string) :=
  if mu tm then Blocks
  else
    match parent with
    | None => Panics   (* cannot create context from nil parent *)
    | Some cancelled =>
        let tm1 := registerAll (set_ctx (Some cancelled) (set_mu true tm)) in
        if Config.AutoSelect (config tm1) then
          match startAutoSelected order now tm1 with
          | Returns (tm2, err) => Returns (set_mu false tm2, err)
          | Blocks => Blocks
          | Panics => Panics
          end
        else Returns (set_mu false tm1, None)
    end.

(** [RestartTunnels]: stops everything, gives up on a stop error, and
    otherwise calls [Start] with the manager's own context [tm.ctx],
    which is nil while the manager has never been started (the pause
    between the two is not represented). *)
Definition RestartTunnels (stopOrder startOrder : list string) (now : Z)
    (tm : TunnelManager) : outcome (TunnelManager * option string) :=
  match StopAllTunnels stopOrder tm with
  | Returns (tm1, Some err) => Returns (tm1, Some err)
  | Returns (tm1, None) => Start (ctx tm1) startOrder now tm1
  | Blocks => Blocks
  | Panics => Panics
  end.

(** [TestServer]: the latency of the named tunnel, read under the shared
    lock; the lifecycle state is not touched. *)
Definition TestServer (serverName : string) (tm : TunnelManager) : outcome (result Z) :=
  if mu tm then Blocks
  else
    match tunnels tm !! serverName with
    | None => Returns (Err "Server not found")
    | Some tunnel => Returns (adapterTest tunnel)
    end.

(** *** Vocabulary of the statements below *)

(** The latency the adapter registered under [name] measures: [None]
    when no tunnel has the name or its probe fails. *)
Definition measured (tm : TunnelManager) (name : string) : option Z :=
  match tunnels tm !! name with
  | None => None
  | Some tunnel => match adapterTest tunnel with Ok latency => Some latency | Err _ => None end
  end.

(** The message recorded for [name] when its adapter's [Stop] fails. *)
Definition stopError (tm : TunnelManager) (name : string) : option string :=
  match tunnels tm !! name with
  | None => None
  | Some tunnel =>
      match adapterStop tunnel with
      | Some err => Some ("failed to stop tunnel " +:+ name +:+ ": " +:+ err)
      | None => None
      end
  end.

End Adapters.

(** The transports for which [createTunnel] has an adapter. *)
Definition supported (t : Config.TransportType) : Prop :=
  t = Config.TransportSSH ∨ t = Config.TransportHysteria ∨ t = Config.TransportV2Ray
  ∨ t = Config.TransportVMess ∨ t = Config.TransportVLESS
  ∨ t = Config.TransportWireGuard ∨ t = Config.TransportTrojan.

(** Every registered tunnel has a status record, and conversely. *)
Definition aligned (tm : TunnelManager) : Prop :=
  ∀ name, is_Some (tunnels tm !! name) ↔ is_Some (status tm !! name).

(** The status a tunnel is registered with. *)
Definition initialStatus (name : string) : TunnelStatus :=
  mkTunnelStatus name "disconnected" 0 "" 0 0 0.

End Protocols.

(** ** Package mesh: the overlay of relay nodes *)

Module Mesh.

(** [MeshNode] *)
Record MeshNode : Type := mkMeshNode {
  ID : string;
  Name : string;
  PublicIP : string;
  PrivateIP : string;
  MeshIP : string;
  Port : Z;
  PublicKey : string;
  PrivateKey : string;
  Status : string;          (* online, offline, connecting *)
  LastSeen : Z;
  Protocols : list string;
  LoadScore : float;
  Latency : Z;
  Tags : list string;
  Region : string;
  Capabilities : gmap string bool
}.

Definition set_MeshIP (v : string) (n : MeshNode) : MeshNode :=
  mkMeshNode (ID n) (Name n) (PublicIP n) (PrivateIP n) v (Port n) (PublicKey n)
    (PrivateKey n) (Status n) (LastSeen n) (Protocols n) (LoadScore n) (Latency n)
    (Tags n) (Region n) (Capabilities n).
Definition set_Status (v : string) (n : MeshNode) : MeshNode :=
  mkMeshNode (ID n) (Name n) (PublicIP n) (PrivateIP n) (MeshIP n) (Port n) (PublicKey n)
    (PrivateKey n) v (LastSeen n) (Protocols n) (LoadScore n) (Latency n)
    (Tags n) (Region n) (Capabilities n).
Definition set_LastSeen (v : Z) (n : MeshNode) : MeshNode :=
  mkMeshNode (ID n) (Name n) (PublicIP n) (PrivateIP n) (MeshIP n) (Port n) (PublicKey n)
    (PrivateKey n) (Status n) v (Protocols n) (LoadScore n) (Latency n)
    (Tags n) (Region n) (Capabilities n).
Definition set_Latency (v : Z) (n : MeshNode) : MeshNode :=
  mkMeshNode (ID n) (Name n) (PublicIP n) (PrivateIP n) (MeshIP n) (Port n) (PublicKey n)
    (PrivateKey n) (Status n) (LastSeen n) (Protocols n) (LoadScore n) v
    (Tags n) (Region n) (Capabilities n).
Definition set_Keys (priv pub : string) (n : MeshNode) : MeshNode :=
  mkMeshNode (ID n) (Name n) (PublicIP n) (PrivateIP n) (MeshIP n) (Port n) pub
    priv (Status n) (LastSeen n) (Protocols n) (LoadScore n) (Latency n)
    (Tags n) (Region n) (Capabilities n).

(** [MeshConfig] *)
Record MeshConfig : Type := mkMeshConfig {
  NetworkCIDR : string;
  CoordinatorURL : string;
  LocalNodeName : string;
  AutoDiscovery : bool;
  HealthCheckInterval : Z;
  LoadBalancing : string;   (* round_robin, least_connections, latency *)
  FailoverTimeout : Z;
  Encryption : bool;
  ConfigTags : list string;
  Regions : list string
}.

(** [MeshNetwork].  The nodes are reached through pointers: [nodes] maps
    an id to the node object stored under it, and the pointer
    [mn.localNode] is represented by the key of [nodes] under which the
    object it points to is stored ([None]: the pointer is nil, or its
    object is no longer in the map).  So [node == mn.localNode], for the
    node found under [key], is [localNode mn = Some key].  The route
    table is left out: no code writes it.  So is the lock [mn.mu]: no
    method of the overlay that holds it calls a method that takes it. *)
Record MeshNetwork : Type := mkMeshNetwork {
  nodes : gmap string MeshNode;
  localNode : option string;
  config : MeshConfig
}.

(** [NewMeshNetwork] *)
Definition NewMeshNetwork (cfg : MeshConfig) : MeshNetwork :=
  mkMeshNetwork ∅ None cfg.

(** [generateNodeID], from the clock's [UnixNano] reading. *)
Definition generateNodeID (nanos : Z) : string := "node-" +:+ pretty nanos.

(** [parsePort], [getLocalIP], [generateWireGuardKeys], [probeNode] and
    [setupNodeRouting] are the constant functions of the source. *)
Definition parsePort (portStr : string) : Z := 22.
Definition getLocalIP : result string := Ok "127.0.0.1".
Definition generateWireGuardKeys : result (string * string) :=
  Ok ("private-key", "public-key").
Definition probeNode (node : MeshNode) : option string := None.
Definition setupNodeRouting (node : MeshNode) : option string := None.

(** [pingNode]: the time that passed between its two clock readings,
    and never an error. *)
Definition pingNode (elapsed : Z) (node : MeshNode) : result Z := Ok elapsed.

(** [containsString] *)
Definition containsString (slice : list string) (item : string) : bool :=
  existsb (λ s, bool_decide (s = item)) slice.

(** [isIPUsed]: some node of the map has the address.  The loop returns
    at the first such node; which one it meets first does not change
    the answer. *)
Definition isIPUsed (mn : MeshNetwork) (ip : string) : bool :=
  existsb (λ kn, bool_decide (MeshIP kn.2 = ip)) (map_to_list (nodes mn)).

(** The loop of [assignMeshIP], [for { ip = nextIP(ip); if
    !mn.isIPUsed(ip.String()) { return ip.String(), nil } }], run for at
    most [fuel] rounds: [None] when it is still running after them. *)
Fixpoint assignMeshIP_loop (fuel : nat) (mn : MeshNetwork) (ip : Net.IP)
    : option string :=
  match fuel with
  | O => None
  | S fuel' =>
      let ip' := Net.nextIP ip in
      if negb (isIPUsed mn (Net.ipString ip')) then Some (Net.ipString ip')
      else assignMeshIP_loop fuel' mn ip'
  end.

Section Overlay.

(** [net.ParseCIDR] of the standard library, reduced to the network
    it returns (or its error). *)
Variable ParseCIDR : string → result Net.IPNet.

(** [assignMeshIP] *)
Definition assignMeshIP (fuel : nat) (mn : MeshNetwork) : option (result string) :=
  match ParseCIDR (NetworkCIDR (config mn)) with
  | Err e => Some (Err e)
  | Ok network =>
      match assignMeshIP_loop fuel mn (Net.netIP network) with
      | Some ip => Some (Ok ip)
      | None => None
      end
  end.

(** [createLocalNode]; [nanos] and [now] are its two clock readings. *)
Definition createLocalNode (fuel : nat) (nanos now : Z) (mn : MeshNetwork)
    : option (result MeshNode) :=
  let nodeID := generateNodeID nanos in
  match getLocalIP with
  | Err e => Some (Err e)
  | Ok localIP =>
      match assignMeshIP fuel mn with
      | None => None
      | Some (Err e) => Some (Err e)
      | Some (Ok meshIP) =>
          let node :=
            mkMeshNode nodeID (LocalNodeName (config mn)) localIP "" meshIP 0 "" ""
              "online" now ["ssh"; "wireguard"] 0%float 0 (ConfigTags (config mn)) ""
              (<["coordinator" := true]> (<["routing" := true]>
                 (<["loadbalancer" := true]> ∅))) in
          match generateWireGuardKeys with
          | Err e => Some (Err e)
          | Ok (privateKey, publicKey) => Some (Ok (set_Keys privateKey publicKey node))
          end
      end
  end.

(** [Initialize]: the local node is created and registered (the
    background services it launches are not represented). *)
Definition Initialize (fuel : nat) (nanos now : Z) (mn : MeshNetwork)
    : option (MeshNetwork * option string) :=
  match createLocalNode fuel nanos now mn with
  | None => None
  | Some (Err e) => Some (mn, Some ("failed to create local node: " +:+ e))
  | Some (Ok local) =>
      Some (mkMeshNetwork (<[ID local := local]> (nodes mn)) (Some (ID local)) (config mn),
            None)
  end.

(** [AddServer]; [nanos] is the clock reading of [generateNodeID] and
    [now] the one stored in [LastSeen].  Storing the node under an id
    that held the local node displaces the local node's object. *)
Definition AddServer (fuel : nat) (nanos now : Z) (serverConfig : Config.Server)
    (mn : MeshNetwork) : option (MeshNetwork * result MeshNode) :=
  let node :=
    mkMeshNode (generateNodeID nanos) (Config.Name serverConfig)
      (Config.Host serverConfig) "" "" (parsePort (Config.Port serverConfig)) "" ""
      "connecting" 0 [Config.Transport serverConfig] 0%float 0
      (Config.Tags serverConfig) (Config.Region serverConfig) ∅ in
  match assignMeshIP fuel mn with
  | None => None
  | Some (Err e) => Some (mn, Err ("failed to assign mesh IP: " +:+ e))
  | Some (Ok meshIP) =>
      let node := set_MeshIP meshIP node in
      let node :=
        match probeNode node with
        | Some _ => set_Status "offline" node
        | None => set_LastSeen now (set_Status "online" node)
        end in
      let local :=
        if bool_decide (localNode mn = Some (ID node)) then None else localNode mn in
      Some (mkMeshNetwork (<[ID node := node]> (nodes mn)) local (config mn), Ok node)
  end.

End Overlay.

(** [calculateNodeScore], in binary64 arithmetic. *)
Definition calculateNodeScore (node : MeshNode) (criteria : string) : float :=
  let score := 0%float in
  let latencyScore := (1000 / float64_of_int (Milliseconds (Latency node) + 1))%float in
  let score := (score + latencyScore * 0.4)%float in
  let loadScore := (1 - LoadScore node)%float in
  let score := (score + loadScore * 0.3)%float in
  let score := if bool_decide (Status node = "online") then (score + 100)%float else score in
  let score :=
    if bool_decide (criteria ≠ "") && bool_decide (Region node = criteria)
    then (score + 50)%float else score in
  score.

(** The condition under which the loops of [GetBestNode] and
    [getHealthyNodes] pass over the node stored under [key]. *)
Definition skipped (mn : MeshNetwork) (key : string) (node : MeshNode) : bool :=
  bool_decide (Status node ≠ "online") || bool_decide (localNode mn = Some key).

(** One round of [GetBestNode]'s loop; [acc] is [None] while [bestNode]
    is nil, and else [(bestNode, bestScore)]. *)
Definition bestNodeStep (mn : MeshNetwork) (criteria : string)
    (acc : option (MeshNode * float)) (key : string) : option (MeshNode * float) :=
  match nodes mn !! key with
  | None => acc
  | Some node =>
      if skipped mn key node then acc
      else
        let score := calculateNodeScore node criteria in
        match acc with
        | None => Some (node, score)
        | Some (_, bestScore) =>
            if (bestScore <? score)%float then Some (node, score) else acc
        end
  end.

(** [GetBestNode], visiting [mn.nodes] in [order]. *)
Definition GetBestNode (order : list string) (criteria : string) (mn : MeshNetwork)
    : result MeshNode :=
  match foldl (bestNodeStep mn criteria) None order with
  | None => Err "no available nodes found"
  | Some (bestNode, _) => Ok bestNode
  end.

(** [GetNodesByRegion] and [GetNodesByTag], in the order of the visit. *)
Definition GetNodesByRegion (order : list string) (region : string) (mn : MeshNetwork)
    : list MeshNode :=
  omap (λ key, n ← nodes mn !! key;
               if bool_decide (Region n = region) && bool_decide (Status n = "online")
               then Some n else None) order.

Definition GetNodesByTag (order : list string) (tag : string) (mn : MeshNetwork)
    : list MeshNode :=
  omap (λ key, n ← nodes mn !! key;
               if bool_decide (Status n = "online") && containsString (Tags n) tag
               then Some n else None) order.

(** [getHealthyNodes]: the online nodes other than the local one. *)
Definition getHealthyNodes (order : list string) (mn : MeshNetwork) : list MeshNode :=
  omap (λ key, n ← nodes mn !! key;
               if skipped mn key n then None else Some n) order.

(** [roundRobinSelect]; [second] is [time.Now().Second()], the second
    within the current minute, from 0 to 59. *)
Definition roundRobinSelect (second : Z) (l : list MeshNode) : option MeshNode :=
  match l with
  | [] => None
  | _ => l !! Z.to_nat (second mod Z.of_nat (length l))
  end.

(** [leastConnectionsSelect]; the accumulator is [(bestNode, bestLoad)]. *)
Definition leastConnectionsSelect (l : list MeshNode) : option MeshNode :=
  (foldl (λ (acc : option MeshNode * float) node,
            if (LoadScore node <? acc.2)%float then (Some node, LoadScore node) else acc)
         (None, 1%float) l).1.

(** [latencyBasedSelect]; the accumulator is [(bestNode, bestLatency)]. *)
Definition latencyBasedSelect (l : list MeshNode) : option MeshNode :=
  (foldl (λ (acc : option MeshNode * Z) node,
            if Latency node <? acc.2 then (Some node, Latency node) else acc)
         (None, Hour) l).1.

(** [LoadBalance]: [Ok None] is the nil node returned with a nil error. *)
Definition LoadBalance (order : list string) (second : Z) (target : string)
    (mn : MeshNetwork) : result (option MeshNode) :=
  let healthy := getHealthyNodes order mn in
  if bool_decide (length healthy = 0%nat) then Err "no healthy nodes available"
  else
    let policy := LoadBalancing (config mn) in
    if bool_decide (policy = "round_robin") then Ok (roundRobinSelect second healthy)
    else if bool_decide (policy = "least_connections") then Ok (leastConnectionsSelect healthy)
    else if bool_decide (policy = "latency") then Ok (latencyBasedSelect healthy)
    else Ok (latencyBasedSelect healthy).

(** What [performHealthCheck] does to the node stored under [key], given
    what [mn.pingNode] returned for it and the clock reading [now]. *)
Definition checkNode (probe : result Z) (now : Z) (node : MeshNode) : MeshNode :=
  match probe with
  | Err _ =>
      if bool_decide (Status node = "online") then set_Status "offline" node else node
  | Ok latency =>
      let node :=
        if bool_decide (Status node ≠ "online") then set_Status "online" node else node in
      set_Latency latency (set_LastSeen now node)
  end.

(** One round of [performHealthCheck]'s loop. *)
Definition healthStep (probe : MeshNode → result Z) (clock : string → Z)
    (mn : MeshNetwork) (key : string) : MeshNetwork :=
  match nodes mn !! key with
  | None => mn
  | Some node =>
      if bool_decide (localNode mn = Some key) then mn
      else
        mkMeshNetwork (<[key := checkNode (probe node) (clock key) node]> (nodes mn))
                      (localNode mn) (config mn)
  end.

(** [performHealthCheck], visiting [mn.nodes] in [order]; [probe] is what
    [mn.pingNode] returns for a node and [clock key] the time read when
    the node under [key] has answered. *)
Definition performHealthCheck (probe : MeshNode → result Z) (clock : string → Z)
    (order : list string) (mn : MeshNetwork) : MeshNetwork :=
  foldl (healthStep probe clock) mn order.

(** *** Vocabulary of the statements below *)

(** The node stored under [key] is one [GetBestNode] considers. *)
Definition eligible (mn : MeshNetwork) (key : string) (node : MeshNode) : Prop :=
  nodes mn !! key = Some node ∧ Status node = "online" ∧ localNode mn ≠ Some key.

(** The score as the specification words it:
    [0.4 × normalizedLatencyScore + 0.3 × (1 − loadScore)
     + 100 × (status == online) + 50 × (region == criteria)],
    evaluated in the order and arithmetic of [calculateNodeScore]. *)
Definition specScore (node : MeshNode) (criteria : string) : float :=
  let latencyScore := (1000 / float64_of_int (Milliseconds (Latency node) + 1))%float in
  let score := (0 + latencyScore * 0.4)%float in
  let score := (score + (1 - LoadScore node) * 0.3)%float in
  let score := if bool_decide (Status node = "online") then (score + 100)%float else score in
  if bool_decide (Region node = criteria) then (score + 50)%float else score.

(** No two nodes of the registry have the same virtual address. *)
Definition uniqueAddresses (mn : MeshNetwork) : Prop :=
  ∀ k1 k2 n1 n2, nodes mn !! k1 = Some n1 → nodes mn !! k2 = Some n2 →
                 MeshIP n1 = MeshIP n2 → k1 = k2.

End Mesh.

(** ** Scenarios: the concrete configurations used in the examples *)

Module Scenario.

(** A server of the given name and transport, enabled. *)
Definition server (name : string) (transport : string) : Config.Server :=
  Config.mkServer name "203.0.113.7" "22" "root" "secret" "" transport "socks5"
                  8080 0 3 10000000000 true "" [].

Definition configOf (servers : list Config.Server) (autoSelect : bool) : Config.Config :=
  Config.mkConfig "1.0" servers autoSelect "latency" 5000000000 false 30000000000.

(** Adapters whose [Stop] fails for the tunnel of server ["b"] only. *)
Definition stopFailsForB (t : Protocols.Tunnel) : option string :=
  match t with
  | Protocols.SSHTunnel s =>
      if bool_decide (Config.Name s = "b") then Some "connection reset" else None
  | _ => None
  end.

Definition serverOf (t : Protocols.Tunnel) : Config.Server :=
  match t with
  | Protocols.SSHTunnel s | Protocols.HysteriaTunnel s | Protocols.V2RayTunnel s
  | Protocols.WireGuardTunnel s | Protocols.TrojanTunnel s => s
  end.

(** Probes measuring 80ms, 25ms and 45ms for the servers ["a"], ["b"]
    and ["c"], and failing for any other. *)
Definition probe_80_25_45 (t : Protocols.Tunnel) : result Z :=
  let n := Config.Name (serverOf t) in
  if bool_decide (n = "a") then Ok (80 * Millisecond)
  else if bool_decide (n = "b") then Ok (25 * Millisecond)
  else if bool_decide (n = "c") then Ok (45 * Millisecond)
  else Err "i/o timeout".

(** Probes measuring 25ms for every server. *)
Definition probe_all_25 (t : Protocols.Tunnel) : result Z := Ok (25 * Millisecond).

(** The manager of the servers ["a"], ["b"], ["c"] after registration,
    without auto-selection. *)
Definition threeServers : list Config.Server :=
  [server "a" "ssh"; server "b" "ssh"; server "c" "ssh"].

Definition tmThree : Protocols.TunnelManager :=
  Protocols.registerAll (Protocols.NewTunnelManager (configOf threeServers false)).

(** The same manager once the tunnel ["b"] has connected (started at
    time 100). *)
Definition tmConnected : Protocols.TunnelManager :=
  Protocols.set_status
    (<["b" := Protocols.mkTunnelStatus "b" "connected" 100 "" 0 0 0]>
       (Protocols.status tmThree))
    tmThree.

(** A configuration whose only server asks for a transport without
    adapter, with and without auto-selection. *)
Definition quicOnly (autoSelect : bool) : Config.Config :=
  configOf [server "q" "quic"] autoSelect.

(** A configuration with one such server among two supported ones. *)
Definition mixed (autoSelect : bool) : Config.Config :=
  configOf [server "a" "ssh"; server "q" "quic"; server "b" "trojan"] autoSelect.

(** *** Mesh scenarios *)

(** What [net.ParseCIDR] returns for the blocks of the scenarios. *)
Definition cidrs (s : string) : result Net.IPNet :=
  if bool_decide (s = "10.99.0.0/30")
  then Ok (Net.mkIPNet [10; 99; 0; 0] [255; 255; 255; 252])
  else if bool_decide (s = "10.99.0.0/24")
  then Ok (Net.mkIPNet [10; 99; 0; 0] [255; 255; 255; 0])
  else Err ("invalid CIDR address: " +:+ s).

Definition block30 : Net.IPNet := Net.mkIPNet [10; 99; 0; 0] [255; 255; 255; 252].

(** The configuration [handleMeshInit] builds for a block and a policy. *)
Definition meshConfig (block policy : string) : Mesh.MeshConfig :=
  Mesh.mkMeshConfig block "" "local-node" true 30000000000 policy 30000000000 true [] [].

(** A server to add to the mesh, in the given region. *)
Definition relay (name region : string) : Config.Server :=
  Config.mkServer name "198.51.100.9" "22" "root" "secret" "" "ssh" "socks5"
                  8080 0 3 10000000000 true region [].

(** The overlay an operation leaves behind (the overlay it started from
    when the operation has not returned within the fuel). *)
Definition after {A : Type} (mn : Mesh.MeshNetwork) (r : option (Mesh.MeshNetwork * A))
    : Mesh.MeshNetwork :=
  match r with Some (mn', _) => mn' | None => mn end.

(** The block 10.99.0.0/30: the local node, then three servers added at
    the clock readings 1, 2 and 3. *)
Definition mesh30_0 : Mesh.MeshNetwork :=
  Mesh.NewMeshNetwork (meshConfig "10.99.0.0/30" "latency").
Definition mesh30_local : Mesh.MeshNetwork :=
  after mesh30_0 (Mesh.Initialize cidrs 8 0 0 mesh30_0).
Definition mesh30_1 : Mesh.MeshNetwork :=
  after mesh30_local (Mesh.AddServer cidrs 8 1 1 (relay "r1" "") mesh30_local).
Definition mesh30_2 : Mesh.MeshNetwork :=
  after mesh30_1 (Mesh.AddServer cidrs 8 2 2 (relay "r2" "") mesh30_1).
Definition mesh30_3 : Mesh.MeshNetwork :=
  after mesh30_2 (Mesh.AddServer cidrs 8 3 3 (relay "r3" "") mesh30_2).

Definition mesh30_4 : Mesh.MeshNetwork :=
  after mesh30_3 (Mesh.AddServer cidrs 8 4 4 (relay "r4" "") mesh30_3).

(** The block 10.99.0.0/24 with the local node and two servers: ["eu-1"]
    in the region ["eu"] and ["plain"] in no region. *)
Definition mesh24_0 (policy : string) : Mesh.MeshNetwork :=
  Mesh.NewMeshNetwork (meshConfig "10.99.0.0/24" policy).
Definition mesh24_local (policy : string) : Mesh.MeshNetwork :=
  after (mesh24_0 policy) (Mesh.Initialize cidrs 8 0 0 (mesh24_0 policy)).
Definition mesh24_1 (policy : string) : Mesh.MeshNetwork :=
  after (mesh24_local policy)
        (Mesh.AddServer cidrs 8 1 1 (relay "eu-1" "eu") (mesh24_local policy)).
Definition mesh24 (policy : string) : Mesh.MeshNetwork :=
  after (mesh24_1 policy)
        (Mesh.AddServer cidrs 8 2 2 (relay "plain" "") (mesh24_1 policy)).

(** A health check in which the node ["eu-1"] answers after 10ms and every
    other node after 20ms; the clock reads 500 throughout. *)
Definition ping_10_20 (node : Mesh.MeshNode) : result Z :=
  Mesh.pingNode (if bool_decide (Mesh.Name node = "eu-1")
                 then 10 * Millisecond else 20 * Millisecond) node.

Definition mesh24_checked (policy : string) : Mesh.MeshNetwork :=
  Mesh.performHealthCheck ping_10_20 (λ _, 500) ["node-0"; "node-1"; "node-2"]
                          (mesh24 policy).

(** A health check in which every node answers after one hour. *)
Definition ping_hour (node : Mesh.MeshNode) : result Z := Mesh.pingNode Hour node.

Definition mesh24_slow (policy : string) : Mesh.MeshNetwork :=
  Mesh.performHealthCheck ping_hour (λ _, 500) ["node-0"; "node-1"; "node-2"]
                          (mesh24 policy).

(** A health check in which the node ["eu-1"] does not answer. *)
Definition ping_eu_down (node : Mesh.MeshNode) : result Z :=
  if bool_decide (Mesh.Name node = "eu-1") then Err "i/o timeout"
  else Mesh.pingNode (20 * Millisecond) node.

(** The overlay under the least-connections policy, every node carrying
    the load score 1.0 (a load signal no code of the repository
    produces). *)
Definition loaded (n : Mesh.MeshNode) : Mesh.MeshNode :=
  Mesh.mkMeshNode (Mesh.ID n) (Mesh.Name n) (Mesh.PublicIP n) (Mesh.PrivateIP n)
    (Mesh.MeshIP n) (Mesh.Port n) (Mesh.PublicKey n) (Mesh.PrivateKey n) (Mesh.Status n)
    (Mesh.LastSeen n) (Mesh.Protocols n) 1%float (Mesh.Latency n) (Mesh.Tags n)
    (Mesh.Region n) (Mesh.Capabilities n).

Definition mesh24_loaded : Mesh.MeshNetwork :=
  Mesh.mkMeshNetwork (loaded <$> Mesh.nodes (mesh24 "least_connections"))
                     (Mesh.localNode (mesh24 "least_connections"))
                     (Mesh.config (mesh24 "least_connections")).

(** *** Stand-ins for the cryptographic primitives *)

(** A hash and a sealing that obey the laws the statements about
    [encrypt] and [decrypt] assume; they are not SHA-256 and AES-GCM and
    only show that the laws can be met.  The sealing appends the key as
    its tag, and the opening verifies it. *)
Definition padSum (m : list byte) : list byte := take 32 (m ++ replicate 32 x00).

Definition tagSeal (key nonce data : list byte) : list byte := data ++ key.

Definition tagOpen (key nonce box : list byte) : option (list byte) :=
  let n := (length box - length key)%nat in
  if bool_decide (drop n box = key) then Some (take n box) else None.

End Scenario.

(** ** Package protocols: the adapters behind the [Tunnel] interface *)

Module Adapters.

(** [startSOCKS5] and [startHTTP] open the listener of the server's local
    port; [listen] is what [net.Listen] answers for a port, an error or
    nil. *)
Definition startSOCKS5 (listen : Z → option string) (server : Config.Server)
    : option string :=
  match listen (Config.LocalPort server) with
  | Some err => Some ("failed to create local listener: " +:+ err)
  | None => None
  end.

Definition startHTTP (listen : Z → option string) (server : Config.Server)
    : option string :=
  match listen (Config.LocalPort server) with
  | Some err => Some ("failed to create local listener: " +:+ err)
  | None => None
  end.

(** [SSHTunnel.Start]: the error it returns, or nil.  [dial] is what
    [ssh.Dial] answers for an address.  The status record the adapter
    keeps for itself is not represented: the manager reads [tm.status]
    only. *)
Definition SSHTunnel_Start (dial : string → option string) (listen : Z → option string)
    (server : Config.Server) : option string :=
  if bool_decide (Config.Password server ≠ "") then
    let addr := Config.Host server +:+ ":" +:+ Config.Port server in
    match dial addr with
    | Some err => Some ("failed to connect to SSH server: " +:+ err)
    | None =>
        if bool_decide (Config.Proxy server = "socks5") then startSOCKS5 listen server
        else if bool_decide (Config.Proxy server = "http") then startHTTP listen server
        else Some ("unsupported proxy type: " +:+ Config.Proxy server)
    end
  else if bool_decide (Config.KeyPath server ≠ "")
  then Some "key-based authentication not yet implemented"
  else Some "no authentication method provided".

(** The [Start] of the four other adapters. *)
Definition HysteriaTunnel_Start : option string :=
  Some "Hysteria protocol not yet implemented".
Definition V2RayTunnel_Start : option string :=
  Some "V2Ray protocol not yet implemented".
Definition WireGuardTunnel_Start : option string :=
  Some "WireGuard protocol not yet implemented".
Definition TrojanTunnel_Start : option string :=
  Some "Trojan protocol not yet implemented".

(** Every [Stop] returns nil. *)
Definition SSHTunnel_Stop : option string := None.
Definition HysteriaTunnel_Stop : option string := None.
Definition V2RayTunnel_Stop : option string := None.
Definition WireGuardTunnel_Stop : option string := None.
Definition TrojanTunnel_Stop : option string := None.

(** The [Test] of the four other adapters. *)
Definition HysteriaTunnel_Test : result Z := Err "Hysteria test not yet implemented".
Definition V2RayTunnel_Test : result Z := Err "V2Ray test not yet implemented".
Definition WireGuardTunnel_Test : result Z := Err "WireGuard test not yet implemented".
Definition TrojanTunnel_Test : result Z := Err "Trojan test not yet implemented".

(** The calls through the interface: [tunnel.Start(ctx)], [tunnel.Stop()]
    and [tunnel.Test()].  [pingTest] is what [SSHTunnel.pingTest]
    measures for a server: it runs the system's [ping] and falls back on
    a TCP connection. *)
Definition Start (dial : string → option string) (listen : Z → option string)
    (t : Protocols.Tunnel) : option string :=
  match t with
  | Protocols.SSHTunnel server => SSHTunnel_Start dial listen server
  | Protocols.HysteriaTunnel _ => HysteriaTunnel_Start
  | Protocols.V2RayTunnel _ => V2RayTunnel_Start
  | Protocols.WireGuardTunnel _ => WireGuardTunnel_Start
  | Protocols.TrojanTunnel _ => TrojanTunnel_Start
  end.

Definition Stop (t : Protocols.Tunnel) : option string :=
  match t with
  | Protocols.SSHTunnel _ => SSHTunnel_Stop
  | Protocols.HysteriaTunnel _ => HysteriaTunnel_Stop
  | Protocols.V2RayTunnel _ => V2RayTunnel_Stop
  | Protocols.WireGuardTunnel _ => WireGuardTunnel_Stop
  | Protocols.TrojanTunnel _ => TrojanTunnel_Stop
  end.

Definition Test (pingTest : Config.Server → result Z) (t : Protocols.Tunnel) : result Z :=
  match t with
  | Protocols.SSHTunnel server => pingTest server
  | Protocols.HysteriaTunnel _ => HysteriaTunnel_Test
  | Protocols.V2RayTunnel _ => V2RayTunnel_Test
  | Protocols.WireGuardTunnel _ => WireGuardTunnel_Test
  | Protocols.TrojanTunnel _ => TrojanTunnel_Test
  end.

End Adapters.

(** ** Package protocols: the manager's remaining methods *)

Module Manager.

(** [GetStatus]: a copy of every status record, read under the shared
    lock. *)
Definition GetStatus (tm : Protocols.TunnelManager)
    : outcome (gmap string Protocols.TunnelStatus) :=
  if Protocols.mu tm then Blocks else Returns (Protocols.status tm).

(** [GetTunnels]: the servers of the configuration. *)
Definition GetTunnels (tm : Protocols.TunnelManager) : outcome (list Config.Server) :=
  if Protocols.mu tm then Blocks
  else Returns (Config.Servers (Protocols.config tm)).

(** [UpdateConfig]: replaces the configuration and nothing else. *)
Definition UpdateConfig (cfg : Config.Config) (tm : Protocols.TunnelManager)
    : outcome (Protocols.TunnelManager * option string) :=
  if Protocols.mu tm then Blocks
  else Returns (Protocols.set_config cfg tm, None).

(** *** Vocabulary of the statements below *)

(** The servers from which [Start]'s loop makes a tunnel. *)
Definition registrable (server : Config.Server) : Prop :=
  Config.Enabled server = true ∧ Protocols.supported (Config.Transport server).

(** The calls of the manager's interface, each with the clock reading
    and the orders of visit it meets, and [Start] with the context it
    is given. *)
Inductive call : Type :=
  | CallStart (parent : option bool) (order : list string) (now : Z)
  | CallStop (order : list string)
  | CallStartTunnel (now : Z) (serverName : string)
  | CallStopAllTunnels (order : list string)
  | CallRestartTunnels (stopOrder startOrder : list string) (now : Z)
  | CallUpdateConfig (cfg : Config.Config).

Section Calls.

Variable adapterStop : Protocols.Tunnel → option string.
Variable adapterTest : Protocols.Tunnel → result Z.

Definition run (c : call) (tm : Protocols.TunnelManager)
    : outcome (Protocols.TunnelManager * option string) :=
  match c with
  | CallStart parent order now => Protocols.Start adapterTest parent order now tm
  | CallStop order => Protocols.Stop adapterStop order tm
  | CallStartTunnel now serverName => Protocols.StartTunnel now serverName tm
  | CallStopAllTunnels order => Protocols.StopAllTunnels adapterStop order tm
  | CallRestartTunnels stopOrder startOrder now =>
      Protocols.RestartTunnels adapterStop adapterTest stopOrder startOrder now tm
  | CallUpdateConfig cfg => UpdateConfig cfg tm
  end.

(** The managers a program gets: a new one, and what the calls that
    return make of it.  A call that panics, when the panic is recovered,
    leaves a manager of the same kind: [Start] panics before it writes
    anything, and [RestartTunnels] after its [StopAllTunnels] has
    returned; in both the deferred [Unlock] has released the lock. *)
Inductive reachable : Protocols.TunnelManager → Prop :=
  | reach_New cfg : reachable (Protocols.NewTunnelManager cfg)
  | reach_call c tm tm' err :
      reachable tm → run c tm = Returns (tm', err) → reachable tm'.

End Calls.

End Manager.

(** ** Package mesh: connecting to a node, and the status of the overlay *)

Module MeshOps.

(** [connectViaWireGuard], [connectViaSSH] and [connectViaV2Ray] log the
    connection and return nil; [Ok p] stands for the nil error returned
    after the line of protocol [p] has been logged. *)
Definition connectViaWireGuard (node : Mesh.MeshNode) : result string := Ok "WireGuard".
Definition connectViaSSH (node : Mesh.MeshNode) : result string := Ok "SSH".
Definition connectViaV2Ray (node : Mesh.MeshNode) : result string := Ok "V2Ray".

(** [connectViaBestProtocol] *)
Definition connectViaBestProtocol (node : Mesh.MeshNode) : result string :=
  if Mesh.containsString (Mesh.Protocols node) "wireguard" then connectViaWireGuard node
  else if Mesh.containsString (Mesh.Protocols node) "ssh" then connectViaSSH node
  else if Mesh.containsString (Mesh.Protocols node) "v2ray" then connectViaV2Ray node
  else Err "no suitable protocol found".

(** [ConnectToNode] *)
Definition ConnectToNode (nodeID protocol : string) (mn : Mesh.MeshNetwork)
    : result string :=
  match Mesh.nodes mn !! nodeID with
  | None => Err ("node " +:+ nodeID +:+ " not found")
  | Some node =>
      if bool_decide (Mesh.Status node ≠ "online")
      then Err ("node " +:+ Mesh.Name node +:+ " is not online")
      else if bool_decide (protocol = "wireguard") then connectViaWireGuard node
      else if bool_decide (protocol = "ssh") then connectViaSSH node
      else if bool_decide (protocol = "v2ray") then connectViaV2Ray node
      else connectViaBestProtocol node
  end.

(** The entries of the map [GetNetworkStatus] returns, the two pointers
    [local_node] and [coordinator_node] apart. *)
Record NetworkStatus : Type := mkNetworkStatus {
  total_nodes : Z;
  online_nodes : Z;
  offline_nodes : Z;
  network_cidr : string;
  load_balancing : string;
  auto_discovery : bool
}.

(** One round of [GetNetworkStatus]'s loop; [acc] is
    [(onlineNodes, offlineNodes)]. *)
Definition countStep (mn : Mesh.MeshNetwork) (acc : Z * Z) (key : string) : Z * Z :=
  match Mesh.nodes mn !! key with
  | None => acc
  | Some node =>
      if bool_decide (Mesh.Status node = "online") then (acc.1 + 1, acc.2)
      else (acc.1, acc.2 + 1)
  end.

(** [GetNetworkStatus], visiting [mn.nodes] in [order]. *)
Definition GetNetworkStatus (order : list string) (mn : Mesh.MeshNetwork) : NetworkStatus :=
  let totalNodes := Z.of_nat (size (Mesh.nodes mn)) in
  let counts := foldl (countStep mn) (0, 0) order in
  mkNetworkStatus totalNodes counts.1 counts.2
    (Mesh.NetworkCIDR (Mesh.config mn))
    (Mesh.LoadBalancing (Mesh.config mn))
    (Mesh.AutoDiscovery (Mesh.config mn)).

(** The overlays the program can be in: the one [NewMeshNetwork] makes,
    and what [Initialize], [AddServer] and the health checker make of
    it.  The health checker probes with [mn.pingNode], which measures
    some time [elapsed] and never fails. *)
Inductive reachable (ParseCIDR : string → result Net.IPNet) (cfg : Mesh.MeshConfig)
    : Mesh.MeshNetwork → Prop :=
  | reach_New : reachable ParseCIDR cfg (Mesh.NewMeshNetwork cfg)
  | reach_Initialize fuel nanos now mn mn' err :
      reachable ParseCIDR cfg mn →
      Mesh.Initialize ParseCIDR fuel nanos now mn = Some (mn', err) →
      reachable ParseCIDR cfg mn'
  | reach_AddServer fuel nanos now serverConfig mn mn' r :
      reachable ParseCIDR cfg mn →
      Mesh.AddServer ParseCIDR fuel nanos now serverConfig mn = Some (mn', r) →
      reachable ParseCIDR cfg mn'
  | reach_HealthCheck elapsed clock order mn :
      reachable ParseCIDR cfg mn →
      range_order (Mesh.nodes mn) order →
      reachable ParseCIDR cfg
        (Mesh.performHealthCheck (λ node, Mesh.pingNode (elapsed node) node) clock order mn).

(** Every node is stored under its own id. *)
Definition keyedByID (mn : Mesh.MeshNetwork) : Prop :=
  ∀ key node, Mesh.nodes mn !! key = Some node → Mesh.ID node = key.

(** What holds of every overlay the program can be in: it has the
    configuration it was made with, every node is stored under its id,
    no two nodes share a virtual address, every node is online, and the
    local node, when there is one, is in the registry. *)
Definition invariant (cfg : Mesh.MeshConfig) (mn : Mesh.MeshNetwork) : Prop :=
  Mesh.config mn = cfg
  ∧ keyedByID mn
  ∧ Mesh.uniqueAddresses mn
  ∧ (∀ key node, Mesh.nodes mn !! key = Some node → Mesh.Status node = "online")
  ∧ (∀ key, Mesh.localNode mn = Some key → is_Some (Mesh.nodes mn !! key)).

End MeshOps.

(** ** Package config: the whole configuration, its defaults and its
    validation *)

Module ConfigFull.

(** [time.Second] in nanoseconds. *)
Definition Second : Z := 1000000000.

(** The structures of the configuration file, each with the fields that
    the functions of this development read or write. *)
Record SecurityConfig : Type := mkSecurityConfig {
  EnableAuth : bool;
  AuthTokens : list string;
  EncryptConfig : bool;
  MasterPassword : string
}.

Record HysteriaConfig : Type := mkHysteriaConfig { AuthString : string }.

Record V2RayConfig : Type := mkV2RayConfig { UUID : string }.

Record WireGuardConfig : Type := mkWireGuardConfig {
  PrivateKey : string;
  PublicKey : string
}.

Module Monitoring.
Record MonitoringConfig : Type := mkMonitoringConfig {
  Enabled : bool;
  CheckInterval : Z;
  LogLevel : string;
  LogFile : string
}.
End Monitoring.

Module API.
Record APIConfig : Type := mkAPIConfig {
  Enabled : bool;
  Host : string;
  Port : Z;
  EnableCORS : bool;
  RateLimit : Z
}.
End API.

(** [Server], with its protocol-specific blocks; a nil block is [None]. *)
Record Server : Type := mkServer {
  Name : string;
  Host : string;
  Port : string;
  User : string;
  Password : string;
  KeyPath : string;
  Transport : Config.TransportType;
  Proxy : string;
  LocalPort : Z;
  Priority : Z;
  MaxRetries : Z;
  Timeout : Z;
  Enabled : bool;
  Hysteria : option HysteriaConfig;
  V2Ray : option V2RayConfig;
  WireGuard : option WireGuardConfig;
  Region : string;
  Tags : list string
}.

(** [Config]; the routing rules are left out. *)
Record Config : Type := mkConfig {
  Version : string;
  Servers : list Server;
  Security : SecurityConfig;
  Monitoring : Monitoring.MonitoringConfig;
  API : API.APIConfig;
  AutoSelect : bool;
  SelectionMethod : string;
  LatencyTimeout : Z;
  EnableFailover : bool;
  FailoverTimeout : Z
}.

(** The part of a server and of a configuration that the tunnel manager
    reads. *)
Definition toServer (s : Server) : Config.Server :=
  Config.mkServer (Name s) (Host s) (Port s) (User s) (Password s) (KeyPath s)
    (Transport s) (Proxy s) (LocalPort s) (Priority s) (MaxRetries s) (Timeout s)
    (Enabled s) (Region s) (Tags s).

Definition toConfig (c : Config) : Config.Config :=
  Config.mkConfig (Version c) (toServer <$> Servers c) (AutoSelect c)
    (SelectionMethod c) (LatencyTimeout c) (EnableFailover c) (FailoverTimeout c).

(** One round of the loop of [setDefaults] over [config.Servers]. *)
Definition defaultServer (i : nat) (server : Server) : Server :=
  mkServer
    (if bool_decide (Name server = "")
     then "server-" +:+ pretty (Z.of_nat i + 1) else Name server)
    (Host server) (Port server) (User server) (Password server) (KeyPath server)
    (if bool_decide (Transport server = "") then Config.TransportSSH else Transport server)
    (if bool_decide (Proxy server = "") then "socks5" else Proxy server)
    (if bool_decide (LocalPort server = 0) then 8080 + Z.of_nat i else LocalPort server)
    (Priority server)
    (if bool_decide (MaxRetries server = 0) then 3 else MaxRetries server)
    (if bool_decide (Timeout server = 0) then 10 * Second else Timeout server)
    (Enabled server) (Hysteria server) (V2Ray server) (WireGuard server)
    (Region server) (Tags server).

(** [setDefaults] *)
Definition setDefaults (config : Config) : Config :=
  let monitoring := Monitoring config in
  let api := API config in
  mkConfig
    (if bool_decide (Version config = "") then "1.0" else Version config)
    (imap defaultServer (Servers config))
    (Security config)
    (Monitoring.mkMonitoringConfig
       (Monitoring.Enabled monitoring)
       (if Monitoring.Enabled monitoring && bool_decide (Monitoring.CheckInterval monitoring = 0)
        then 30 * Second else Monitoring.CheckInterval monitoring)
       (if bool_decide (Monitoring.LogLevel monitoring = "")
        then "info" else Monitoring.LogLevel monitoring)
       (Monitoring.LogFile monitoring))
    (API.mkAPIConfig
       (API.Enabled api)
       (if bool_decide (API.Host api = "") then "localhost" else API.Host api)
       (if bool_decide (API.Port api = 0) then 8888 else API.Port api)
       (API.EnableCORS api) (API.RateLimit api))
    (AutoSelect config)
    (if bool_decide (SelectionMethod config = "") then "latency" else SelectionMethod config)
    (if bool_decide (LatencyTimeout config = 0) then 5 * Second else LatencyTimeout config)
    (EnableFailover config)
    (if bool_decide (FailoverTimeout config = 0) then 30 * Second
     else FailoverTimeout config).

(** ["server %d: ..."] *)
Definition serverError (i : nat) (msg : string) : option string :=
  Some ("server " +:+ pretty (Z.of_nat i) +:+ ": " +:+ msg).

(** One round of the loop of [validateConfig]: the error it returns for
    the server at index [i], or [None] when it goes on to the next. *)
Definition validateServer (i : nat) (server : Server) : option string :=
  if bool_decide (Host server = "") then serverError i "host is required"
  else if bool_decide (Port server = "") then serverError i "port is required"
  else
    let t := Transport server in
    if bool_decide (t = Config.TransportSSH) then
      if bool_decide (User server = "")
      then serverError i "user is required for SSH transport"
      else if bool_decide (Password server = "") && bool_decide (KeyPath server = "")
      then serverError i "either password or key_path is required for SSH"
      else None
    else if bool_decide (t = Config.TransportHysteria) then
      match Hysteria server with
      | None => serverError i "hysteria configuration is required"
      | Some h =>
          if bool_decide (AuthString h = "")
          then serverError i "hysteria auth_string is required" else None
      end
    else if bool_decide (t = Config.TransportV2Ray ∨ t = Config.TransportVMess
                         ∨ t = Config.TransportVLESS) then
      match V2Ray server with
      | None => serverError i "v2ray configuration is required"
      | Some v =>
          if bool_decide (UUID v = "")
          then serverError i "v2ray UUID is required" else None
      end
    else if bool_decide (t = Config.TransportWireGuard) then
      match WireGuard server with
      | None => serverError i "wireguard configuration is required"
      | Some w =>
          if bool_decide (PrivateKey w = "") || bool_decide (PublicKey w = "")
          then serverError i "wireguard private_key and public_key are required"
          else None
      end
    else None.

(** The loop of [validateConfig] from index [i] on: it returns at the
    first server that has an error. *)
Fixpoint validateServers (i : nat) (servers : list Server) : option string :=
  match servers with
  | [] => None
  | server :: rest =>
      match validateServer i server with
      | Some err => Some err
      | None => validateServers (S i) rest
      end
  end.

(** [validateConfig] *)
Definition validateConfig (config : Config) : option string :=
  if bool_decide (length (Servers config) = 0%nat) then Some "no servers configured"
  else validateServers 0 (Servers config).

Section Files.

(** The primitives of Go's [crypto] packages, as in [Config.encrypt],
    and [yaml.Marshal] and [yaml.Unmarshal]. *)
Variable Sum256 : list byte → list byte.
Variable gcmSeal : list byte → list byte → list byte → list byte.
Variable gcmOpen : list byte → list byte → list byte → option (list byte).
Variable Marshal : Config → result (list byte).
Variable Unmarshal : list byte → result Config.

(** [LoadConfig].  [file] is what the file system holds at [configPath]:
    nothing, a file that cannot be read, or the bytes of the file;
    [CONFIG_PASSWORD] is the variable of the environment (empty when
    unset). *)
Definition LoadConfig (configPath : string) (file : option (result (list byte)))
    (CONFIG_PASSWORD : string) : result Config :=
  match file with
  | None => Err ("configuration file not found: " +:+ configPath)
  | Some (Err e) => Err ("failed to read config file: " +:+ e)
  | Some (Ok data) =>
      let decrypted :=
        if Config.isEncrypted data then
          let password := CONFIG_PASSWORD in
          if bool_decide (password = "")
          then Err "encrypted config detected but CONFIG_PASSWORD not set"
          else
            match Config.decrypt Sum256 gcmOpen data password with
            | Err e => Err ("failed to decrypt config: " +:+ e)
            | Ok data => Ok data
            end
        else Ok data in
      match decrypted with
      | Err e => Err e
      | Ok data =>
          match Unmarshal data with
          | Err e => Err ("failed to parse config: " +:+ e)
          | Ok config =>
              let config := setDefaults config in
              match validateConfig config with
              | Some e => Err ("configuration validation failed: " +:+ e)
              | None => Ok config
              end
          end
      end
  end.

(** [SaveConfig]: [Ok data] stands for the nil error returned after
    [data] has been written to the file.  [random] is what the random
    source delivers for the nonce, [mkdir] and [write] what
    [os.MkdirAll] and [os.WriteFile] answer. *)
Definition SaveConfig (config : Config) (CONFIG_PASSWORD : string)
    (random : result (list byte)) (mkdir write : option string) : result (list byte) :=
  match Marshal config with
  | Err e => Err ("failed to marshal config: " +:+ e)
  | Ok data =>
      let encrypted :=
        if EncryptConfig (Security config) then
          let password := MasterPassword (Security config) in
          let password := if bool_decide (password = "") then CONFIG_PASSWORD else password in
          if bool_decide (password = "")
          then Err "encryption requested but no password provided"
          else
            match Config.encrypt Sum256 gcmSeal data password random with
            | Err e => Err ("failed to encrypt config: " +:+ e)
            | Ok data => Ok data
            end
        else Ok data in
      match encrypted with
      | Err e => Err e
      | Ok data =>
          match mkdir with
          | Some e => Err ("failed to create config directory: " +:+ e)
          | None =>
              match write with
              | Some e => Err e
              | None => Ok data
              end
          end
      end
  end.

End Files.

(** *** Vocabulary of the statements below *)

(** What [setDefaults] leaves nowhere empty. *)
Definition complete (server : Server) : Prop :=
  Name server ≠ "" ∧ Transport server ≠ "" ∧ Proxy server ≠ ""
  ∧ LocalPort server ≠ 0 ∧ MaxRetries server ≠ 0 ∧ Timeout server ≠ 0.

End ConfigFull.

(** ** Package monitoring: the log and the tunnel metrics *)

Module Monitoring.

(** [SystemMetrics], [ApplicationMetrics] and [TunnelMetrics]; the
    network counters of [SystemMetrics] are left out. *)
Record SystemMetrics : Type := mkSystemMetrics {
  CPUUsage : float;
  MemUsage : float;
  MemTotal : Z;
  MemUsed : Z;
  Goroutines : Z
}.

Record ApplicationMetrics : Type := mkApplicationMetrics {
  AppUptime : Z;
  ActiveTunnels : Z;
  TotalConnections : Z;
  FailedConnections : Z;
  BytesTransferred : Z
}.

Record TunnelMetrics : Type := mkTunnelMetrics {
  Name : string;
  Status : string;
  Latency : Z;
  BytesSent : Z;
  BytesRecv : Z;
  Uptime : Z;
  Reconnects : Z
}.

(** [Metrics] *)
Record Metrics : Type := mkMetrics {
  System : SystemMetrics;
  Application : ApplicationMetrics;
  Tunnels : list TunnelMetrics;
  MetricsTimestamp : Z
}.

(** [LogEntry]; the details are kept as the list of their entries. *)
Record LogEntry : Type := mkLogEntry {
  Timestamp : Z;
  Level : string;
  Component : string;
  Message : string;
  Details : option (list (string * string))
}.

(** [Monitor]: [metrics] is [None] while [m.metrics] is nil, [cancel]
    while [m.cancel] is nil. *)
Record Monitor : Type := mkMonitor {
  config : ConfigFull.Monitoring.MonitoringConfig;
  metrics : option Metrics;
  logs : list LogEntry;
  startTime : Z;
  cancel : option bool
}.

Definition set_metrics (v : option Metrics) (m : Monitor) : Monitor :=
  mkMonitor (config m) v (logs m) (startTime m) (cancel m).
Definition set_logs (v : list LogEntry) (m : Monitor) : Monitor :=
  mkMonitor (config m) (metrics m) v (startTime m) (cancel m).

(** [NewMonitor], at the clock reading [now]. *)
Definition NewMonitor (cfg : ConfigFull.Monitoring.MonitoringConfig) (now : Z) : Monitor :=
  mkMonitor cfg None [] now None.

(** [LogEvent], at the clock reading [now] (the line it prints is not
    represented). *)
Definition LogEvent (now : Z) (level component message : string)
    (details : option (list (string * string))) (m : Monitor) : Monitor :=
  let entry := mkLogEntry now level component message details in
  let logs := logs m ++ [entry] in
  let logs :=
    if bool_decide (1000 < length logs)%nat
    then drop (length logs - 1000) logs else logs in
  set_logs logs m.

(** [GetLogs]: a copy of the entries. *)
Definition GetLogs (m : Monitor) : list LogEntry := logs m.

(** [GetMetrics], at the clock reading [now]. *)
Definition GetMetrics (now : Z) (m : Monitor) : Metrics :=
  match metrics m with
  | None =>
      mkMetrics (mkSystemMetrics 0%float 0%float 0 0 0) (mkApplicationMetrics 0 0 0 0 0)
                [] now
  | Some metrics => metrics
  end.

(** [collectApplicationMetrics], at the clock reading [now]. *)
Definition collectApplicationMetrics (now : Z) (m : Monitor) : ApplicationMetrics :=
  mkApplicationMetrics (now - startTime m) 0 0 0 0.

(** [updateMetrics]: [system] is what [collectSystemMetrics] has read
    from the operating system, [now] and [later] are the clock readings
    of the timestamp and of the uptime. *)
Definition updateMetrics (now later : Z) (system : SystemMetrics) (m : Monitor) : Monitor :=
  let metrics := mkMetrics system (collectApplicationMetrics later m) [] now in
  set_metrics (Some metrics) m.

(** The assignments that end [UpdateTunnelMetrics]. *)
Definition record (status : string) (latency bytesSent bytesRecv : Z)
    (t : TunnelMetrics) : TunnelMetrics :=
  mkTunnelMetrics (Name t) status latency bytesSent bytesRecv (Uptime t) (Reconnects t).

(** [UpdateTunnelMetrics] *)
Definition UpdateTunnelMetrics (name status : string) (latency bytesSent bytesRecv : Z)
    (m : Monitor) : Monitor :=
  match metrics m with
  | None => m
  | Some ms =>
      let tunnels :=
        match list_find (λ t, Name t = name) (Tunnels ms) with
        | Some (i, t) => <[i := record status latency bytesSent bytesRecv t]> (Tunnels ms)
        | None =>
            Tunnels ms
            ++ [record status latency bytesSent bytesRecv (mkTunnelMetrics name "" 0 0 0 0 0)]
        end in
      set_metrics (Some (mkMetrics (System ms) (Application ms) tunnels
                                   (MetricsTimestamp ms))) m
  end.

(** *** Vocabulary of the statements below *)

(** [LogEvent] for an entry that carries its own clock reading. *)
Definition logEntry (m : Monitor) (e : LogEntry) : Monitor :=
  LogEvent (Timestamp e) (Level e) (Component e) (Message e) (Details e) m.

End Monitoring.

(** ** Package app: the handlers of the REST API *)

Module App.

(** What [setupServer] has installed in the HTTP server. *)
Record ServerSetup : Type := mkServerSetup {
  cors : bool;
  rateLimit : option Z;
  auth : bool;
  monitoringRoutes : bool
}.

(** [Application].  [a.config] and the [config] of the tunnel manager
    point to one and the same [Config] object: [config] is that object,
    and the manager's field holds the part of it the manager reads, so
    every operation that writes the object updates both.  [server] is
    [None] while [a.server] is nil.  The lock [a.mu] is left out: the
    handlers hold it around single assignments only. *)
Record Application : Type := mkApplication {
  config : ConfigFull.Config;
  tunnelMgr : Protocols.TunnelManager;
  monitor : option Monitoring.Monitor;
  server : option ServerSetup
}.

(** The answers of the handlers: a status code and a JSON body. *)
Inductive Body : Type :=
  | ErrorBody (error : string)
  | MessageBody (message : string)
  | ConfigBody (config : ConfigFull.Config)
  | ServerBody (server : ConfigFull.Server).

Record Response : Type := mkResponse { code : Z; body : Body }.

Definition StatusOK : Z := 200.
Definition StatusCreated : Z := 201.
Definition StatusBadRequest : Z := 400.
Definition StatusUnauthorized : Z := 401.
Definition StatusInternalServerError : Z := 500.

(** [setupServer]: the middleware and the routes that depend on the
    configuration; the routes that do not are always there. *)
Definition setupServer (cfg : ConfigFull.Config) : ServerSetup :=
  mkServerSetup
    (ConfigFull.API.EnableCORS (ConfigFull.API cfg))
    (if 0 <? ConfigFull.API.RateLimit (ConfigFull.API cfg)
     then Some (ConfigFull.API.RateLimit (ConfigFull.API cfg)) else None)
    (ConfigFull.EnableAuth (ConfigFull.Security cfg))
    (ConfigFull.Monitoring.Enabled (ConfigFull.Monitoring cfg)).

(** [New], at the clock reading [now]. *)
Definition New (cfg : ConfigFull.Config) (now : Z) : Application :=
  mkApplication cfg
    (Protocols.NewTunnelManager (ConfigFull.toConfig cfg))
    (if ConfigFull.Monitoring.Enabled (ConfigFull.Monitoring cfg)
     then Some (Monitoring.NewMonitor (ConfigFull.Monitoring cfg) now) else None)
    (if ConfigFull.API.Enabled (ConfigFull.API cfg) then Some (setupServer cfg) else None).

(** [authMiddleware], for a request whose [Authorization] header is
    [header] (empty when the request has none): the answer that ends the
    request, or [None] when the request is passed on to its handler. *)
Definition authMiddleware (a : Application) (header : string) : option Response :=
  let token := header in
  if bool_decide (token = "")
  then Some (mkResponse StatusUnauthorized (ErrorBody "Authorization token required"))
  else
    let token :=
      if bool_decide (7 < String.length token)%nat
         && bool_decide (String.substring 0 7 token = "Bearer ")
      then String.substring 7 (String.length token - 7) token
      else token in
    let valid :=
      existsb (λ validToken, bool_decide (token = validToken))
              (ConfigFull.AuthTokens (ConfigFull.Security (config a))) in
    if negb valid
    then Some (mkResponse StatusUnauthorized (ErrorBody "Invalid authorization token"))
    else None.


Definition set_Servers (v : list ConfigFull.Server) (c : ConfigFull.Config)
    : ConfigFull.Config :=
  ConfigFull.mkConfig (ConfigFull.Version c) v (ConfigFull.Security c)
    (ConfigFull.Monitoring c) (ConfigFull.API c) (ConfigFull.AutoSelect c)
    (ConfigFull.SelectionMethod c) (ConfigFull.LatencyTimeout c)
    (ConfigFull.EnableFailover c) (ConfigFull.FailoverTimeout c).


(** The application whose [Config] object has become [c]. *)
Definition set_config (c : ConfigFull.Config) (a : Application) : Application :=
  mkApplication c (Protocols.set_config (ConfigFull.toConfig c) (tunnelMgr a))
                (monitor a) (server a).


(** [validateConfig] of the application. *)
Definition validateConfig (cfg : ConfigFull.Config) : option string :=
  if bool_decide (length (ConfigFull.Servers cfg) = 0%nat)
  then Some "no servers configured" else None.

(** [handleUpdateConfig]; [bound] is what [c.Bind] makes of the body of
    the request. *)
Definition handleUpdateConfig (bound : result ConfigFull.Config) (a : Application)
    : outcome (Application * Response) :=
  match bound with
  | Err _ =>
      Returns (a, mkResponse StatusBadRequest (ErrorBody "Invalid configuration format"))
  | Ok newConfig =>
      match validateConfig newConfig with
      | Some err =>
          Returns (a, mkResponse StatusBadRequest
                        (ErrorBody ("Configuration validation failed: " +:+ err)))
      | None =>
          match Manager.UpdateConfig (ConfigFull.toConfig newConfig) (tunnelMgr a) with
          | Blocks => Blocks
          | Panics => Panics
          | Returns (tm, Some err) =>
              Returns (mkApplication newConfig tm (monitor a) (server a),
                       mkResponse StatusInternalServerError
                         (ErrorBody ("Failed to update tunnel configuration: " +:+ err)))
          | Returns (tm, None) =>
              Returns (mkApplication newConfig tm (monitor a) (server a),
                       mkResponse StatusOK (MessageBody "Configuration updated successfully"))
          end
      end
  end.

(** [handleAddServer]; [bound] is what [c.Bind] makes of the body of the
    request. *)
Definition handleAddServer (bound : result ConfigFull.Server) (a : Application)
    : Application * Response :=
  match bound with
  | Err _ => (a, mkResponse StatusBadRequest (ErrorBody "Invalid server configuration"))
  | Ok server =>
      (set_config (set_Servers (ConfigFull.Servers (config a) ++ [server]) (config a)) a,
       mkResponse StatusCreated (ServerBody server))
  end.

End App.

(** ** Further scenarios *)

Module Cases.

(** The three servers of the scenarios, with auto-selection. *)
Definition threeAuto : Protocols.TunnelManager :=
  Protocols.NewTunnelManager (Scenario.configOf Scenario.threeServers true).

(** A configuration without SSH server, with auto-selection by latency. *)
Definition noSSH : Config.Config :=
  Scenario.configOf [Scenario.server "h" "hysteria"; Scenario.server "t" "trojan"] true.

(** A network in which every host answers the ping after 5ms, every
    SSH server accepts the connection and every port is free. *)
Definition ping5 (server : Config.Server) : result Z := Ok (5 * Millisecond).
Definition dialOK (addr : string) : option string := None.
Definition listenOK (port : Z) : option string := None.

(** The manager of the three servers once [Start] has returned. *)
Definition tmStarted : Protocols.TunnelManager :=
  Protocols.set_ctx (Some false) Scenario.tmThree.

(** The same manager once the tunnel ["b"] has connected, and once
    [Stop] has cancelled its context. *)
Definition tmRunning : Protocols.TunnelManager :=
  Protocols.set_ctx (Some false) Scenario.tmConnected.

Definition tmCancelled : Protocols.TunnelManager :=
  Protocols.set_ctx (Some true) Scenario.tmConnected.

(** A configuration that keeps the server ["a"] only. *)
Definition onlyA : Config.Config :=
  Scenario.configOf [Scenario.server "a" "ssh"] false.

(** Two enabled servers of one name. *)
Definition twoOfAName : Config.Config :=
  Scenario.configOf [Scenario.server "a" "ssh"; Scenario.server "a" "trojan"] false.

(** *** Overlay *)

(** The scenario's overlay after a health check in which ["eu-1"] did
    not answer (a failure [pingNode] cannot produce). *)
Definition mesh24_eu_down : Mesh.MeshNetwork :=
  Mesh.performHealthCheck Scenario.ping_eu_down (λ _, 900)
    ["node-0"; "node-1"; "node-2"] (Scenario.mesh24_checked "latency").

(** A server reached over trojan. *)
Definition trojanRelay : Config.Server :=
  Config.mkServer "tr-1" "198.51.100.20" "443" "" "secret" "" "trojan" "socks5"
                  8080 0 3 10000000000 true "eu" [].

(** *** Configuration file *)

(** A server as a file may give it: no name, no transport, no port for
    the proxy. *)
Definition fileServer : ConfigFull.Server :=
  ConfigFull.mkServer "" "203.0.113.7" "22" "root" "secret" "" "" "" 0 0 0 0 true
                      None None None "" [].

(** A configuration to be stored encrypted under the master password
    ["alpha"], with one API token. *)
Definition fileConfig : ConfigFull.Config :=
  ConfigFull.mkConfig "" [fileServer]
    (ConfigFull.mkSecurityConfig true ["s3cret"] true "alpha")
    (ConfigFull.Monitoring.mkMonitoringConfig false 0 "" "")
    (ConfigFull.API.mkAPIConfig true "" 0 false 0)
    false "" 0 false 0.

(** Stand-ins for [yaml.Marshal] and [yaml.Unmarshal]: they know one
    text and one configuration, and only show that the law the
    statement about saving and loading assumes can be met. *)
Definition yamlText : list byte := list_byte_of_string "servers: [{host: 203.0.113.7}]".

Definition marshal (c : ConfigFull.Config) : result (list byte) := Ok yamlText.

Definition unmarshal (data : list byte) : result ConfigFull.Config :=
  if bool_decide (data = yamlText) then Ok fileConfig
  else Err "yaml: unmarshal errors".

(** A configuration whose only server asks for a transport without
    adapter, and which configures no token. *)
Definition quicFile : ConfigFull.Config :=
  ConfigFull.mkConfig "1.0"
    [ConfigFull.mkServer "q" "203.0.113.9" "443" "" "" "" "quic" "socks5" 8080 0 3
                         10000000000 true None None None "" []]
    (ConfigFull.mkSecurityConfig true [] false "")
    (ConfigFull.Monitoring.mkMonitoringConfig false 0 "info" "")
    (ConfigFull.API.mkAPIConfig true "localhost" 8888 false 0)
    false "latency" 5000000000 false 30000000000.

(** *** Monitoring *)

(** 1001 log entries, numbered by their timestamps. *)
Definition tick (i : nat) : Monitoring.LogEntry :=
  Monitoring.mkLogEntry (Z.of_nat i) "info" "monitor" "tick" None.

Definition ticks : list Monitoring.LogEntry := tick <$> seq 0 1001.

Definition newMonitor : Monitoring.Monitor :=
  Monitoring.NewMonitor (ConfigFull.Monitoring.mkMonitoringConfig true 30000000000 "info" "") 0.

End Cases.

(** * Properties *)

(** Decides that a concrete list is an order of visit of a concrete map. *)
Ltac solve_range_order :=
  unfold range_order; apply (bool_decide_unpack _); vm_compute; exact I.

(** ** Orders of visit *)

Lemma range_order_elem {V} (m : gmap string V) order name :
  range_order m order → name ∈ order ↔ is_Some (m !! name).
Proof.
  unfold range_order. intros ->. rewrite list_elem_of_fmap. split.
  - intros [[k v] [-> H]]. apply elem_of_map_to_list in H. by exists v.
  - intros [v H]. exists (name, v). split; [done|]. by apply elem_of_map_to_list.
Qed.

Lemma range_order_NoDup {V} (m : gmap string V) order :
  range_order m order → NoDup order.
Proof. unfold range_order. intros ->. apply NoDup_fst_map_to_list. Qed.

(** ** Order of binary64 values *)

(** Case analysis on the signs, exponents and mantissas of the floats of
    a goal about [SFltb] and [SFleb]. *)
Ltac SF_order :=
  unfold SFltb, SFleb, SFcompare;
  repeat match goal with
         | x : spec_float |- _ => destruct x as [[]|[]| |[] ? ?]
         end;
  simpl; try done;
  change (PosDef.Pos.compare_cont Eq) with Pos.compare;
  repeat match goal with
         | |- context [Z.compare ?a ?b] => destruct (Z.compare_spec a b)
         | |- context [Pos.compare ?a ?b] => destruct (Pos.compare_spec a b)
         end;
  simpl; try done; try lia.

Lemma SFltb_trans x y z : SFltb x y = true → SFltb y z = true → SFltb x z = true.
Proof. SF_order. Qed.

Lemma SFltb_irrefl x : SFltb x x = false.
Proof. SF_order. Qed.

Lemma SFleb_not_ltb x y : SFleb x y = true → SFltb y x = false.
Proof. SF_order. Qed.

Lemma float_ltb_trans (x y z : float) :
  (x <? y)%float = true → (y <? z)%float = true → (x <? z)%float = true.
Proof. rewrite !FloatAxioms.ltb_spec. apply SFltb_trans. Qed.

Lemma float_ltb_irrefl (x : float) : (x <? x)%float = false.
Proof. rewrite FloatAxioms.ltb_spec. apply SFltb_irrefl. Qed.

Lemma float_leb_not_ltb (x y : float) :
  (x <=? y)%float = true → (y <? x)%float = false.
Proof. rewrite FloatAxioms.leb_spec, FloatAxioms.ltb_spec. apply SFleb_not_ltb. Qed.

Lemma SFltb_leb_trans x y z : SFltb x y = true → SFleb y z = true → SFltb x z = true.
Proof. SF_order. Qed.

Lemma SFltb_leb x y : SFltb x y = true → SFleb x y = true.
Proof. SF_order. Qed.

Lemma float_ltb_leb_trans (x y z : float) :
  (x <? y)%float = true → (y <=? z)%float = true → (x <? z)%float = true.
Proof. rewrite !FloatAxioms.ltb_spec, FloatAxioms.leb_spec. apply SFltb_leb_trans. Qed.

Lemma float_ltb_leb (x y : float) : (x <? y)%float = true → (x <=? y)%float = true.
Proof. rewrite FloatAxioms.ltb_spec, FloatAxioms.leb_spec. apply SFltb_leb. Qed.

(** ** The tunnel manager *)

Section TunnelManagerFacts.

Import Protocols.

(** *** Starting one tunnel *)

Lemma StartTunnel_blocks_when_locked now name tm :
  mu tm = true → StartTunnel now name tm = Blocks.
Proof. intros H. unfold StartTunnel. by rewrite H. Qed.

Lemma StartTunnel_unknown now name tm :
  mu tm = false → tunnels tm !! name = None →
  StartTunnel now name tm = Returns (tm, Some ("tunnel " +:+ name +:+ " not found")).
Proof. intros Hmu Ht. unfold StartTunnel. by rewrite Hmu, Ht. Qed.

(** C3 (as amended).  [StartTunnel] on a registered tunnel does the same
    whatever the tunnel's status is, ["connected"] included: the status
    becomes ["connecting"], the start time is reset to the time of the
    call, a new goroutine running the adapter's [Start] is launched,
    and nil is returned; the statuses of the other tunnels are left as
    they were. *)
Theorem StartTunnel_restarts_whatever_the_status now name tm tunnel st :
  mu tm = false →
  tunnels tm !! name = Some tunnel →
  status tm !! name = Some st →
  ∃ tm',
    StartTunnel now name tm = Returns (tm', None)
    ∧ status tm' !! name = Some (set_StartTime now (set_Status "connecting" st))
    ∧ (∀ other, other ≠ name → status tm' !! other = status tm !! other)
    ∧ workers tm' = name :: workers tm
    ∧ tunnels tm' = tunnels tm.
Proof.
  intros Hmu Ht Hs. unfold StartTunnel. rewrite Hmu, Ht, Hs.
  eexists. split; [reflexivity|]. simpl.
  split; [apply lookup_insert_eq|].
  split; [|done].
  intros other Hne. by apply lookup_insert_ne.
Qed.

End TunnelManagerFacts.

(** C3, witness: the connected tunnel ["b"] of the scenario. *)
Lemma StartTunnel_restarts_witness :
  ∃ tm',
    Protocols.StartTunnel 250 "b" Scenario.tmConnected = Returns (tm', None)
    ∧ Protocols.status tm' !! "b"
      = Some (Protocols.set_StartTime 250
                (Protocols.set_Status "connecting"
                   (Protocols.mkTunnelStatus "b" "connected" 100 "" 0 0 0)))
    ∧ (∀ other, other ≠ "b" →
         Protocols.status tm' !! other = Protocols.status Scenario.tmConnected !! other)
    ∧ Protocols.workers tm' = "b" :: Protocols.workers Scenario.tmConnected
    ∧ Protocols.tunnels tm' = Protocols.tunnels Scenario.tmConnected.
Proof.
  apply (StartTunnel_restarts_whatever_the_status 250 "b" Scenario.tmConnected
           (Protocols.SSHTunnel (Scenario.server "b" "ssh"))).
  - reflexivity.
  - vm_compute. reflexivity.
  - vm_compute. reflexivity.
Defined.

(** C3, counterexample.  The tunnel ["b"] is connected since time 100;
    [StartTunnel] at time 250 puts it back to ["connecting"], resets its
    start time and launches the adapter's [Start] once more. *)
Lemma StartTunnel_connected_is_not_a_noop :
  (Protocols.Status <$> Protocols.status Scenario.tmConnected !! "b") = Some "connected"
  ∧ ∃ tm',
      Protocols.StartTunnel 250 "b" Scenario.tmConnected = Returns (tm', None)
      ∧ (Protocols.Status <$> Protocols.status tm' !! "b") = Some "connecting"
      ∧ (Protocols.StartTime <$> Protocols.status tm' !! "b") = Some 250
      ∧ Protocols.workers Scenario.tmConnected = []
      ∧ Protocols.workers tm' = ["b"]
      ∧ Protocols.status tm' !! "b" ≠ Protocols.status Scenario.tmConnected !! "b".
Proof.
  split; [by vm_compute|].
  eexists. split; [by vm_compute|].
  repeat split; try by vm_compute.
Qed.

Section StoppingFacts.

Import Protocols.

Variable adapterStop : Tunnel → option string.

(** *** Stopping *)

Lemma set_Status_idem v s : set_Status v (set_Status v s) = set_Status v s.
Proof. by destruct s. Qed.

Lemma Status_set_Status v s : Status (set_Status v s) = v.
Proof. by destruct s. Qed.

(** The errors collected by the loop: one message per failing adapter,
    in the order of the visit; no round is skipped after a failure. *)
Lemma stop_fold_errors tm order acc :
  (foldl (stopStep adapterStop tm) acc order).2
  = acc.2 ++ omap (stopError adapterStop tm) order.
Proof.
  revert acc. induction order as [|a order IH]; intros acc; simpl.
  - by rewrite app_nil_r.
  - rewrite IH. unfold stopStep, stopError.
    destruct (tunnels tm !! a) as [t|]; simpl; [|done].
    destruct (adapterStop t); simpl; [|done].
    by rewrite <- app_assoc.
Qed.

(** The statuses after the loop: every visited name that has a tunnel
    and a status is disconnected, the others are untouched. *)
Lemma stop_fold_status tm order acc name :
  (foldl (stopStep adapterStop tm) acc order).1 !! name
  = if bool_decide (name ∈ order ∧ is_Some (tunnels tm !! name))
    then set_Status "disconnected" <$> acc.1 !! name
    else acc.1 !! name.
Proof.
  revert acc. induction order as [|a order IH]; intros acc; cbn [foldl].
  - rewrite bool_decide_eq_false_2; [done|]. intros [H _]. by apply elem_of_nil in H.
  - rewrite IH. clear IH.
    destruct (tunnels tm !! a) as [t|] eqn:Ht.
    + assert (Hstep : (stopStep adapterStop tm acc a).1 !! name
                      = if decide (a = name)
                        then set_Status "disconnected" <$> acc.1 !! name
                        else acc.1 !! name).
      { unfold stopStep. rewrite Ht. cbn [fst].
        destruct (acc.1 !! a) eqn:Hs; destruct (decide (a = name)) as [->|Hne].
        - by rewrite lookup_insert_eq, Hs.
        - by rewrite lookup_insert_ne.
        - by rewrite Hs.
        - done. }
      rewrite Hstep. destruct (decide (a = name)) as [->|Hne].
      * rewrite (bool_decide_eq_true_2 (name ∈ name :: order ∧ _))
          by (split; [left|by rewrite Ht]).
        case_bool_decide; [|done].
        destruct (acc.1 !! name); simpl; [by rewrite set_Status_idem|done].
      * apply (f_equal (λ b : bool, if b then _ else _)).
        apply bool_decide_ext. rewrite elem_of_cons. naive_solver.
    + assert (stopStep adapterStop tm acc a = acc) as ->
        by (unfold stopStep; by rewrite Ht).
      apply (f_equal (λ b : bool, if b then _ else _)).
      apply bool_decide_ext. rewrite elem_of_cons.
      split; [naive_solver|]. intros [[->|?] Hsome]; [|done].
      rewrite Ht in Hsome. by destruct Hsome.
Qed.

Lemma stop_no_error tm order :
  (∀ name tunnel, tunnels tm !! name = Some tunnel → adapterStop tunnel = None) →
  omap (stopError adapterStop tm) order = [].
Proof.
  intros Hall. induction order as [|a l IH]; [done|]. cbn [omap list_omap].
  unfold stopError at 1. destruct (tunnels tm !! a) as [t|] eqn:Ht; [|exact IH].
  rewrite (Hall a t Ht). exact IH.
Qed.

Lemma stopResult_None errors : stopResult errors = None ↔ errors = [].
Proof. by destruct errors. Qed.

(** C7.  [StopAllTunnels] and [Stop], entered with the lock free, call
    [Stop] on the adapter of every registered tunnel and return; after
    them the status of every registered tunnel is ["disconnected"],
    whatever the adapters answered; the error returned is nil exactly
    when no adapter failed, and otherwise is
    ["errors stopping tunnels: [m1 m2 ...]"], where the messages
    ["failed to stop tunnel <name>: <error>"] of the adapters that
    failed stand in the order of the visit, one for each, separated by
    spaces. *)
Theorem stopping_always_disconnects order tm :
  mu tm = false →
  range_order (tunnels tm) order →
  let message (name : string) : option string :=
    match tunnels tm !! name with
    | Some tunnel =>
        match adapterStop tunnel with
        | Some err => Some ("failed to stop tunnel " +:+ name +:+ ": " +:+ err)
        | None => None
        end
    | None => None
    end in
  let errors := omap message order in
  let returned :=
    match errors with
    | [] => None
    | _ => Some ("errors stopping tunnels: [" +:+ String.concat " " errors +:+ "]")
    end in
  ∃ tm1 tm2,
    StopAllTunnels adapterStop order tm = Returns (tm1, returned)
    ∧ Stop adapterStop order tm = Returns (tm2, returned)
    ∧ (∀ name st, is_Some (tunnels tm !! name) →
         status tm !! name = Some st →
         status tm1 !! name = Some (set_Status "disconnected" st)
         ∧ status tm2 !! name = Some (set_Status "disconnected" st))
    ∧ (∀ name st', is_Some (tunnels tm !! name) →
         status tm1 !! name = Some st' ∨ status tm2 !! name = Some st' →
         Status st' = "disconnected")
    ∧ (returned = None ↔
         ∀ name tunnel, tunnels tm !! name = Some tunnel → adapterStop tunnel = None)
    ∧ (∀ name tunnel err, tunnels tm !! name = Some tunnel →
         adapterStop tunnel = Some err →
         "failed to stop tunnel " +:+ name +:+ ": " +:+ err ∈ errors)
    ∧ tunnels tm1 = tunnels tm ∧ tunnels tm2 = tunnels tm.
Proof.
  intros Hmu Horder message errors returned.
  assert (Herrors : errors = omap (stopError adapterStop tm) order) by reflexivity.
  assert (Hreturned : returned = stopResult errors).
  { unfold returned, stopResult, fmtErrors. by destruct errors. }
  rewrite Hreturned. clearbody errors. subst errors. clear message returned Hreturned.
  set (errors := omap (stopError adapterStop tm) order).
  assert (Hin : ∀ name, is_Some (tunnels tm !! name) → name ∈ order).
  { intros name. by apply range_order_elem. }
  set (tm0 := match ctx tm with Some _ => set_ctx (Some true) tm | None => tm end).
  assert (Ht0 : tunnels tm0 = tunnels tm) by (unfold tm0; by destruct (ctx tm)).
  assert (Hs0 : status tm0 = status tm) by (unfold tm0; by destruct (ctx tm)).
  assert (He0 : stopError adapterStop tm0 = stopError adapterStop tm).
  { unfold stopError. by rewrite Ht0. }
  assert (Hlook : ∀ name st, is_Some (tunnels tm !! name) → status tm !! name = Some st →
            (foldl (stopStep adapterStop tm) (status tm, []) order).1 !! name
              = Some (set_Status "disconnected" st)
            ∧ (foldl (stopStep adapterStop tm0) (status tm0, []) order).1 !! name
              = Some (set_Status "disconnected" st)).
  { intros name st Hsome Hst. rewrite !stop_fold_status. simpl.
    rewrite Ht0, Hs0, Hst. rewrite bool_decide_eq_true_2; [done|]. split; [auto|done]. }
  exists (set_status (foldl (stopStep adapterStop tm) (status tm, []) order).1 tm),
         (set_status (foldl (stopStep adapterStop tm0) (status tm0, []) order).1 tm0).
  split; [|split; [|split; [|split; [|split; [|split; [|split]]]]]].
  - unfold StopAllTunnels. rewrite Hmu. by rewrite stop_fold_errors.
  - unfold Stop. rewrite Hmu. fold tm0. rewrite stop_fold_errors, He0. done.
  - exact Hlook.
  - intros name st' Hsome Hor. simpl in Hor. rewrite !stop_fold_status in Hor.
    simpl in Hor. rewrite Ht0, Hs0 in Hor.
    rewrite bool_decide_eq_true_2 in Hor by (split; [auto|done]).
    assert (set_Status "disconnected" <$> status tm !! name = Some st') as Heq
      by (by destruct Hor).
    destruct (status tm !! name) as [s|]; simpl in Heq; [|done].
    injection Heq as <-. apply Status_set_Status.
  - rewrite stopResult_None. unfold errors. split.
    + intros Hnil name tunnel Ht.
      destruct (adapterStop tunnel) as [err|] eqn:Herr; [|done].
      assert (Hel : "failed to stop tunnel " +:+ name +:+ ": " +:+ err
                    ∈ omap (stopError adapterStop tm) order).
      { apply list_elem_of_omap. exists name. split; [apply Hin; by rewrite Ht|].
        unfold stopError. by rewrite Ht, Herr. }
      rewrite Hnil in Hel. by apply elem_of_nil in Hel.
    + apply stop_no_error.
  - intros name tunnel err Ht Herr. apply list_elem_of_omap. exists name.
    split; [apply Hin; by rewrite Ht|]. unfold stopError. by rewrite Ht, Herr.
  - done.
  - simpl. exact Ht0.
Qed.

End StoppingFacts.

(** C7, witness: the scenario's manager, whose tunnel ["b"] is connected
    and whose adapter for ["b"] fails to stop. *)
Lemma stopping_always_disconnects_witness :
  Protocols.mu Scenario.tmConnected = false
  ∧ range_order (Protocols.tunnels Scenario.tmConnected) ["c"; "b"; "a"]
  ∧ ∃ tm1,
      Protocols.StopAllTunnels Scenario.stopFailsForB ["c"; "b"; "a"] Scenario.tmConnected
      = Returns (tm1, Some "errors stopping tunnels: [failed to stop tunnel b: connection reset]")
      ∧ Protocols.status tm1 !! "b"
        = Some (Protocols.mkTunnelStatus "b" "disconnected" 100 "" 0 0 0)
      ∧ Protocols.status tm1 !! "a" = Some (Protocols.initialStatus "a").
Proof.
  assert (Horder : range_order (Protocols.tunnels Scenario.tmConnected) ["c"; "b"; "a"]).
  { solve_range_order. }
  split; [reflexivity|]. split; [exact Horder|].
  destruct (stopping_always_disconnects Scenario.stopFailsForB ["c"; "b"; "a"]
              Scenario.tmConnected eq_refl Horder)
    as (tm1 & tm2 & Hstop & _ & Hstatus & _).
  exists tm1. split; [exact Hstop|]. split.
  - apply (Hstatus "b" (Protocols.mkTunnelStatus "b" "connected" 100 "" 0 0 0)).
    + vm_compute. eauto.
    + by vm_compute.
  - apply (Hstatus "a" (Protocols.initialStatus "a")).
    + vm_compute. eauto.
    + by vm_compute.
Defined.

Section RegistrationFacts.

Import Protocols.

(** *** Registration of the configured servers by [Start] *)

Lemma createTunnel_supported server :
  supported (Config.Transport server) → ∃ tunnel, createTunnel server = Ok tunnel.
Proof.
  unfold supported, createTunnel. intros H.
  repeat case_bool_decide; eauto. naive_solver.
Qed.

Lemma createTunnel_unsupported server :
  ¬ supported (Config.Transport server) →
  createTunnel server = Err ("unsupported transport type: " +:+ Config.Transport server).
Proof.
  unfold supported, createTunnel. intros H.
  repeat case_bool_decide; try done; exfalso; apply H; naive_solver.
Qed.

(** Registration touches the two maps only. *)
Lemma registerServer_frame tm server :
  config (registerServer tm server) = config tm
  ∧ mu (registerServer tm server) = mu tm
  ∧ ctx (registerServer tm server) = ctx tm
  ∧ workers (registerServer tm server) = workers tm.
Proof.
  unfold registerServer. destruct (Config.Enabled server); simpl; [|done].
  by destruct (createTunnel server).
Qed.

Lemma register_fold_frame servers tm :
  config (foldl registerServer tm servers) = config tm
  ∧ mu (foldl registerServer tm servers) = mu tm
  ∧ ctx (foldl registerServer tm servers) = ctx tm
  ∧ workers (foldl registerServer tm servers) = workers tm.
Proof.
  revert tm. induction servers as [|s l IH]; intros tm; [done|]. cbn [foldl].
  destruct (IH (registerServer tm s)) as (-> & -> & -> & ->).
  apply registerServer_frame.
Qed.

(** A name under which no enabled server with an adapter is configured
    keeps the entries it had. *)
Lemma register_fold_untouched servers tm name :
  (∀ s, s ∈ servers → Config.Name s = name → Config.Enabled s = true →
        ¬ supported (Config.Transport s)) →
  tunnels (foldl registerServer tm servers) !! name = tunnels tm !! name
  ∧ status (foldl registerServer tm servers) !! name = status tm !! name.
Proof.
  revert tm. induction servers as [|s l IH]; intros tm Hall; [done|]. cbn [foldl].
  destruct (IH (registerServer tm s)) as [-> ->].
  { intros s' Hin. apply Hall. by right. }
  unfold registerServer.
  destruct (Config.Enabled s) eqn:Hen; simpl; [|done].
  destruct (decide (Config.Name s = name)) as [Heq|Hne].
  - rewrite createTunnel_unsupported; [done|]. apply Hall; [by left|done..].
  - destruct (createTunnel s); simpl; [|done]. by rewrite !lookup_insert_ne.
Qed.

(** Every enabled server that has an adapter is registered, with the
    status ["disconnected"]. *)
Lemma register_fold_registered servers tm server :
  server ∈ servers → Config.Enabled server = true →
  supported (Config.Transport server) →
  is_Some (tunnels (foldl registerServer tm servers) !! Config.Name server)
  ∧ status (foldl registerServer tm servers) !! Config.Name server
    = Some (initialStatus (Config.Name server)).
Proof.
  intros Hin Hen Hsup. revert tm Hin.
  induction servers as [|s l IH] using rev_ind; intros tm Hin.
  { by apply elem_of_nil in Hin. }
  rewrite foldl_app. cbn [foldl].
  set (tm' := foldl registerServer tm l).
  apply elem_of_app in Hin as [Hin|Hin].
  - specialize (IH tm Hin). fold tm' in IH. destruct IH as [IH1 IH2].
    unfold registerServer. destruct (Config.Enabled s); simpl; [|done].
    destruct (createTunnel s) as [t|]; simpl; [|done].
    destruct (decide (Config.Name s = Config.Name server)) as [->|Hne].
    + by rewrite !lookup_insert_eq.
    + by rewrite !lookup_insert_ne.
  - apply list_elem_of_singleton in Hin as <-.
    unfold registerServer. rewrite Hen. simpl.
    destruct (createTunnel_supported server Hsup) as [t ->]. simpl.
    by rewrite !lookup_insert_eq.
Qed.

(** [StartTunnel] called by the selection policy while [Start] holds
    the lock never returns. *)
Lemma startAutoSelected_locked adapterTest order now tm :
  mu tm = true →
  startAutoSelected adapterTest order now tm = Blocks
  ∨ startAutoSelected adapterTest order now tm
    = Returns (tm, Some "no available servers found").
Proof.
  intros Hmu.
  assert (Hbest : startBestLatency adapterTest order now tm = Blocks
                  ∨ startBestLatency adapterTest order now tm
                    = Returns (tm, Some "no available servers found")).
  { unfold startBestLatency. case_bool_decide; [by right|left].
    unfold StartTunnel. by rewrite Hmu. }
  unfold startAutoSelected, startLeastLoad. repeat case_bool_decide; try done.
  unfold startRandom. destruct order; [by right|left].
  unfold StartTunnel. by rewrite Hmu.
Qed.

(** With auto-selection on, [Start] never returns nil: it returns the
    policy's error when the policy finds no tunnel, and otherwise waits
    for ever on the lock it holds itself. *)
Lemma Start_autoselect_never_succeeds adapterTest cancelled order now tm :
  mu tm = false → Config.AutoSelect (config tm) = true →
  Start adapterTest (Some cancelled) order now tm = Blocks
  ∨ ∃ tm', Start adapterTest (Some cancelled) order now tm
           = Returns (tm', Some "no available servers found").
Proof.
  intros Hmu Hauto. unfold Start, registerAll. rewrite Hmu.
  set (tm1 := foldl registerServer _ _).
  assert (Hc : config tm1 = config tm ∧ mu tm1 = true).
  { unfold tm1. destruct (register_fold_frame
      (Config.Servers (config (set_ctx (Some cancelled) (set_mu true tm))))
      (set_ctx (Some cancelled) (set_mu true tm))) as (-> & -> & _). done. }
  destruct Hc as [Hc Hm]. rewrite Hc, Hauto.
  destruct (startAutoSelected_locked adapterTest order now tm1 Hm) as [->| ->]; eauto.
Qed.

End RegistrationFacts.

Section UnsupportedTransport.

Import Protocols.

Variable adapterTest : Tunnel → result Z.

(** C9 (as amended).  For an enabled server whose transport has no
    adapter, [createTunnel] fails with the unsupported-transport error;
    [Start] does not return that error and registers nothing for the
    server: the entries under its name stay as they were (absent, in a
    new manager) unless another server of that name is registered;
    every enabled server that has an adapter is registered with the
    status ["disconnected"]; and with auto-selection off [Start]
    returns nil.  (With auto-selection on, what [Start] returns is what
    the selection policy returns.)  This holds for every context
    [Start] is called with, cancelled or not, other than the nil
    context. *)
Theorem Start_skips_unsupported_transport cancelled order now tm server :
  mu tm = false →
  server ∈ Config.Servers (config tm) →
  Config.Enabled server = true →
  ¬ supported (Config.Transport server) →
  let tm1 := registerAll (set_ctx (Some cancelled) (set_mu true tm)) in
  createTunnel server
    = Err ("unsupported transport type: " +:+ Config.Transport server)
  ∧ ((∀ s, s ∈ Config.Servers (config tm) → Config.Name s = Config.Name server →
           Config.Enabled s = true → ¬ supported (Config.Transport s)) →
     tunnels tm1 !! Config.Name server = tunnels tm !! Config.Name server
     ∧ status tm1 !! Config.Name server = status tm !! Config.Name server)
  ∧ (∀ s, s ∈ Config.Servers (config tm) → Config.Enabled s = true →
          supported (Config.Transport s) →
          is_Some (tunnels tm1 !! Config.Name s)
          ∧ status tm1 !! Config.Name s = Some (initialStatus (Config.Name s)))
  ∧ (Config.AutoSelect (config tm) = false →
     Start adapterTest (Some cancelled) order now tm = Returns (set_mu false tm1, None))
  ∧ (Config.AutoSelect (config tm) = true →
     Start adapterTest (Some cancelled) order now tm
     = match startAutoSelected adapterTest order now tm1 with
       | Returns (tm2, err) => Returns (set_mu false tm2, err)
       | Blocks => Blocks
       | Panics => Panics
       end).
Proof.
  intros Hmu Hin Hen Hunsup tm1.
  assert (Hcfg : config tm1 = config tm).
  { unfold tm1, registerAll.
    by destruct (register_fold_frame
      (Config.Servers (config (set_ctx (Some cancelled) (set_mu true tm))))
      (set_ctx (Some cancelled) (set_mu true tm))) as (-> & _). }
  split; [by apply createTunnel_unsupported|].
  split; [|split; [|split]].
  - intros Hall. unfold tm1, registerAll.
    by apply (register_fold_untouched _ (set_ctx (Some cancelled) (set_mu true tm))).
  - intros s Hs Hens Hsup. unfold tm1, registerAll.
    by apply (register_fold_registered _ (set_ctx (Some cancelled) (set_mu true tm))).
  - intros Hauto. unfold Start. rewrite Hmu. fold tm1. by rewrite Hcfg, Hauto.
  - intros Hauto. unfold Start. rewrite Hmu. fold tm1. by rewrite Hcfg, Hauto.
Qed.

End UnsupportedTransport.

(** C9, witness: the servers ["a"] (ssh), ["q"] (quic, no adapter) and
    ["b"] (trojan), auto-selection off. *)
Lemma Start_skips_unsupported_witness :
  ∃ tm',
    Protocols.Start Scenario.probe_80_25_45 (Some false) ["b"; "a"] 0
      (Protocols.NewTunnelManager (Scenario.mixed false)) = Returns (tm', None)
    ∧ Protocols.createTunnel (Scenario.server "q" "quic")
      = Err "unsupported transport type: quic"
    ∧ Protocols.tunnels tm' !! "q" = None
    ∧ Protocols.status tm' !! "q" = None
    ∧ Protocols.status tm' !! "a" = Some (Protocols.initialStatus "a")
    ∧ Protocols.status tm' !! "b" = Some (Protocols.initialStatus "b").
Proof.
  destruct (Start_skips_unsupported_transport Scenario.probe_80_25_45 false ["b"; "a"] 0
              (Protocols.NewTunnelManager (Scenario.mixed false))
              (Scenario.server "q" "quic"))
    as (Hcreate & _ & _ & Hstart & _).
  - reflexivity.
  - simpl. set_solver.
  - reflexivity.
  - unfold Protocols.supported. vm_compute. intros H.
    repeat (destruct H as [H|H]; [discriminate H|]). discriminate H.
  - eexists. split; [apply Hstart; reflexivity|].
    split; [exact Hcreate|]. by vm_compute.
Defined.

(** C9, counterexample.  The only configured server asks for a transport
    without adapter and auto-selection is on: [Start] returns an error. *)
Lemma Start_fails_when_nothing_is_left :
  Scenario.server "q" "quic" ∈ Config.Servers (Scenario.quicOnly true)
  ∧ Config.Enabled (Scenario.server "q" "quic") = true
  ∧ Protocols.createTunnel (Scenario.server "q" "quic")
    = Err "unsupported transport type: quic"
  ∧ range_order
      (Protocols.tunnels (Protocols.registerAll
         (Protocols.NewTunnelManager (Scenario.quicOnly true)))) []
  ∧ ∃ tm', Protocols.Start Scenario.probe_80_25_45 (Some false) [] 0
             (Protocols.NewTunnelManager (Scenario.quicOnly true))
           = Returns (tm', Some "no available servers found").
Proof.
  split; [simpl; set_solver|]. split; [done|]. split; [done|].
  split; [by vm_compute|]. eexists. by vm_compute.
Qed.

Section BestLatency.

Import Protocols.

Variable adapterTest : Tunnel → result Z.

(** *** The best-latency policy *)

Lemma bestLatencyStep_measured tm acc name :
  bestLatencyStep adapterTest tm acc name
  = match measured adapterTest tm name with
    | Some latency => if latency <? acc.2 then (name, latency) else acc
    | None => acc
    end.
Proof.
  unfold bestLatencyStep, measured.
  destruct (tunnels tm !! name); [|done]. by destruct (adapterTest _).
Qed.

(** The loop started from [(b0, l0)]: it either keeps its start value,
    every latency measured being at least [l0], or settles on the first
    name of the visit that measures the least latency, which is below
    [l0]. *)
Lemma bestLatency_fold tm order b0 l0 :
  let r := foldl (bestLatencyStep adapterTest tm) (b0, l0) order in
  (r = (b0, l0)
   ∧ ∀ n l, n ∈ order → measured adapterTest tm n = Some l → l0 ≤ l)
  ∨ (∃ pre post,
       order = pre ++ r.1 :: post
       ∧ measured adapterTest tm r.1 = Some r.2
       ∧ r.2 < l0
       ∧ (∀ n l, n ∈ pre → measured adapterTest tm n = Some l → r.2 < l)
       ∧ (∀ n l, n ∈ post → measured adapterTest tm n = Some l → r.2 ≤ l)).
Proof.
  induction order as [|x order IH] using rev_ind; intros r.
  { left. split; [done|]. intros n l H. by apply elem_of_nil in H. }
  unfold r. rewrite foldl_app. cbn [foldl].
  set (r' := foldl (bestLatencyStep adapterTest tm) (b0, l0) order) in *.
  rewrite bestLatencyStep_measured.
  destruct (measured adapterTest tm x) as [lx|] eqn:Hx.
  - destruct (Z.ltb_spec lx r'.2) as [Hlt|Hge].
    + (* x becomes the best server *)
      right. exists order, []. cbn [fst snd].
      split; [done|]. split; [done|].
      destruct IH as [[-> Hall]|(pre & post & Ho & Hm & Hlt0 & Hpre & Hpost)].
      * cbn [snd] in Hlt. split; [done|]. split.
        -- intros n l Hn Hl. specialize (Hall n l Hn Hl). lia.
        -- intros n l Hn. by apply elem_of_nil in Hn.
      * split; [lia|]. split.
        -- intros n l Hn Hl. rewrite Ho in Hn.
           apply elem_of_app in Hn as [Hn|Hn].
           ++ specialize (Hpre n l Hn Hl). lia.
           ++ apply elem_of_cons in Hn as [->|Hn].
              ** rewrite Hm in Hl. injection Hl as <-. lia.
              ** specialize (Hpost n l Hn Hl). lia.
        -- intros n l Hn. by apply elem_of_nil in Hn.
    + (* x is not better *)
      destruct IH as [[Heq Hall]|(pre & post & Ho & Hm & Hlt0 & Hpre & Hpost)].
      * left. split; [done|]. intros n l Hn Hl.
        apply elem_of_app in Hn as [Hn|Hn]; [by eapply Hall|].
        apply list_elem_of_singleton in Hn as ->. rewrite Hx in Hl.
        injection Hl as <-. rewrite Heq in Hge. cbn [snd] in Hge. lia.
      * right. exists pre, (post ++ [x]).
        split; [by rewrite Ho, <- app_assoc|]. split; [done|]. split; [done|].
        split; [done|]. intros n l Hn Hl.
        apply elem_of_app in Hn as [Hn|Hn]; [by eapply Hpost|].
        apply list_elem_of_singleton in Hn as ->. rewrite Hx in Hl.
        injection Hl as <-. lia.
  - destruct IH as [[Heq Hall]|(pre & post & Ho & Hm & Hlt0 & Hpre & Hpost)].
    + left. split; [done|]. intros n l Hn Hl.
      apply elem_of_app in Hn as [Hn|Hn]; [by eapply Hall|].
      apply list_elem_of_singleton in Hn as ->. by rewrite Hx in Hl.
    + right. exists pre, (post ++ [x]).
      split; [by rewrite Ho, <- app_assoc|]. split; [done|]. split; [done|].
      split; [done|]. intros n l Hn Hl.
      apply elem_of_app in Hn as [Hn|Hn]; [by eapply Hpost|].
      apply list_elem_of_singleton in Hn as ->. by rewrite Hx in Hl.
Qed.

Lemma measured_registered tm name l :
  measured adapterTest tm name = Some l → is_Some (tunnels tm !! name).
Proof. unfold measured. by destruct (tunnels tm !! name). Qed.

End BestLatency.

(** The names under which the scenario's three tunnels are registered. *)
Lemma threeServers_names order n :
  range_order (Protocols.tunnels Scenario.tmThree) order →
  n ∈ order ↔ n = "a" ∨ n = "b" ∨ n = "c".
Proof.
  intros H. rewrite (range_order_elem _ _ _ H).
  split.
  - intros Hsome.
    destruct (decide (n = "a")) as [|Ha]; [auto|].
    destruct (decide (n = "b")) as [|Hb]; [auto|].
    destruct (decide (n = "c")) as [|Hc]; [auto|].
    exfalso. unfold Scenario.tmThree, Protocols.registerAll in Hsome. simpl in Hsome.
    rewrite !lookup_insert_ne in Hsome by done. rewrite lookup_empty in Hsome.
    by destruct Hsome.
  - intros [-> | [-> | ->]]; vm_compute; eauto.
Qed.

(** Whatever the order of the visit, the policy settles on the 25ms
    tunnel among tunnels measuring 80ms, 25ms and 45ms. *)
Lemma bestLatency_80_25_45 order :
  range_order (Protocols.tunnels Scenario.tmThree) order →
  Protocols.bestLatency Scenario.probe_80_25_45 order Scenario.tmThree
  = ("b", 25 * Millisecond).
Proof.
  intros Horder.
  pose proof (bestLatency_fold Scenario.probe_80_25_45 Scenario.tmThree order "" Hour) as H.
  fold (Protocols.bestLatency Scenario.probe_80_25_45 order Scenario.tmThree) in H.
  cbv zeta in H.
  set (r := Protocols.bestLatency Scenario.probe_80_25_45 order Scenario.tmThree) in *.
  assert (Hb : "b" ∈ order) by (apply (threeServers_names order "b" Horder); auto).
  assert (Hmb : Protocols.measured Scenario.probe_80_25_45 Scenario.tmThree "b"
                = Some (25 * Millisecond)) by (by vm_compute).
  destruct H as [[_ Hall]|(pre & post & Ho & Hm & _ & Hpre & Hpost)].
  { specialize (Hall "b" _ Hb Hmb). by vm_compute in Hall. }
  assert (Hle : r.2 ≤ 25 * Millisecond).
  { rewrite Ho in Hb. apply elem_of_app in Hb as [Hb|Hb].
    - specialize (Hpre _ _ Hb Hmb). lia.
    - apply elem_of_cons in Hb as [Hb|Hb].
      + rewrite <- Hb, Hmb in Hm. injection Hm as <-. lia.
      + exact (Hpost _ _ Hb Hmb). }
  assert (Hr : r.1 ∈ order) by (rewrite Ho; set_solver).
  apply (threeServers_names order _ Horder) in Hr.
  destruct r as [name lat]. cbn [fst snd] in *.
  destruct Hr as [-> | [-> | ->]]; vm_compute in Hm; injection Hm as <-;
    first [done | by vm_compute in Hle].
Qed.

Section BestLatencyPolicy.

Import Protocols.

Variable adapterTest : Tunnel → result Z.

(** C4 (as amended).  The best-latency policy probes every registered
    tunnel and passes over those whose probe fails.  If no probe
    measures less than one hour it starts nothing and returns an error.
    Otherwise it hands to [StartTunnel] a tunnel whose latency is below
    one hour and the lowest measured; among tunnels of that latency it
    takes the one its loop visits first, in the order in which Go
    ranges over the map of tunnels, which is not the order of the
    configuration.  With probes measuring 80ms, 25ms and 45ms it
    settles on the 25ms tunnel, whatever the order of the visit. *)
Theorem bestLatency_policy order now tm :
  range_order (tunnels tm) order →
  let r := bestLatency adapterTest order tm in
  (∀ name latency, measured adapterTest tm name = Some latency → r.2 ≤ latency)
  ∧ ((r = ("", Hour)
      ∧ (∀ name latency, measured adapterTest tm name = Some latency → Hour ≤ latency)
      ∧ startBestLatency adapterTest order now tm
        = Returns (tm, Some "no available servers found"))
     ∨ (∃ pre post,
          order = pre ++ r.1 :: post
          ∧ is_Some (tunnels tm !! r.1)
          ∧ measured adapterTest tm r.1 = Some r.2
          ∧ r.2 < Hour
          ∧ (∀ n latency, n ∈ pre → measured adapterTest tm n = Some latency →
                          r.2 < latency)))
  ∧ startBestLatency adapterTest order now tm
    = (if bool_decide (r.1 = "") then Returns (tm, Some "no available servers found")
       else StartTunnel now r.1 tm)
  ∧ (∀ order', range_order (tunnels Scenario.tmThree) order' →
       bestLatency Scenario.probe_80_25_45 order' Scenario.tmThree
       = ("b", 25 * Millisecond)).
Proof.
  intros Horder r.
  pose proof (bestLatency_fold adapterTest tm order "" Hour) as H.
  fold (bestLatency adapterTest order tm) in H. cbv zeta in H. fold r in H.
  assert (Hin : ∀ name latency, measured adapterTest tm name = Some latency →
                                name ∈ order).
  { intros name latency Hm. apply (range_order_elem _ _ _ Horder).
    by eapply measured_registered. }
  split; [|split; [|split]].
  - intros name latency Hm. pose proof (Hin _ _ Hm) as Hn.
    destruct H as [[Hr Hall]|(pre & post & Ho & Hmr & _ & Hpre & Hpost)].
    + rewrite Hr. cbn [snd]. by eapply Hall.
    + rewrite Ho in Hn. apply elem_of_app in Hn as [Hn|Hn].
      * specialize (Hpre _ _ Hn Hm). lia.
      * apply elem_of_cons in Hn as [Hn|Hn].
        -- rewrite <- Hn, Hm in Hmr. injection Hmr as <-. lia.
        -- by eapply Hpost.
  - destruct H as [[Hr Hall]|(pre & post & Ho & Hmr & Hlt & Hpre & Hpost)].
    + left. split; [done|]. split; [intros; eapply Hall; eauto|].
      unfold startBestLatency. fold r. rewrite Hr. cbn [fst].
      by rewrite bool_decide_eq_true_2.
    + right. exists pre, post. split; [done|].
      split; [by eapply measured_registered|]. done.
  - reflexivity.
  - exact bestLatency_80_25_45.
Qed.

End BestLatencyPolicy.

(** C4, witness: the three tunnels measuring 80ms, 25ms and 45ms. *)
Lemma bestLatency_policy_witness :
  range_order (Protocols.tunnels Scenario.tmThree) ["c"; "a"; "b"]
  ∧ Protocols.bestLatency Scenario.probe_80_25_45 ["c"; "a"; "b"] Scenario.tmThree
    = ("b", 25 * Millisecond)
  ∧ ∀ name latency,
      Protocols.measured Scenario.probe_80_25_45 Scenario.tmThree name = Some latency →
      25 * Millisecond ≤ latency.
Proof.
  assert (Horder : range_order (Protocols.tunnels Scenario.tmThree) ["c"; "a"; "b"]).
  { solve_range_order. }
  split; [exact Horder|].
  destruct (bestLatency_policy Scenario.probe_80_25_45 ["c"; "a"; "b"] 0
              Scenario.tmThree Horder) as (Hmin & _ & _ & Hscenario).
  split; [exact (Hscenario _ Horder)|].
  intros name latency Hm. specialize (Hmin name latency Hm).
  rewrite (Hscenario _ Horder) in Hmin. exact Hmin.
Defined.

(** C4, counterexample.  The servers ["a"], ["b"], ["c"] are configured in
    this order and all measure 25ms; when the map of tunnels is visited
    in the order ["c"], ["b"], ["a"] the policy settles on ["c"], not on
    the first configured server ["a"]. *)
Lemma bestLatency_tie_not_by_configuration_order :
  (Config.Name <$> Config.Servers (Protocols.config Scenario.tmThree)) = ["a"; "b"; "c"]
  ∧ range_order (Protocols.tunnels Scenario.tmThree) ["c"; "b"; "a"]
  ∧ Protocols.measured Scenario.probe_all_25 Scenario.tmThree "a" = Some (25 * Millisecond)
  ∧ Protocols.measured Scenario.probe_all_25 Scenario.tmThree "c" = Some (25 * Millisecond)
  ∧ Protocols.bestLatency Scenario.probe_all_25 ["c"; "b"; "a"] Scenario.tmThree
    = ("c", 25 * Millisecond).
Proof.
  split; [by vm_compute|].
  split; [solve_range_order|].
  by vm_compute.
Qed.

Section Alignment.

Import Protocols.

(** A new manager has no tunnel and no status, and registration adds the
    two entries of a server together: in every manager that [Start] has
    filled, each tunnel has its status record, so that [StartTunnel] does
    not meet a nil status. *)
Lemma NewTunnelManager_aligned cfg : aligned (NewTunnelManager cfg).
Proof. intros name. cbn. by rewrite !lookup_empty. Qed.

Lemma registerServer_aligned tm server :
  aligned tm → aligned (registerServer tm server).
Proof.
  intros Hal name. unfold registerServer.
  destruct (Config.Enabled server); cbn; [|apply Hal].
  destruct (createTunnel server); cbn; [|apply Hal].
  destruct (decide (Config.Name server = name)) as [->|Hne].
  - rewrite !lookup_insert_eq. split; eauto.
  - rewrite !lookup_insert_ne by done. apply Hal.
Qed.

Lemma registerAll_aligned tm : aligned tm → aligned (registerAll tm).
Proof.
  unfold registerAll. generalize (Config.Servers (config tm)). intros servers.
  revert tm. induction servers as [|s l IH]; intros tm Hal; [done|].
  cbn [foldl]. apply IH. by apply registerServer_aligned.
Qed.

Lemma StartTunnel_aligned now name tm :
  aligned tm → StartTunnel now name tm ≠ Panics.
Proof.
  intros Hal. unfold StartTunnel. destruct (mu tm); [done|].
  destruct (tunnels tm !! name) as [t|] eqn:Ht; [|done].
  destruct (proj1 (Hal name)) as [st ->]; [by rewrite Ht|done].
Qed.

End Alignment.

(** ** The mesh overlay *)

Section BestNode.

Import Mesh.

(** *** Selection of the best node *)

Lemma skipped_false mn key node :
  nodes mn !! key = Some node → skipped mn key node = false ↔ eligible mn key node.
Proof.
  intros Hn. unfold skipped, eligible. rewrite orb_false_iff.
  rewrite !bool_decide_eq_false. split.
  - intros [H1 H2]. split; [done|]. split; [|done].
    by destruct (decide (Status node = "online")).
  - intros (_ & H1 & H2). split; [|done]. intros H. by apply H.
Qed.

(** The loop of [GetBestNode] started with no best node: it ends with
    none when it met no eligible node, and otherwise with an eligible
    node whose score no eligible node it met exceeds. *)
Lemma bestNode_fold mn criteria order :
  let r := foldl (bestNodeStep mn criteria) None order in
  (r = None ∧ ∀ key node, key ∈ order → ¬ eligible mn key node)
  ∨ (∃ key best,
       r = Some (best, calculateNodeScore best criteria)
       ∧ key ∈ order
       ∧ eligible mn key best
       ∧ ∀ k m, k ∈ order → eligible mn k m →
           (calculateNodeScore best criteria <? calculateNodeScore m criteria)%float
           = false).
Proof.
  induction order as [|x order IH] using rev_ind; intros r.
  { left. split; [done|]. intros key node H. by apply elem_of_nil in H. }
  unfold r. rewrite foldl_app. cbn [foldl].
  set (r' := foldl (bestNodeStep mn criteria) None order) in *.
  assert (Hkeep : (∀ m, ¬ eligible mn x m) →
            (r' = None ∧ ∀ key node, key ∈ order ++ [x] → ¬ eligible mn key node)
            ∨ (∃ key best,
                 r' = Some (best, calculateNodeScore best criteria)
                 ∧ key ∈ order ++ [x]
                 ∧ eligible mn key best
                 ∧ ∀ k m, k ∈ order ++ [x] → eligible mn k m →
                     (calculateNodeScore best criteria
                      <? calculateNodeScore m criteria)%float = false)).
  { intros Hx. destruct IH as [[Hr Hall]|(key & best & Hr & Hk & He & Hmax)].
    - left. split; [done|]. intros key node Hin.
      apply elem_of_app in Hin as [Hin|Hin]; [by apply Hall|].
      apply list_elem_of_singleton in Hin as ->. apply Hx.
    - right. exists key, best. split; [done|]. split; [set_solver|]. split; [done|].
      intros k m Hin Hm. apply elem_of_app in Hin as [Hin|Hin]; [by eapply Hmax|].
      apply list_elem_of_singleton in Hin as ->. by destruct (Hx m). }
  unfold bestNodeStep.
  destruct (nodes mn !! x) as [node|] eqn:Hx.
  2:{ apply Hkeep. intros m [Hm _]. by rewrite Hx in Hm. }
  destruct (skipped mn x node) eqn:Hskip.
  { apply Hkeep. intros m Hm. pose proof Hm as [Hm' _]. rewrite Hx in Hm'.
    injection Hm' as <-. apply (skipped_false mn x node Hx) in Hm. by rewrite Hskip in Hm. }
  apply (skipped_false mn x node Hx) in Hskip.
  assert (Hsame : ∀ m, eligible mn x m → m = node).
  { intros m [Hm _]. rewrite Hx in Hm. by injection Hm. }
  right.
  destruct IH as [[-> Hall]|(key & best & -> & Hk & He & Hmax)].
  - exists x, node. split; [done|]. split; [set_solver|]. split; [done|].
    intros k m Hin Hm. apply elem_of_app in Hin as [Hin|Hin]; [by destruct (Hall k m)|].
    apply list_elem_of_singleton in Hin as ->. rewrite (Hsame m Hm).
    apply float_ltb_irrefl.
  - destruct (calculateNodeScore best criteria <? calculateNodeScore node criteria)%float
      eqn:Hlt.
    + exists x, node. split; [done|]. split; [set_solver|]. split; [done|].
      intros k m Hin Hm. apply elem_of_app in Hin as [Hin|Hin].
      * destruct (calculateNodeScore node criteria <? calculateNodeScore m criteria)%float
          eqn:Hlt'; [|done].
        rewrite <- (Hmax k m Hin Hm). symmetry. by eapply float_ltb_trans.
      * apply list_elem_of_singleton in Hin as ->. rewrite (Hsame m Hm).
        apply float_ltb_irrefl.
    + exists key, best. split; [done|]. split; [set_solver|]. split; [done|].
      intros k m Hin Hm. apply elem_of_app in Hin as [Hin|Hin]; [by eapply Hmax|].
      apply list_elem_of_singleton in Hin as ->. by rewrite (Hsame m Hm).
Qed.

(** Where the loop of [GetBestNode] finds the node it ends with: no
    eligible node visited before it reaches its score, and no eligible
    node visited after it exceeds it. *)
Lemma bestNode_fold_first mn criteria order :
  let r := foldl (bestNodeStep mn criteria) None order in
  (r = None ∧ ∀ key node, key ∈ order → ¬ eligible mn key node)
  ∨ (∃ pre key post best,
       r = Some (best, calculateNodeScore best criteria)
       ∧ order = pre ++ key :: post
       ∧ eligible mn key best
       ∧ (∀ k m, k ∈ pre → eligible mn k m →
            (calculateNodeScore best criteria <=? calculateNodeScore m criteria)%float
            = false)
       ∧ (∀ k m, k ∈ post → eligible mn k m →
            (calculateNodeScore best criteria <? calculateNodeScore m criteria)%float
            = false)).
Proof.
  induction order as [|x order IH] using rev_ind; intros r.
  { left. split; [done|]. intros key node H. by apply elem_of_nil in H. }
  unfold r. rewrite foldl_app. cbn [foldl].
  set (r' := foldl (bestNodeStep mn criteria) None order) in *.
  assert (Hkeep : (∀ m, ¬ eligible mn x m) →
            (r' = None ∧ ∀ key node, key ∈ order ++ [x] → ¬ eligible mn key node)
            ∨ (∃ pre key post best,
                 r' = Some (best, calculateNodeScore best criteria)
                 ∧ order ++ [x] = pre ++ key :: post
                 ∧ eligible mn key best
                 ∧ (∀ k m, k ∈ pre → eligible mn k m →
                      (calculateNodeScore best criteria
                       <=? calculateNodeScore m criteria)%float = false)
                 ∧ (∀ k m, k ∈ post → eligible mn k m →
                      (calculateNodeScore best criteria
                       <? calculateNodeScore m criteria)%float = false))).
  { intros Hx. destruct IH as [[Hr Hall]|(pre & key & post & best & Hr & Ho & He & Hpre & Hpost)].
    - left. split; [done|]. intros key node Hin.
      apply elem_of_app in Hin as [Hin|Hin]; [by apply Hall|].
      apply list_elem_of_singleton in Hin as ->. apply Hx.
    - right. exists pre, key, (post ++ [x]), best. split; [done|].
      split; [by rewrite Ho, <- app_assoc|]. split; [done|]. split; [done|].
      intros k m Hin Hm. apply elem_of_app in Hin as [Hin|Hin]; [by eapply Hpost|].
      apply list_elem_of_singleton in Hin as ->. by destruct (Hx m). }
  unfold bestNodeStep.
  destruct (nodes mn !! x) as [node|] eqn:Hx.
  2:{ apply Hkeep. intros m [Hm _]. by rewrite Hx in Hm. }
  destruct (skipped mn x node) eqn:Hskip.
  { apply Hkeep. intros m Hm. pose proof Hm as [Hm' _]. rewrite Hx in Hm'.
    injection Hm' as <-. apply (skipped_false mn x node Hx) in Hm. by rewrite Hskip in Hm. }
  apply (skipped_false mn x node Hx) in Hskip.
  assert (Hsame : ∀ m, eligible mn x m → m = node).
  { intros m [Hm _]. rewrite Hx in Hm. by injection Hm. }
  right.
  destruct IH as [[-> Hall]|(pre & key & post & best & -> & Ho & He & Hpre & Hpost)].
  - exists order, x, [], node. split; [done|]. split; [done|]. split; [done|]. split.
    + intros k m Hin Hm. by destruct (Hall k m).
    + intros k m Hin. by apply elem_of_nil in Hin.
  - destruct (calculateNodeScore best criteria <? calculateNodeScore node criteria)%float
      eqn:Hlt.
    + exists order, x, [], node. split; [done|]. split; [done|]. split; [done|]. split.
      * intros k m Hin Hm.
        destruct (calculateNodeScore node criteria <=? calculateNodeScore m criteria)%float
          eqn:Hle; [|done].
        pose proof (float_ltb_leb_trans _ _ _ Hlt Hle) as Hbm.
        rewrite Ho in Hin. apply elem_of_app in Hin as [Hin|Hin].
        -- rewrite <- (Hpre k m Hin Hm). symmetry. by apply float_ltb_leb.
        -- apply elem_of_cons in Hin as [->|Hin].
           ++ destruct He as [He _], Hm as [Hm _]. rewrite He in Hm. injection Hm as <-.
              by rewrite float_ltb_irrefl in Hbm.
           ++ by rewrite <- (Hpost k m Hin Hm).
      * intros k m Hin. by apply elem_of_nil in Hin.
    + exists pre, key, (post ++ [x]), best. split; [done|].
      split; [by rewrite Ho, <- app_assoc|]. split; [done|]. split; [done|].
      intros k m Hin Hm. apply elem_of_app in Hin as [Hin|Hin]; [by eapply Hpost|].
      apply list_elem_of_singleton in Hin as ->. by rewrite (Hsame m Hm).
Qed.

(** [GetBestNode] over a full visit of the map. *)
Lemma GetBestNode_cases order criteria mn :
  range_order (nodes mn) order →
  (GetBestNode order criteria mn = Err "no available nodes found"
   ∧ ∀ key node, ¬ eligible mn key node)
  ∨ (∃ key best,
       GetBestNode order criteria mn = Ok best
       ∧ eligible mn key best
       ∧ ∀ k m, eligible mn k m →
           (calculateNodeScore best criteria <? calculateNodeScore m criteria)%float
           = false).
Proof.
  intros Horder.
  assert (Hin : ∀ k m, eligible mn k m → k ∈ order).
  { intros k m [Hm _]. apply (range_order_elem _ _ _ Horder). by rewrite Hm. }
  unfold GetBestNode.
  destruct (bestNode_fold mn criteria order) as [[-> Hall]|(key & best & -> & _ & He & Hmax)].
  - left. split; [done|]. intros key node He. by eapply Hall; eauto.
  - right. exists key, best. split; [done|]. split; [done|]. eauto.
Qed.

End BestNode.

Section BestNodeClaims.

Import Mesh.

(** C6 (as amended).  [GetBestNode(criteria)] considers exactly the nodes
    of the registry that are online and are not the local node.  When
    there is none it fails with "no available nodes found".  Otherwise it
    returns one of them whose score no other of them exceeds, the score
    of an online node being
    [0.4 × 1000/(latency in ms + 1) + 0.3 × (1 − loadScore) + 100], plus
    50 when [criteria] is not empty and is the node's region (an empty
    [criteria] gives no node the 50). *)
Theorem GetBestNode_returns_a_best_eligible_node order criteria mn :
  range_order (nodes mn) order →
  ((GetBestNode order criteria mn = Err "no available nodes found"
    ∧ ∀ key node, ¬ eligible mn key node)
   ∨ (∃ key best,
        GetBestNode order criteria mn = Ok best
        ∧ eligible mn key best
        ∧ ∀ k m, eligible mn k m →
            (calculateNodeScore best criteria <? calculateNodeScore m criteria)%float
            = false))
  ∧ (∀ node, Status node = "online" →
       calculateNodeScore node criteria
       = let base :=
           (0 + 1000 / float64_of_int (Milliseconds (Latency node) + 1) * 0.4
            + (1 - LoadScore node) * 0.3 + 100)%float in
         if bool_decide (criteria ≠ "" ∧ Region node = criteria)
         then (base + 50)%float else base).
Proof.
  intros Horder. split; [by apply GetBestNode_cases|].
  intros node Honline. unfold calculateNodeScore.
  rewrite (bool_decide_eq_true_2 _ Honline). cbv zeta.
  by rewrite <- bool_decide_and.
Qed.

(** C5 (as amended).  On one snapshot of the registry and one [criteria],
    two invocations of [GetBestNode], whatever the orders in which they
    visit the map, either both fail or return nodes neither of which has
    a lower score than the other; they return the same node whenever one
    eligible node has a score strictly above that of every other.  Among
    several eligible nodes of the same highest score, the node returned
    is the one visited first: no eligible node visited before it
    reaches its score, and no eligible node visited after it exceeds
    it.  (The scores are compared as the code compares them, as
    binary64 values.) *)
Theorem GetBestNode_deterministic_up_to_ties order1 order2 criteria mn :
  range_order (nodes mn) order1 →
  range_order (nodes mn) order2 →
  (GetBestNode order1 criteria mn = Err "no available nodes found"
   ↔ GetBestNode order2 criteria mn = Err "no available nodes found")
  ∧ (∀ n1 n2,
       GetBestNode order1 criteria mn = Ok n1 →
       GetBestNode order2 criteria mn = Ok n2 →
       (calculateNodeScore n1 criteria <? calculateNodeScore n2 criteria)%float = false
       ∧ (calculateNodeScore n2 criteria <? calculateNodeScore n1 criteria)%float = false)
  ∧ (∀ key best,
       eligible mn key best →
       (∀ k m, eligible mn k m → k ≠ key →
          (calculateNodeScore m criteria <? calculateNodeScore best criteria)%float = true) →
       GetBestNode order1 criteria mn = Ok best
       ∧ GetBestNode order2 criteria mn = Ok best)
  ∧ (∀ order best,
       GetBestNode order criteria mn = Ok best →
       ∃ pre key post,
         order = pre ++ key :: post
         ∧ eligible mn key best
         ∧ (∀ k m, k ∈ pre → eligible mn k m →
              (calculateNodeScore best criteria <=? calculateNodeScore m criteria)%float
              = false)
         ∧ (∀ k m, k ∈ post → eligible mn k m →
              (calculateNodeScore best criteria <? calculateNodeScore m criteria)%float
              = false)).
Proof.
  intros H1 H2.
  pose proof (GetBestNode_cases order1 criteria mn H1) as C1.
  pose proof (GetBestNode_cases order2 criteria mn H2) as C2.
  split; [|split; [|split]]; cycle 3.
  { intros order best. unfold GetBestNode.
    destruct (bestNode_fold_first mn criteria order)
      as [[-> _]|(pre & key & post & b & -> & Ho & He & Hpre & Hpost)]; [done|].
    intros [= <-]. by exists pre, key, post. }
  - destruct C1 as [[E1 N1]|(k1 & b1 & E1 & El1 & M1)];
      destruct C2 as [[E2 N2]|(k2 & b2 & E2 & El2 & M2)]; rewrite E1, E2.
    + done.
    + by destruct (N1 k2 b2).
    + by destruct (N2 k1 b1).
    + split; intros; discriminate.
  - intros n1 n2 R1 R2.
    destruct C1 as [[E1 _]|(k1 & b1 & E1 & El1 & M1)]; rewrite E1 in R1; [discriminate|].
    destruct C2 as [[E2 _]|(k2 & b2 & E2 & El2 & M2)]; rewrite E2 in R2; [discriminate|].
    injection R1 as <-. injection R2 as <-. split; eauto.
  - intros key best Hel Hstrict.
    assert (Hunique : ∀ order,
              (GetBestNode order criteria mn = Err "no available nodes found"
               ∧ ∀ key node, ¬ eligible mn key node)
              ∨ (∃ key best',
                   GetBestNode order criteria mn = Ok best'
                   ∧ eligible mn key best'
                   ∧ ∀ k m, eligible mn k m →
                       (calculateNodeScore best' criteria
                        <? calculateNodeScore m criteria)%float = false) →
              GetBestNode order criteria mn = Ok best).
    { intros order [[_ N]|(k & b & E & El & M)]; [by destruct (N key best)|].
      rewrite E. destruct (decide (k = key)) as [->|Hne].
      - destruct Hel as [L1 _], El as [L2 _]. rewrite L1 in L2. by injection L2 as ->.
      - specialize (Hstrict k b El Hne). specialize (M key best Hel). congruence. }
    split; by apply Hunique.
Qed.

End BestNodeClaims.

(** C6, witness: the overlay of the scenario after a health check, asked
    for the region ["eu"]. *)
Lemma GetBestNode_best_eligible_witness :
  range_order (Mesh.nodes (Scenario.mesh24_checked "latency")) ["node-2"; "node-0"; "node-1"]
  ∧ ∃ key best,
      Mesh.GetBestNode ["node-2"; "node-0"; "node-1"] "eu" (Scenario.mesh24_checked "latency")
      = Ok best
      ∧ Mesh.eligible (Scenario.mesh24_checked "latency") key best
      ∧ ∀ k m, Mesh.eligible (Scenario.mesh24_checked "latency") k m →
          (Mesh.calculateNodeScore best "eu" <? Mesh.calculateNodeScore m "eu")%float = false.
Proof.
  assert (Horder : range_order (Mesh.nodes (Scenario.mesh24_checked "latency"))
                               ["node-2"; "node-0"; "node-1"]) by solve_range_order.
  split; [exact Horder|].
  destruct (GetBestNode_returns_a_best_eligible_node _ "eu" _ Horder) as [[[Herr _]|H] _].
  - vm_compute in Herr. discriminate Herr.
  - exact H.
Defined.

(** C6, counterexample.  Asked with an empty [criteria], [GetBestNode]
    returns the node ["eu-1"] (10ms, region ["eu"]) although the node
    ["plain"] (20ms, no region), whose region equals the criteria, has the
    higher score under the formula with [50 × (region == criteria)]. *)
Lemma GetBestNode_empty_criteria_gives_no_region_bonus :
  range_order (Mesh.nodes (Scenario.mesh24_checked "latency")) ["node-2"; "node-0"; "node-1"]
  ∧ ∃ eu plain,
      Mesh.eligible (Scenario.mesh24_checked "latency") "node-1" eu
      ∧ Mesh.eligible (Scenario.mesh24_checked "latency") "node-2" plain
      ∧ Mesh.Region eu = "eu" ∧ Mesh.Region plain = ""
      ∧ Mesh.GetBestNode ["node-2"; "node-0"; "node-1"] ""
          (Scenario.mesh24_checked "latency") = Ok eu
      ∧ (Mesh.specScore eu "" <? Mesh.specScore plain "")%float = true
      ∧ (Mesh.calculateNodeScore plain "" <? Mesh.calculateNodeScore eu "")%float = true.
Proof.
  split; [solve_range_order|].
  eexists _, _. unfold Mesh.eligible.
  split; [split; [by vm_compute|split; [by vm_compute|by vm_compute]]|].
  split; [split; [by vm_compute|split; [by vm_compute|by vm_compute]]|].
  repeat split; by vm_compute.
Qed.

(** C5, witness: two visits of the scenario's overlay. *)
Lemma GetBestNode_deterministic_witness :
  range_order (Mesh.nodes (Scenario.mesh24_checked "latency")) ["node-2"; "node-0"; "node-1"]
  ∧ range_order (Mesh.nodes (Scenario.mesh24_checked "latency")) ["node-1"; "node-2"; "node-0"]
  ∧ (Mesh.GetBestNode ["node-2"; "node-0"; "node-1"] "" (Scenario.mesh24_checked "latency")
     = Err "no available nodes found"
     ↔ Mesh.GetBestNode ["node-1"; "node-2"; "node-0"] "" (Scenario.mesh24_checked "latency")
       = Err "no available nodes found")
  ∧ ∀ n1 n2,
      Mesh.GetBestNode ["node-2"; "node-0"; "node-1"] "" (Scenario.mesh24_checked "latency")
      = Ok n1 →
      Mesh.GetBestNode ["node-1"; "node-2"; "node-0"] "" (Scenario.mesh24_checked "latency")
      = Ok n2 →
      (Mesh.calculateNodeScore n1 "" <? Mesh.calculateNodeScore n2 "")%float = false
      ∧ (Mesh.calculateNodeScore n2 "" <? Mesh.calculateNodeScore n1 "")%float = false.
Proof.
  assert (H1 : range_order (Mesh.nodes (Scenario.mesh24_checked "latency"))
                           ["node-2"; "node-0"; "node-1"]) by solve_range_order.
  assert (H2 : range_order (Mesh.nodes (Scenario.mesh24_checked "latency"))
                           ["node-1"; "node-2"; "node-0"]) by solve_range_order.
  split; [exact H1|]. split; [exact H2|].
  destruct (GetBestNode_deterministic_up_to_ties _ _ "" _ H1 H2) as (Ha & Hb & _).
  split; [exact Ha|exact Hb].
Defined.

(** C5, counterexample.  The two servers added to the overlay have the
    same score; visiting the map in one order [GetBestNode] returns the
    first of them, visiting it in another order the second. *)
Lemma GetBestNode_tie_depends_on_the_visit :
  range_order (Mesh.nodes (Scenario.mesh24 "latency")) ["node-0"; "node-1"; "node-2"]
  ∧ range_order (Mesh.nodes (Scenario.mesh24 "latency")) ["node-2"; "node-1"; "node-0"]
  ∧ ∃ n1 n2,
      Mesh.GetBestNode ["node-0"; "node-1"; "node-2"] "" (Scenario.mesh24 "latency") = Ok n1
      ∧ Mesh.GetBestNode ["node-2"; "node-1"; "node-0"] "" (Scenario.mesh24 "latency") = Ok n2
      ∧ Mesh.ID n1 = "node-1" ∧ Mesh.ID n2 = "node-2"
      ∧ n1 ≠ n2
      ∧ Mesh.calculateNodeScore n1 "" = Mesh.calculateNodeScore n2 "".
Proof.
  split; [solve_range_order|]. split; [solve_range_order|].
  eexists _, _. split; [by vm_compute|]. split; [by vm_compute|].
  split; [done|]. split; [done|]. split; [|by vm_compute].
  intros H. by apply (f_equal Mesh.ID) in H.
Qed.

Section HealthCheck.

Import Mesh.

Variable probe : MeshNode → result Z.
Variable clock : string → Z.

(** *** The health check *)

Lemma healthStep_frame mn key :
  localNode (healthStep probe clock mn key) = localNode mn
  ∧ config (healthStep probe clock mn key) = config mn.
Proof.
  unfold healthStep. destruct (nodes mn !! key); [|done]. by case_bool_decide.
Qed.

Lemma healthStep_lookup mn key k :
  nodes (healthStep probe clock mn key) !! k
  = if bool_decide (k = key ∧ localNode mn ≠ Some key)
    then (λ node, checkNode (probe node) (clock key) node) <$> nodes mn !! k
    else nodes mn !! k.
Proof.
  unfold healthStep. destruct (nodes mn !! key) as [node|] eqn:Hn.
  - destruct (decide (localNode mn = Some key)) as [Hl|Hl].
    + rewrite (bool_decide_eq_true_2 _ Hl).
      rewrite bool_decide_eq_false_2; [done|]. by intros [_ ?].
    + rewrite (bool_decide_eq_false_2 _ Hl). cbn [nodes].
      destruct (decide (k = key)) as [->|Hne].
      * rewrite lookup_insert_eq, Hn. by rewrite bool_decide_eq_true_2.
      * rewrite lookup_insert_ne by done.
        rewrite bool_decide_eq_false_2; [done|]. by intros [? _].
  - case_bool_decide as H; [|done]. destruct H as [-> _]. by rewrite Hn.
Qed.

(** After a visit without repetition, every visited node other than the
    local one has been checked once, against the state it had before. *)
Lemma health_fold mn order k :
  NoDup order →
  localNode (foldl (healthStep probe clock) mn order) = localNode mn
  ∧ nodes (foldl (healthStep probe clock) mn order) !! k
    = if bool_decide (k ∈ order ∧ localNode mn ≠ Some k)
      then (λ node, checkNode (probe node) (clock k) node) <$> nodes mn !! k
      else nodes mn !! k.
Proof.
  revert mn. induction order as [|a order IH]; intros mn Hnd; cbn [foldl].
  { split; [done|]. rewrite bool_decide_eq_false_2; [done|].
    intros [H _]. by apply elem_of_nil in H. }
  apply NoDup_cons in Hnd as [Ha Hnd].
  destruct (IH (healthStep probe clock mn a) Hnd) as [-> ->]. clear IH.
  destruct (healthStep_frame mn a) as [-> _]. split; [done|].
  rewrite healthStep_lookup.
  destruct (decide (k = a)) as [->|Hne].
  - rewrite (bool_decide_eq_false_2 (a ∈ order ∧ _)) by (by intros [? _]).
    apply (f_equal (λ b : bool, if b then _ else _)).
    apply bool_decide_ext. rewrite elem_of_cons. naive_solver.
  - rewrite (bool_decide_eq_false_2 (k = a ∧ _)) by (by intros [? _]).
    apply (f_equal (λ b : bool, if b then _ else _)).
    apply bool_decide_ext. rewrite elem_of_cons. naive_solver.
Qed.

(** C8.  One run of [performHealthCheck] leaves the local node as it is
    and, for every other node of the registry: when the probe succeeds,
    the status is ["online"] afterwards (an offline node is back online),
    [LastSeen] is the time of the check and [Latency] the latency
    measured; when the probe fails, an online node becomes ["offline"],
    any other status stays, and [LastSeen] and [Latency] keep the values
    they had.  Nothing else of the node changes. *)
Theorem performHealthCheck_updates order mn key node :
  range_order (nodes mn) order →
  nodes mn !! key = Some node →
  let mn' := performHealthCheck probe clock order mn in
  localNode mn' = localNode mn
  ∧ (localNode mn = Some key → nodes mn' !! key = Some node)
  ∧ (localNode mn ≠ Some key →
     ∃ node',
       nodes mn' !! key = Some node'
       ∧ match probe node with
         | Ok latency =>
             Status node' = "online"
             ∧ LastSeen node' = clock key
             ∧ Latency node' = latency
         | Err _ =>
             Status node'
             = (if bool_decide (Status node = "online") then "offline" else Status node)
             ∧ LastSeen node' = LastSeen node
             ∧ Latency node' = Latency node
         end
       ∧ ID node' = ID node ∧ Name node' = Name node ∧ MeshIP node' = MeshIP node
       ∧ PublicIP node' = PublicIP node ∧ LoadScore node' = LoadScore node
       ∧ Region node' = Region node ∧ Tags node' = Tags node
       ∧ Protocols node' = Protocols node).
Proof.
  intros Horder Hnode mn'.
  destruct (health_fold mn order key (range_order_NoDup _ _ Horder)) as [Hl Hk].
  fold (performHealthCheck probe clock order mn) in Hl, Hk. fold mn' in Hl, Hk.
  assert (Hin : key ∈ order).
  { apply (range_order_elem _ _ _ Horder). by rewrite Hnode. }
  split; [done|]. split.
  - intros Hlocal. rewrite Hk, Hnode.
    rewrite bool_decide_eq_false_2; [done|]. by intros [_ ?].
  - intros Hlocal. rewrite Hk, Hnode. rewrite bool_decide_eq_true_2 by done.
    eexists. split; [reflexivity|]. unfold checkNode.
    destruct (probe node) as [latency|err].
    + destruct (decide (Status node = "online")) as [Hon|Hoff].
      * rewrite (bool_decide_eq_false_2 (Status node ≠ "online")) by (by intros ?).
        destruct node; cbn in *. repeat split; done.
      * rewrite (bool_decide_eq_true_2 _ Hoff).
        destruct node; cbn in *. repeat split; done.
    + destruct (bool_decide (Status node = "online"));
        destruct node; cbn; repeat split; done.
Qed.

End HealthCheck.

(** C8, witness: the scenario's overlay, checked once while the node
    ["eu-1"] (under ["node-1"]) does not answer. *)
Lemma performHealthCheck_updates_witness :
  range_order (Mesh.nodes (Scenario.mesh24_checked "latency")) ["node-0"; "node-1"; "node-2"]
  ∧ ∃ before after,
      Mesh.nodes (Scenario.mesh24_checked "latency") !! "node-1" = Some before
      ∧ Mesh.nodes (Mesh.performHealthCheck Scenario.ping_eu_down (λ _, 900)
                      ["node-0"; "node-1"; "node-2"] (Scenario.mesh24_checked "latency"))
        !! "node-1" = Some after
      ∧ Mesh.Status before = "online" ∧ Mesh.Status after = "offline"
      ∧ Mesh.LastSeen after = Mesh.LastSeen before
      ∧ Mesh.Latency after = Mesh.Latency before.
Proof.
  assert (Horder : range_order (Mesh.nodes (Scenario.mesh24_checked "latency"))
                               ["node-0"; "node-1"; "node-2"]) by solve_range_order.
  split; [exact Horder|].
  assert (Hsome : is_Some (Mesh.nodes (Scenario.mesh24_checked "latency") !! "node-1")).
  { vm_compute. eauto. }
  destruct Hsome as [before Hbefore]. exists before.
  destruct (performHealthCheck_updates Scenario.ping_eu_down (λ _, 900)
              ["node-0"; "node-1"; "node-2"] (Scenario.mesh24_checked "latency")
              "node-1" before Horder Hbefore) as (_ & _ & H).
  destruct H as (after & Hafter & Hprobe & _).
  { vm_compute. discriminate. }
  exists after. split; [exact Hbefore|]. split; [exact Hafter|].
  vm_compute in Hbefore. injection Hbefore as <-.
  vm_compute in Hprobe. destruct Hprobe as (Hs & Hl & Hlat).
  split; [reflexivity|]. split; [exact Hs|]. split; [exact Hl|exact Hlat].
Defined.

Section LoadBalancing.

Import Mesh.

(** *** Load balancing *)

Lemma latencyBasedSelect_none l :
  (∀ n, n ∈ l → Hour ≤ Latency n) → latencyBasedSelect l = None.
Proof.
  intros Hall. unfold latencyBasedSelect.
  assert (H : foldl (λ (acc : option MeshNode * Z) node,
                       if Latency node <? acc.2 then (Some node, Latency node) else acc)
                    (None, Hour) l = (None, Hour)); [|by rewrite H].
  induction l as [|n l IH]; [done|]. cbn [foldl snd].
  destruct (Z.ltb_spec (Latency n) Hour) as [Hlt|_].
  - specialize (Hall n ltac:(left)). lia.
  - apply IH. intros m Hm. apply Hall. by right.
Qed.

Lemma leastConnectionsSelect_none l :
  (∀ n, n ∈ l → (1 <=? LoadScore n)%float = true) → leastConnectionsSelect l = None.
Proof.
  intros Hall. unfold leastConnectionsSelect.
  assert (H : foldl (λ (acc : option MeshNode * float) node,
                       if (LoadScore node <? acc.2)%float
                       then (Some node, LoadScore node) else acc)
                    (None, 1%float) l = (None, 1%float)); [|by rewrite H].
  induction l as [|n l IH]; [done|]. cbn [foldl snd].
  rewrite (float_leb_not_ltb _ _ (Hall n ltac:(left))).
  apply IH. intros m Hm. apply Hall. by right.
Qed.

(** C10.  With a non-empty set of healthy nodes [LoadBalance] returns a
    nil node together with a nil error under the latency policy when
    every healthy node's latency is at least one hour, and under the
    least-connections policy when every healthy node's load score is at
    least 1.0. *)
Theorem LoadBalance_returns_neither_node_nor_error order second target mn :
  getHealthyNodes order mn ≠ [] →
  (LoadBalancing (config mn) = "latency"
   ∧ ∀ n, n ∈ getHealthyNodes order mn → Hour ≤ Latency n)
  ∨ (LoadBalancing (config mn) = "least_connections"
     ∧ ∀ n, n ∈ getHealthyNodes order mn → (1 <=? LoadScore n)%float = true) →
  LoadBalance order second target mn = Ok None.
Proof.
  intros Hne Hcase. unfold LoadBalance.
  rewrite bool_decide_eq_false_2.
  2:{ intros Hlen. apply Hne. by apply nil_length_inv. }
  destruct Hcase as [[-> Hall]|[-> Hall]]; cbn.
  - by rewrite latencyBasedSelect_none.
  - by rewrite leastConnectionsSelect_none.
Qed.

End LoadBalancing.

(** C10, witness: the scenario's overlay after a health check in which
    every node took an hour to answer, under the latency policy, and the
    overlay whose nodes carry the load score 1.0, under the
    least-connections policy. *)
Lemma LoadBalance_returns_neither_witness :
  Mesh.getHealthyNodes ["node-0"; "node-1"; "node-2"] (Scenario.mesh24_slow "latency") ≠ []
  ∧ Mesh.LoadBalance ["node-0"; "node-1"; "node-2"] 7 "example.org"
      (Scenario.mesh24_slow "latency") = Ok None
  ∧ Mesh.getHealthyNodes ["node-0"; "node-1"; "node-2"] Scenario.mesh24_loaded ≠ []
  ∧ Mesh.LoadBalance ["node-0"; "node-1"; "node-2"] 7 "example.org"
      Scenario.mesh24_loaded = Ok None.
Proof.
  split; [by vm_compute|]. split.
  - apply LoadBalance_returns_neither_node_nor_error; [by vm_compute|].
    left. split; [reflexivity|]. intros n Hn. vm_compute in Hn.
    apply elem_of_cons in Hn as [->|Hn]; [by vm_compute|].
    apply list_elem_of_singleton in Hn as ->. by vm_compute.
  - split; [by vm_compute|].
    apply LoadBalance_returns_neither_node_nor_error; [by vm_compute|].
    right. split; [reflexivity|]. intros n Hn. vm_compute in Hn.
    apply elem_of_cons in Hn as [->|Hn]; [by vm_compute|].
    apply list_elem_of_singleton in Hn as ->. by vm_compute.
Defined.

(** ** Addresses: [nextIP] counts, and [String] tells addresses apart *)

Section Addresses.

Import Net.

Lemma toZ_snoc ip b : toZ (ip ++ [b]) = toZ ip * 256 + b.
Proof. unfold toZ. by rewrite foldl_app. Qed.

Lemma toZ_range ip : valid ip → 0 ≤ toZ ip < 256 ^ Z.of_nat (length ip).
Proof.
  induction ip as [|b ip IH] using rev_ind; intros Hv; [by cbn|].
  apply Forall_app in Hv as [Hv Hb]. rewrite Forall_singleton in Hb.
  specialize (IH Hv). rewrite toZ_snoc, length_app, Nat2Z.inj_add. cbn [length].
  rewrite Z.pow_add_r by lia. change (256 ^ Z.of_nat 1) with 256. nia.
Qed.

(** The loop of [nextIP] over the last [n] bytes still to visit: the
    bytes before them make up a number that is incremented, wrapping
    around; the bytes after them stay. *)
Lemma nextIP_loop_spec n pre suf :
  length pre = n → valid pre →
  ∃ pre', nextIP_loop n (pre ++ suf) = pre' ++ suf
          ∧ length pre' = n ∧ valid pre'
          ∧ toZ pre' = (toZ pre + 1) mod 256 ^ Z.of_nat n.
Proof.
  revert pre suf. induction n as [|n IH]; intros pre suf Hlen Hv.
  { apply nil_length_inv in Hlen as ->. exists []. by cbn. }
  destruct pre as [|b0 pre0] using rev_ind; [done|]. clear IHpre0.
  rewrite length_app in Hlen. cbn [length] in Hlen.
  assert (Hpre : length pre0 = n) by lia.
  apply Forall_app in Hv as [Hv Hb]. rewrite Forall_singleton in Hb.
  cbn [nextIP_loop]. rewrite <- app_assoc. cbn [app].
  replace ((pre0 ++ b0 :: suf) !!! n) with b0
    by (by rewrite <- Hpre, list_lookup_total_middle).
  replace (<[n:=(b0 + 1) mod 256]> (pre0 ++ b0 :: suf))
    with (pre0 ++ (b0 + 1) mod 256 :: suf)
    by (rewrite <- Hpre; replace (length pre0) with (length pre0 + 0)%nat by lia;
        by rewrite insert_app_r).
  replace ((pre0 ++ (b0 + 1) mod 256 :: suf) !!! n) with ((b0 + 1) mod 256)
    by (by rewrite <- Hpre, list_lookup_total_middle).
  pose proof (toZ_range pre0 Hv) as Hr. rewrite Hpre in Hr.
  assert (Hpow : 256 ^ Z.of_nat (S n) = 256 ^ Z.of_nat n * 256).
  { rewrite Nat2Z.inj_succ, Z.pow_succ_r by lia. lia. }
  destruct (Z.ltb_spec 0 ((b0 + 1) mod 256)) as [Hpos|Hzero].
  - (* no carry *)
    assert (Hb1 : (b0 + 1) mod 256 = b0 + 1).
    { destruct (decide (b0 = 255)) as [->|]; [done|]. apply Z.mod_small. lia. }
    exists (pre0 ++ [(b0 + 1) mod 256]).
    split; [by rewrite <- app_assoc|]. split; [rewrite length_app; cbn; lia|].
    split.
    + apply Forall_app. split; [done|]. apply Forall_singleton. rewrite Hb1.
      destruct (decide (b0 = 255)) as [->|]; [done|]. lia.
    + rewrite !toZ_snoc, Hb1, Hpow.
      assert (b0 ≠ 255) by (intros ->; by vm_compute in Hpos).
      rewrite Z.mod_small; [lia|nia].
  - (* carry into the bytes before *)
    assert (Hb255 : b0 = 255).
    { destruct (decide (b0 = 255)) as [|Hne]; [done|].
      rewrite Z.mod_small in Hzero by lia. lia. }
    subst b0. change ((255 + 1) mod 256) with 0.
    destruct (IH pre0 (0 :: suf) Hpre Hv) as (pre' & -> & Hl' & Hv' & Hz').
    exists (pre' ++ [0]). split; [by rewrite <- app_assoc|].
    split; [rewrite length_app; cbn; lia|]. split.
    + apply Forall_app. split; [done|]. by apply Forall_singleton.
    + rewrite !toZ_snoc, Hz', Hpow.
      replace (toZ pre0 * 256 + 255 + 1) with ((toZ pre0 + 1) * 256) by lia.
      rewrite Z.mul_mod_distr_r by lia. lia.
Qed.

(** [nextIP] keeps the length and adds one, modulo the size of the
    address space. *)
Lemma nextIP_spec ip :
  valid ip →
  length (nextIP ip) = length ip ∧ valid (nextIP ip)
  ∧ toZ (nextIP ip) = (toZ ip + 1) mod 256 ^ Z.of_nat (length ip).
Proof.
  intros Hv. unfold nextIP.
  destruct (nextIP_loop_spec (length ip) ip [] eq_refl Hv) as (ip' & Heq & Hl & Hv' & Hz).
  rewrite !app_nil_r in Heq. by rewrite Heq.
Qed.

Lemma nextIP_iter ip k :
  valid ip →
  length (Nat.iter k nextIP ip) = length ip ∧ valid (Nat.iter k nextIP ip)
  ∧ toZ (Nat.iter k nextIP ip) = (toZ ip + Z.of_nat k) mod 256 ^ Z.of_nat (length ip).
Proof.
  intros Hv. induction k as [|k (Hl & Hv' & Hz)].
  { change (Nat.iter 0 nextIP ip) with ip. split; [done|]. split; [done|].
    rewrite Z.add_0_r. symmetry. apply Z.mod_small. by apply toZ_range. }
  change (Nat.iter (S k) nextIP ip) with (nextIP (Nat.iter k nextIP ip)).
  destruct (nextIP_spec _ Hv') as (Hl1 & Hv1 & Hz1).
  split; [congruence|]. split; [done|].
  rewrite Hz1, Hl, Hz, Zplus_mod_idemp_l. f_equal. lia.
Qed.

(** A dot-free text followed by a dot is recovered by splitting at the
    first dot. *)
Lemma split_at_dot s r :
  noDot s = true →
  beforeDot (s +:+ String "." r) = s ∧ afterDot (s +:+ String "." r) = r.
Proof.
  induction s as [|c s IH]; intros Hs.
  - change ("" +:+ String "." r) with (String "." r). by cbn.
  - change (String c s +:+ String "." r) with (String c (s +:+ String "." r)).
    cbn [noDot] in Hs. apply andb_true_iff in Hs as [Hc Hs].
    apply negb_true_iff in Hc. cbn [beforeDot afterDot]. rewrite Hc.
    destruct (IH Hs) as [-> ->]. done.
Qed.

Lemma byte_noDot b : 0 ≤ b < 256 → noDot (pretty (Z.to_N b)) = true.
Proof.
  intros Hb.
  assert (Hall : forallb (λ b, noDot (pretty (Z.to_N b))) (seqZ 0 256) = true)
    by (by vm_compute).
  rewrite forallb_forall in Hall. apply Hall.
  apply list_elem_of_In, elem_of_seqZ. lia.
Qed.

Lemma byte_text_inj a b :
  0 ≤ a < 256 → 0 ≤ b < 256 → pretty (Z.to_N a) = pretty (Z.to_N b) → a = b.
Proof. intros Ha Hb H. apply (inj pretty) in H. lia. Qed.

Lemma dotted_inj a b r1 r2 :
  0 ≤ a < 256 → 0 ≤ b < 256 →
  pretty (Z.to_N a) +:+ "." +:+ r1 = pretty (Z.to_N b) +:+ "." +:+ r2 →
  a = b ∧ r1 = r2.
Proof.
  intros Ha Hb Heq.
  change ("." +:+ r1) with (String "." r1) in Heq.
  change ("." +:+ r2) with (String "." r2) in Heq.
  pose proof (f_equal beforeDot Heq) as E1. pose proof (f_equal afterDot Heq) as E2.
  destruct (split_at_dot (pretty (Z.to_N a)) r1 (byte_noDot a Ha)) as [Hb1 Ha1].
  destruct (split_at_dot (pretty (Z.to_N b)) r2 (byte_noDot b Hb)) as [Hb2 Ha2].
  rewrite Hb1, Hb2 in E1. rewrite Ha1, Ha2 in E2.
  split; [by apply byte_text_inj|done].
Qed.

(** The texts of two IPv4 addresses are equal only for equal addresses. *)
Lemma ipString_inj ip1 ip2 :
  length ip1 = 4%nat → length ip2 = 4%nat → valid ip1 → valid ip2 →
  ipString ip1 = ipString ip2 → ip1 = ip2.
Proof.
  intros H1 H2 Hv1 Hv2.
  destruct ip1 as [|a1 [|b1 [|c1 [|d1 [|]]]]]; try done.
  destruct ip2 as [|a2 [|b2 [|c2 [|d2 [|]]]]]; try done.
  apply Forall_cons in Hv1 as [Ha1 Hv1]. apply Forall_cons in Hv1 as [Hb1 Hv1].
  apply Forall_cons in Hv1 as [Hc1 Hv1]. apply Forall_cons in Hv1 as [Hd1 _].
  apply Forall_cons in Hv2 as [Ha2 Hv2]. apply Forall_cons in Hv2 as [Hb2 Hv2].
  apply Forall_cons in Hv2 as [Hc2 Hv2]. apply Forall_cons in Hv2 as [Hd2 _].
  cbn [ipString]. intros Heq.
  apply dotted_inj in Heq as [-> Heq]; [|done..].
  apply dotted_inj in Heq as [-> Heq]; [|done..].
  apply dotted_inj in Heq as [-> Heq]; [|done..].
  apply byte_text_inj in Heq as ->; done.
Qed.

End Addresses.

Section AddressAllocation.

Import Mesh.

Variable ParseCIDR : string → result Net.IPNet.

(** *** Allocation of virtual addresses *)

Lemma isIPUsed_spec mn ip :
  isIPUsed mn ip = true ↔ ∃ key node, nodes mn !! key = Some node ∧ MeshIP node = ip.
Proof.
  unfold isIPUsed. rewrite existsb_exists. split.
  - intros [[key node] [Hin Hip]]. apply list_elem_of_In, elem_of_map_to_list in Hin.
    apply bool_decide_eq_true in Hip. eauto.
  - intros (key & node & Hn & Hip). exists (key, node). split.
    + by apply list_elem_of_In, elem_of_map_to_list.
    + by apply bool_decide_eq_true.
Qed.

(** The address the loop returns is held by no node of the registry. *)
Lemma assignMeshIP_loop_unused fuel mn ip0 ip :
  assignMeshIP_loop fuel mn ip0 = Some ip → isIPUsed mn ip = false.
Proof.
  revert ip0. induction fuel as [|fuel IH]; intros ip0; [done|]. cbn [assignMeshIP_loop].
  destruct (isIPUsed mn (Net.ipString (Net.nextIP ip0))) eqn:Hused; cbn [negb].
  - apply IH.
  - by intros [= <-].
Qed.

(** [assignMeshIP] fails only when the block does not parse: there is no
    error for a block whose addresses are all taken. *)
Lemma assignMeshIP_error fuel mn e :
  assignMeshIP ParseCIDR fuel mn = Some (Err e) →
  ParseCIDR (NetworkCIDR (config mn)) = Err e.
Proof.
  unfold assignMeshIP. destruct (ParseCIDR _) as [network|e']; [|by intros [= <-]].
  by destruct (assignMeshIP_loop _ _ _).
Qed.

(** [AddServer] gives the new node an address no registered node holds,
    so that addresses stay unique in the registry. *)
Lemma AddServer_unique fuel nanos now serverConfig mn mn' node :
  AddServer ParseCIDR fuel nanos now serverConfig mn = Some (mn', Ok node) →
  isIPUsed mn (MeshIP node) = false
  ∧ nodes mn' = <[ID node := node]> (nodes mn)
  ∧ (uniqueAddresses mn → uniqueAddresses mn').
Proof.
  unfold AddServer, assignMeshIP.
  destruct (ParseCIDR _) as [network|e]; [|done].
  destruct (assignMeshIP_loop _ _ _) as [ip|] eqn:Hloop; [|done].
  apply assignMeshIP_loop_unused in Hloop. cbn. intros [= <- <-]. cbn.
  split; [done|]. split; [done|].
  intros Huniq k1 k2 n1 n2. cbn.
  assert (Hfree : ∀ k n, nodes mn !! k = Some n → MeshIP n ≠ ip).
  { intros k n Hn Hip. apply not_true_iff_false in Hloop. apply Hloop.
    apply isIPUsed_spec. eauto. }
  destruct (decide (k1 = generateNodeID nanos)) as [->|H1];
    destruct (decide (k2 = generateNodeID nanos)) as [->|H2].
  - done.
  - rewrite lookup_insert_eq, lookup_insert_ne by done. intros [= <-] Hn2 Hip. cbn in Hip.
    by destruct (Hfree k2 n2 Hn2).
  - rewrite lookup_insert_eq, lookup_insert_ne by done. intros Hn1 [= <-] Hip. cbn in Hip.
    by destruct (Hfree k1 n1 Hn1).
  - rewrite !lookup_insert_ne by done. apply Huniq.
Qed.

End AddressAllocation.

Section AllocationNeverExhausts.

Import Mesh.

(** *** [assignMeshIP] always finds an address *)

(** While the loop runs, every address it has tried is taken. *)
Lemma assignMeshIP_loop_running fuel mn ip0 :
  assignMeshIP_loop fuel mn ip0 = None →
  ∀ k, (1 ≤ k ≤ fuel)%nat →
       isIPUsed mn (Net.ipString (Nat.iter k Net.nextIP ip0)) = true.
Proof.
  revert ip0. induction fuel as [|fuel IH]; intros ip0 Hnone k Hk; [lia|].
  cbn [assignMeshIP_loop] in Hnone.
  destruct (isIPUsed mn (Net.ipString (Net.nextIP ip0))) eqn:Hused; [|done].
  cbn [negb] in Hnone. destruct k as [|[|k]]; [lia|done|].
  rewrite Nat.iter_succ_r. apply IH; [done|lia].
Qed.

(** The first [2^32] addresses after an IPv4 address have different
    texts. *)
Lemma candidates_differ ip0 k1 k2 :
  length ip0 = 4%nat → Net.valid ip0 →
  Z.of_nat k1 ≤ 2 ^ 32 → Z.of_nat k2 ≤ 2 ^ 32 → (1 ≤ k1)%nat → (1 ≤ k2)%nat →
  Net.ipString (Nat.iter k1 Net.nextIP ip0) = Net.ipString (Nat.iter k2 Net.nextIP ip0) →
  k1 = k2.
Proof.
  intros Hlen Hv Hk1 Hk2 H1 H2 Heq.
  destruct (nextIP_iter ip0 k1 Hv) as (Hl1 & Hv1 & Hz1).
  destruct (nextIP_iter ip0 k2 Hv) as (Hl2 & Hv2 & Hz2).
  apply ipString_inj in Heq; [|congruence..|done|done].
  rewrite Heq, Hz2, Hlen in Hz1. change (256 ^ Z.of_nat 4) with (2 ^ 32) in Hz1.
  pose proof (toZ_range ip0 Hv) as Hr. rewrite Hlen in Hr.
  change (256 ^ Z.of_nat 4) with (2 ^ 32) in Hr.
  change (2 ^ 32) with 4294967296 in *.
  apply Nat2Z.inj. Z.div_mod_to_equations. lia.
Qed.

(** Given one round more than there are nodes, the loop returns: not all
    the addresses it tries can be taken. *)
Lemma assignMeshIP_loop_returns mn ip0 :
  length ip0 = 4%nat → Net.valid ip0 →
  Z.of_nat (size (nodes mn)) < 2 ^ 32 →
  ∃ ip, assignMeshIP_loop (S (size (nodes mn))) mn ip0 = Some ip.
Proof.
  intros Hlen Hv Hsize.
  destruct (assignMeshIP_loop (S (size (nodes mn))) mn ip0) as [ip|] eqn:Hloop; [eauto|].
  exfalso.
  pose proof (assignMeshIP_loop_running _ _ _ Hloop) as Hused.
  set (n := size (nodes mn)) in *.
  set (cands := (λ k, Net.ipString (Nat.iter k Net.nextIP ip0)) <$> seq 1 (S n)).
  set (used := (λ kn : string * MeshNode, MeshIP kn.2) <$> map_to_list (nodes mn)).
  assert (Hnd : NoDup cands).
  { apply NoDup_fmap_2_strong; [|apply NoDup_seq].
    intros k1 k2 Hk1 Hk2. apply elem_of_seq in Hk1, Hk2.
    apply candidates_differ; try done; lia. }
  assert (Hsub : ∀ x, x ∈ cands → x ∈ used).
  { intros x Hx. apply list_elem_of_fmap in Hx as (k & -> & Hk).
    apply elem_of_seq in Hk.
    specialize (Hused k ltac:(lia)). apply isIPUsed_spec in Hused as (key & node & Hn & Hip).
    apply list_elem_of_fmap. exists (key, node). split; [done|].
    by apply elem_of_map_to_list. }
  pose proof (submseteq_length _ _ (NoDup_submseteq _ _ Hnd Hsub)) as Hle.
  unfold cands, used in Hle. rewrite !length_fmap, length_seq, length_map_to_list in Hle.
  fold n in Hle. lia.
Qed.

Variable ParseCIDR : string → result Net.IPNet.

(** On an IPv4 block that parses, [AddServer] returns a node, with an
    address no registered node holds, however many nodes the registry
    has: it has no failure for a block that is full. *)
Lemma AddServer_always_succeeds nanos now serverConfig mn network :
  ParseCIDR (NetworkCIDR (config mn)) = Ok network →
  length (Net.netIP network) = 4%nat → Net.valid (Net.netIP network) →
  Z.of_nat (size (nodes mn)) < 2 ^ 32 →
  ∃ mn' node,
    AddServer ParseCIDR (S (size (nodes mn))) nanos now serverConfig mn
    = Some (mn', Ok node)
    ∧ isIPUsed mn (MeshIP node) = false.
Proof.
  intros Hparse Hlen Hv Hsize.
  destruct (assignMeshIP_loop_returns mn _ Hlen Hv Hsize) as [ip Hip].
  pose proof (assignMeshIP_loop_unused _ _ _ _ Hip) as Hfree.
  unfold AddServer, assignMeshIP. rewrite Hparse, Hip. cbn.
  eexists _, _. split; [reflexivity|]. done.
Qed.

End AllocationNeverExhausts.

Section Fuel.

Import Mesh.

(** More rounds do not change the address the loop returns. *)
Lemma assignMeshIP_loop_more_fuel fuel extra mn ip0 ip :
  assignMeshIP_loop fuel mn ip0 = Some ip →
  assignMeshIP_loop (fuel + extra) mn ip0 = Some ip.
Proof.
  revert ip0. induction fuel as [|fuel IH]; intros ip0; [done|].
  cbn [assignMeshIP_loop Nat.add].
  destruct (negb (isIPUsed mn (Net.ipString (Net.nextIP ip0)))); [done|apply IH].
Qed.

End Fuel.

(** C1, the code at the block 10.99.0.0/30.  The block holds the
    addresses 10.99.0.0 to 10.99.0.3.  The local node takes 10.99.0.1;
    the four calls of [AddServer] that follow all succeed and assign
    10.99.0.2, 10.99.0.3, 10.99.0.4 and 10.99.0.5, the last two of which
    lie outside the block: no call fails for want of an address. *)
Theorem AddServer_runs_past_the_end_of_the_block :
  Scenario.cidrs "10.99.0.0/30" = Ok Scenario.block30
  ∧ Mesh.Initialize Scenario.cidrs 8 0 0 Scenario.mesh30_0 = Some (Scenario.mesh30_local, None)
  ∧ (Mesh.MeshIP <$> Mesh.nodes Scenario.mesh30_local !! "node-0") = Some "10.99.0.1"
  ∧ (∃ n1 n2 n3 n4,
       Mesh.AddServer Scenario.cidrs 8 1 1 (Scenario.relay "r1" "") Scenario.mesh30_local
       = Some (Scenario.mesh30_1, Ok n1)
       ∧ Mesh.AddServer Scenario.cidrs 8 2 2 (Scenario.relay "r2" "") Scenario.mesh30_1
         = Some (Scenario.mesh30_2, Ok n2)
       ∧ Mesh.AddServer Scenario.cidrs 8 3 3 (Scenario.relay "r3" "") Scenario.mesh30_2
         = Some (Scenario.mesh30_3, Ok n3)
       ∧ Mesh.AddServer Scenario.cidrs 8 4 4 (Scenario.relay "r4" "") Scenario.mesh30_3
         = Some (Scenario.mesh30_4, Ok n4)
       ∧ Mesh.MeshIP n1 = "10.99.0.2" ∧ Mesh.MeshIP n2 = "10.99.0.3"
       ∧ Mesh.MeshIP n3 = "10.99.0.4" ∧ Mesh.MeshIP n4 = "10.99.0.5")
  ∧ Net.ipString [10; 99; 0; 3] = "10.99.0.3"
  ∧ Net.contains Scenario.block30 [10; 99; 0; 3] = true
  ∧ Net.ipString [10; 99; 0; 4] = "10.99.0.4"
  ∧ Net.contains Scenario.block30 [10; 99; 0; 4] = false
  ∧ Net.ipString [10; 99; 0; 5] = "10.99.0.5"
  ∧ Net.contains Scenario.block30 [10; 99; 0; 5] = false
  ∧ size (Mesh.nodes Scenario.mesh30_4) = 5%nat.
Proof.
  split; [by vm_compute|]. split; [by vm_compute|]. split; [by vm_compute|].
  split; [eexists _, _, _, _; repeat split; by vm_compute|].
  repeat split; by vm_compute.
Qed.

(** The block 10.99.0.0/24: the local node gets 10.99.0.1, and three
    servers added one after the other get 10.99.0.2, 10.99.0.3 and
    10.99.0.4. *)
Lemma addresses_in_add_order :
  (Mesh.MeshIP <$> Mesh.nodes (Scenario.mesh24 "latency") !! "node-0") = Some "10.99.0.1"
  ∧ (Mesh.MeshIP <$> Mesh.nodes (Scenario.mesh24 "latency") !! "node-1") = Some "10.99.0.2"
  ∧ (Mesh.MeshIP <$> Mesh.nodes (Scenario.mesh24 "latency") !! "node-2") = Some "10.99.0.3"
  ∧ ∃ mn' node,
      Mesh.AddServer Scenario.cidrs 8 3 3 (Scenario.relay "r3" "") (Scenario.mesh24 "latency")
      = Some (mn', Ok node)
      ∧ Mesh.MeshIP node = "10.99.0.4".
Proof.
  split; [by vm_compute|]. split; [by vm_compute|]. split; [by vm_compute|].
  eexists _, _. split; by vm_compute.
Qed.

(** ** Encryption of the configuration file *)

Section ConfigEncryption.

Import Config.

Lemma hex_byte (b : byte) :
  fromHexChar (hexChar (Byte.to_N b / 16)) = Some (Byte.to_N b / 16)%N
  ∧ fromHexChar (hexChar (Byte.to_N b mod 16)) = Some (Byte.to_N b mod 16)%N
  ∧ Byte.of_N (Byte.to_N b / 16 * 16 + Byte.to_N b mod 16) = Some b.
Proof. destruct b; by vm_compute. Qed.

(** Decoding undoes encoding. *)
Lemma DecodeString_EncodeToString (src : list byte) :
  DecodeString (EncodeToString src) = Ok src.
Proof.
  induction src as [|b src IH]; [done|]. cbn [EncodeToString DecodeString].
  destruct (hex_byte b) as (-> & -> & ->). by rewrite IH.
Qed.

Lemma HasPrefix_app (prefix s : string) : HasPrefix (prefix +:+ s) prefix = true.
Proof.
  induction prefix as [|c prefix IH]; [by destruct s|].
  change (String c prefix +:+ s) with (String c (prefix +:+ s)). cbn [HasPrefix].
  by rewrite bool_decide_eq_true_2, IH.
Qed.

Lemma TrimPrefix_app (prefix s : string) : TrimPrefix (prefix +:+ s) prefix = s.
Proof.
  unfold TrimPrefix. rewrite HasPrefix_app.
  induction prefix as [|c prefix IH].
  - change ("" +:+ s) with s. cbn [String.length]. rewrite Nat.sub_0_r.
    induction s as [|c s IHs]; [done|]. cbn [String.length substring]. by rewrite IHs.
  - change (String c prefix +:+ s) with (String c (prefix +:+ s)).
    cbn [String.length]. rewrite Nat.sub_succ. cbn [substring]. exact IH.
Qed.

Variable Sum256 : list byte → list byte.
Variable gcmSeal : list byte → list byte → list byte → list byte.
Variable gcmOpen : list byte → list byte → list byte → option (list byte).

(** What is assumed of the primitives: a SHA-256 digest has 32 bytes, and
    opening under the key and nonce of the sealing returns the
    plaintext. *)
Hypothesis Sum256_size : ∀ m, length (Sum256 m) = 32%nat.
Hypothesis gcmOpen_gcmSeal :
  ∀ key nonce data, length nonce = NonceSize →
                    gcmOpen key nonce (gcmSeal key nonce data) = Some data.

Lemma validKeySize_Sum256 m : validKeySize (Sum256 m) = true.
Proof. unfold validKeySize. rewrite Sum256_size. by apply bool_decide_eq_true_2; auto. Qed.

(** [decrypt] applied to what [encrypt] produced under a first passphrase
    returns exactly what the opening under the second passphrase's key
    returns for the box sealed under the first one's key. *)
Lemma decrypt_encrypt_other data pw1 pw2 nonce :
  length nonce = NonceSize →
  ∃ sealed,
    encrypt Sum256 gcmSeal data pw1 (Ok nonce) = Ok sealed
    ∧ decrypt Sum256 gcmOpen sealed pw2
      = match gcmOpen (Sum256 (list_byte_of_string pw2)) nonce
                (gcmSeal (Sum256 (list_byte_of_string pw1)) nonce data) with
        | Some plaintext => Ok plaintext
        | None => Err "cipher: message authentication failed"
        end.
Proof.
  intros Hnonce. unfold encrypt. rewrite validKeySize_Sum256. cbn [negb].
  eexists. split; [reflexivity|]. unfold decrypt.
  rewrite string_of_list_byte_of_string.
  change ("ENC:" +:+ ?s) with (String.append "ENC:" s).
  rewrite (HasPrefix_app "ENC:"). cbn [negb]. rewrite (TrimPrefix_app "ENC:").
  rewrite DecodeString_EncodeToString, validKeySize_Sum256. cbn [negb].
  rewrite bool_decide_eq_false_2 by (rewrite length_app, Hnonce; unfold NonceSize; lia).
  rewrite <- Hnonce at 1 2. by rewrite take_app_length, drop_app_length.
Qed.

(** Round trip: decrypting with the passphrase of the encryption returns
    the payload, byte for byte. *)
Lemma decrypt_encrypt data password nonce :
  length nonce = NonceSize →
  ∃ sealed,
    encrypt Sum256 gcmSeal data password (Ok nonce) = Ok sealed
    ∧ isEncrypted sealed = true
    ∧ decrypt Sum256 gcmOpen sealed password = Ok data.
Proof.
  intros Hnonce.
  destruct (decrypt_encrypt_other data password password nonce Hnonce)
    as (sealed & Henc & Hdec).
  exists sealed. split; [done|]. split.
  - unfold encrypt in Henc. rewrite validKeySize_Sum256 in Henc. injection Henc as <-.
    unfold isEncrypted. rewrite string_of_list_byte_of_string.
    apply (HasPrefix_app "ENC:").
  - by rewrite Hdec, gcmOpen_gcmSeal.
Qed.

End ConfigEncryption.



(** * Further properties *)

(** ** The tunnel manager and its adapters *)

Section ManagerFacts.

Import Protocols.

Variable adapterStop : Tunnel → option string.
Variable adapterTest : Tunnel → result Z.

(** *** What registration leaves in the maps *)

Lemma registerServer_monotone tm server name :
  is_Some (tunnels tm !! name) → is_Some (tunnels (registerServer tm server) !! name).
Proof.
  intros H. unfold registerServer. destruct (Config.Enabled server); cbn; [|done].
  destruct (createTunnel server); cbn; [|done].
  destruct (decide (Config.Name server = name)) as [->|Hne].
  - rewrite lookup_insert_eq. eauto.
  - by rewrite lookup_insert_ne.
Qed.

Lemma register_fold_monotone servers tm name :
  is_Some (tunnels tm !! name) →
  is_Some (tunnels (foldl registerServer tm servers) !! name).
Proof.
  revert tm. induction servers as [|s l IH]; intros tm H; [done|].
  cbn [foldl]. apply IH. by apply registerServer_monotone.
Qed.

(** A registered tunnel was there before, or is the adapter of an
    enabled server of the list. *)
Lemma register_fold_origin servers tm name t :
  tunnels (foldl registerServer tm servers) !! name = Some t →
  tunnels tm !! name = Some t
  ∨ ∃ s, s ∈ servers ∧ Config.Enabled s = true ∧ createTunnel s = Ok t
         ∧ Config.Name s = name.
Proof.
  revert tm. induction servers as [|s l IH]; intros tm H; [by left|].
  cbn [foldl] in H. destruct (IH _ H) as [H1|(s' & Hin & ?)].
  - unfold registerServer in H1.
    destruct (Config.Enabled s) eqn:Hen; cbn in H1; [|by left].
    destruct (createTunnel s) as [t'|] eqn:Hc; cbn in H1; [|by left].
    destruct (decide (Config.Name s = name)) as [Heq|Hne].
    + rewrite Heq, lookup_insert_eq in H1. injection H1 as ->.
      right. exists s. split; [by left|done].
    + rewrite lookup_insert_ne in H1 by done. by left.
  - right. exists s'. split; [by right|done].
Qed.

Lemma createTunnel_SSHTunnel server s :
  createTunnel server = Ok (SSHTunnel s) →
  s = server ∧ Config.Transport server = Config.TransportSSH.
Proof.
  unfold createTunnel. repeat case_bool_decide; intros Heq; try done.
  by injection Heq as <-.
Qed.

Lemma registerAll_frame tm :
  config (registerAll tm) = config tm ∧ mu (registerAll tm) = mu tm
  ∧ ctx (registerAll tm) = ctx tm ∧ workers (registerAll tm) = workers tm.
Proof. apply register_fold_frame. Qed.

(** *** [Start] under auto-selection *)

(** Two ways of cutting one list at an element. *)
Lemma two_splits {A} (pre pre' post post' : list A) a b :
  pre ++ a :: post = pre' ++ b :: post' →
  a = b ∨ (a ∈ pre' ∧ b ∈ post) ∨ (b ∈ pre ∧ a ∈ post').
Proof.
  revert pre'. induction pre as [|x pre IH]; intros [|y pre'] H; cbn in H.
  - injection H as -> _. by left.
  - injection H as -> ->. right. left. split; [by left|]. apply elem_of_app. right. by left.
  - injection H as -> <-. right. right. split; [by left|]. apply elem_of_app. right. by left.
  - injection H as -> H. destruct (IH _ H) as [?|[[? ?]|[? ?]]].
    + by left.
    + right. left. split; [by right|done].
    + right. right. split; [by right|done].
Qed.

(** X1.  With [auto_select] on, [Start] called with a context that is
    not nil never returns nil.  The policy runs while [Start] holds the
    manager's lock: as soon as it settles on a tunnel, the [StartTunnel]
    it calls waits for that lock for ever; when it settles on none,
    [Start] returns ["no available servers found"].  Under ["random"]
    it settles on a tunnel as soon as one is registered.  Under every
    other method it settles on the tunnel its loop visits first among
    those that measure the least latency, provided this latency is less
    than an hour and the tunnel's name is not empty (the empty name is
    the loop's "none found"); when no tunnel is registered under the
    empty name, this is to say that some probe measures less than an
    hour. *)
Theorem Start_with_auto_select_blocks_or_fails cancelled order now tm :
  mu tm = false → Config.AutoSelect (config tm) = true →
  let tm1 := registerAll (set_ctx (Some cancelled) (set_mu true tm)) in
  range_order (tunnels tm1) order →
  let fastest : Prop :=
    ∃ pre name post latency,
      order = pre ++ name :: post ∧ name ≠ ""
      ∧ measured adapterTest tm1 name = Some latency ∧ latency < Hour
      ∧ (∀ n l, n ∈ pre → measured adapterTest tm1 n = Some l → latency < l)
      ∧ (∀ n l, n ∈ post → measured adapterTest tm1 n = Some l → latency ≤ l) in
  let settles : Prop :=
    if bool_decide (Config.SelectionMethod (config tm) = "random")
    then tunnels tm1 ≠ ∅ else fastest in
  (settles → Start adapterTest (Some cancelled) order now tm = Blocks)
  ∧ (¬ settles →
     Start adapterTest (Some cancelled) order now tm
     = Returns (set_mu false tm1, Some "no available servers found"))
  ∧ (tunnels tm1 !! "" = None →
     (fastest
      ↔ ∃ name latency, measured adapterTest tm1 name = Some latency ∧ latency < Hour)).
Proof.
  intros Hmu Hauto tm1 Horder fastest settles.
  destruct (registerAll_frame (set_ctx (Some cancelled) (set_mu true tm)))
    as (Hc & Hm & _). fold tm1 in Hc, Hm. cbn in Hc, Hm.
  assert (HStart : Start adapterTest (Some cancelled) order now tm
            = match startAutoSelected adapterTest order now tm1 with
              | Returns (tm2, err) => Returns (set_mu false tm2, err)
              | Blocks => Blocks
              | Panics => Panics
              end).
  { unfold Start. rewrite Hmu. fold tm1. by rewrite Hc, Hauto. }
  assert (Hlocked : ∀ name, StartTunnel now name tm1 = Blocks).
  { intros name. unfold StartTunnel. by rewrite Hm. }
  set (r := bestLatency adapterTest order tm1).
  pose proof (bestLatency_fold adapterTest tm1 order "" Hour) as Hfold.
  fold (bestLatency adapterTest order tm1) in Hfold. cbv zeta in Hfold. fold r in Hfold.
  assert (Hiff : fastest ↔ r.1 ≠ "").
  { split.
    - intros (pre & name & post & latency & Ho & Hne & Hmeas & Hlt & Hpre & Hpost).
      destruct Hfold as [[_ Hall]|(pre' & post' & Ho' & Hr & _ & Hpre' & Hpost')].
      + exfalso. assert (name ∈ order) as Hin.
        { rewrite Ho. apply elem_of_app. right. by left. }
        specialize (Hall name latency Hin Hmeas). lia.
      + rewrite Ho in Ho'. destruct (two_splits _ _ _ _ _ _ Ho') as [<-|[[H1 H2]|[H1 H2]]].
        * done.
        * specialize (Hpre' _ _ H1 Hmeas). specialize (Hpost _ _ H2 Hr). lia.
        * specialize (Hpre _ _ H1 Hr). specialize (Hpost' _ _ H2 Hmeas). lia.
    - intros Hne.
      destruct Hfold as [[Heq _]|(pre & post & Ho & Hr & Hlt & Hpre & Hpost)].
      + by rewrite Heq in Hne.
      + exists pre, r.1, post, r.2. done. }
  assert (Hbest : startBestLatency adapterTest order now tm1
                  = if bool_decide (r.1 = "")
                    then Returns (tm1, Some "no available servers found") else Blocks).
  { unfold startBestLatency. fold r. case_bool_decide; [done|apply Hlocked]. }
  assert (Hother : Config.SelectionMethod (config tm) ≠ "random" →
                   startAutoSelected adapterTest order now tm1
                   = startBestLatency adapterTest order now tm1).
  { intros Hr. unfold startAutoSelected, startLeastLoad. rewrite Hc.
    rewrite (bool_decide_eq_false_2 _ Hr). by repeat case_bool_decide. }
  assert (Hrandom : Config.SelectionMethod (config tm) = "random" →
                    startAutoSelected adapterTest order now tm1
                    = startRandom order now tm1).
  { intros Hr. unfold startAutoSelected. by rewrite Hc, Hr. }
  split; [|split].
  - intros Hsel. rewrite HStart. unfold settles in Hsel.
    destruct (decide (Config.SelectionMethod (config tm) = "random")) as [Hr|Hr].
    + rewrite (Hrandom Hr). rewrite (bool_decide_eq_true_2 _ Hr) in Hsel.
      unfold startRandom. destruct order as [|name order'].
      * exfalso. apply Hsel.
        apply map_to_list_empty_iff, fmap_nil_inv with (f := fst).
        symmetry. by apply Permutation_nil_l.
      * by rewrite Hlocked.
    + rewrite (Hother Hr), Hbest. rewrite (bool_decide_eq_false_2 _ Hr) in Hsel.
      apply Hiff in Hsel. by rewrite (bool_decide_eq_false_2 _ Hsel).
  - intros Hno. rewrite HStart. unfold settles in Hno.
    destruct (decide (Config.SelectionMethod (config tm) = "random")) as [Hr|Hr].
    + rewrite (Hrandom Hr). rewrite (bool_decide_eq_true_2 _ Hr) in Hno.
      unfold startRandom. destruct order as [|name order'].
      * done.
      * exfalso. apply Hno. intros Hnil. unfold range_order in Horder.
        rewrite Hnil, map_to_list_empty in Horder.
        by apply Permutation_nil_r in Horder.
    + rewrite (Hother Hr), Hbest. rewrite (bool_decide_eq_false_2 _ Hr) in Hno.
      destruct (decide (r.1 = "")) as [Heq|Hne].
      * by rewrite (bool_decide_eq_true_2 _ Heq).
      * exfalso. by apply Hno, Hiff.
  - intros Hempty. split.
    + intros (pre & name & post & latency & _ & _ & Hmeas & Hlt & _). eauto.
    + intros (name & latency & Hmeas & Hlt). apply Hiff. intros Heq.
      destruct Hfold as [[_ Hall]|(pre & post & Ho & Hr & _)].
      * assert (name ∈ order) as Hin.
        { apply (range_order_elem _ _ _ Horder). by eapply measured_registered. }
        specialize (Hall name latency Hin Hmeas). lia.
      * apply measured_registered in Hr. rewrite Heq, Hempty in Hr. by destruct Hr.
Qed.


(** *** What the adapters of the repository can do *)

(** With the adapters of the repository, only an SSH tunnel is ever
    measured. *)
Lemma measured_by_the_adapters pingTest tm name latency :
  measured (Adapters.Test pingTest) tm name = Some latency →
  ∃ server, tunnels tm !! name = Some (SSHTunnel server) ∧ pingTest server = Ok latency.
Proof.
  unfold measured. destruct (tunnels tm !! name) as [[s|s|s|s|s]|]; cbn; try done.
  destruct (pingTest s) eqn:Hp; [|done]. intros [= <-]. eauto.
Qed.

(** X2.  Auto-selection by latency only ever settles on an SSH server:
    the [Test] of every other adapter fails.  So for a configuration
    none of whose enabled servers uses the transport ["ssh"], [Start]
    on a new manager with [auto_select] on (and a method other than
    ["random"]) returns ["no available servers found"], whatever the
    other tunnels it has registered, whatever answers the network
    would give and whatever context, other than nil, it is called
    with. *)
Theorem Start_auto_select_settles_on_ssh_servers_only pingTest cancelled order now cfg :
  Config.AutoSelect cfg = true →
  Config.SelectionMethod cfg ≠ "random" →
  (∀ s, s ∈ Config.Servers cfg → Config.Enabled s = true →
        Config.Transport s ≠ Config.TransportSSH) →
  let tm1 := registerAll (set_ctx (Some cancelled) (set_mu true (NewTunnelManager cfg))) in
  (∀ s, s ∈ Config.Servers cfg → Config.Enabled s = true →
        supported (Config.Transport s) → is_Some (tunnels tm1 !! Config.Name s))
  ∧ (∀ name tunnel, tunnels tm1 !! name = Some tunnel →
       ∃ msg, Adapters.Test pingTest tunnel = Err msg)
  ∧ Start (Adapters.Test pingTest) (Some cancelled) order now (NewTunnelManager cfg)
    = Returns (set_mu false tm1, Some "no available servers found").
Proof.
  intros Hauto Hmethod Hnossh tm1.
  assert (Hstub : ∀ name tunnel, tunnels tm1 !! name = Some tunnel →
                  ∃ msg, Adapters.Test pingTest tunnel = Err msg).
  { intros name tunnel Ht. apply register_fold_origin in Ht as [Ht|(s & Hin & Hen & Hc & _)].
    - cbn in Ht. by rewrite lookup_empty in Ht.
    - destruct tunnel as [s'|s'|s'|s'|s']; cbn; eauto.
      apply createTunnel_SSHTunnel in Hc as [_ Hssh]. cbn in Hin.
      by destruct (Hnossh s Hin Hen). }
  split; [|split; [exact Hstub|]].
  { intros s Hin Hen Hsup.
    by apply (register_fold_registered (Config.Servers cfg) _ s Hin Hen Hsup). }
  destruct (registerAll_frame (set_ctx (Some cancelled) (set_mu true (NewTunnelManager cfg))))
    as (Hc & Hm & _). fold tm1 in Hc, Hm. cbn in Hc, Hm.
  unfold Start. cbn [mu NewTunnelManager]. fold tm1. rewrite Hc, Hauto.
  assert (startBestLatency (Adapters.Test pingTest) order now tm1
          = Returns (tm1, Some "no available servers found")) as Hbest.
  { unfold startBestLatency, bestLatency.
    assert (foldl (bestLatencyStep (Adapters.Test pingTest) tm1) ("", Hour) order
            = ("", Hour)) as ->; [|done].
    generalize ("", Hour). induction order as [|name order' IH]; intros acc; [done|].
    cbn [foldl]. rewrite bestLatencyStep_measured.
    destruct (measured (Adapters.Test pingTest) tm1 name) as [l|] eqn:Hmeas; [|apply IH].
    apply measured_by_the_adapters in Hmeas as (server & Ht & _).
    destruct (Hstub _ _ Ht) as [msg Hmsg]. cbn in Hmsg.
    apply register_fold_origin in Ht as [Ht|(s & Hin & Hen & Hcr & _)].
    - cbn in Ht. by rewrite lookup_empty in Ht.
    - apply createTunnel_SSHTunnel in Hcr as [_ Hssh]. cbn in Hin.
      by destruct (Hnossh s Hin Hen). }
  unfold startAutoSelected, startLeastLoad. rewrite Hc.
  rewrite (bool_decide_eq_false_2 _ Hmethod), Hbest.
  by repeat case_bool_decide.
Qed.

(** X3.  Which tunnels can start at all.  The adapter [createTunnel]
    makes for a server starts without error exactly when the transport
    is ["ssh"], a password is configured, the proxy type is ["socks5"]
    or ["http"], the SSH server answers and the local port can be
    listened on.  Every other transport fails as not yet implemented,
    and so does an SSH server that has a key path and no password. *)
Theorem only_ssh_with_a_password_can_start dial listen server tunnel :
  createTunnel server = Ok tunnel →
  (Adapters.Start dial listen tunnel = None
   ↔ Config.Transport server = Config.TransportSSH
     ∧ Config.Password server ≠ ""
     ∧ (Config.Proxy server = "socks5" ∨ Config.Proxy server = "http")
     ∧ dial (Config.Host server +:+ ":" +:+ Config.Port server) = None
     ∧ listen (Config.LocalPort server) = None)
  ∧ (Config.Transport server ≠ Config.TransportSSH →
     ∃ protocol, Adapters.Start dial listen tunnel
                 = Some (protocol +:+ " protocol not yet implemented"))
  ∧ (Config.Transport server = Config.TransportSSH → Config.Password server = "" →
     Adapters.Start dial listen tunnel
     = Some (if bool_decide (Config.KeyPath server ≠ "")
             then "key-based authentication not yet implemented"
             else "no authentication method provided")).
Proof.
  clear adapterStop adapterTest.
  intros Hc.
  assert (Hssh : Config.Transport server = Config.TransportSSH → tunnel = SSHTunnel server).
  { intros Ht. unfold createTunnel in Hc. rewrite Ht in Hc. cbn in Hc. by injection Hc as <-. }
  assert (Hother : Config.Transport server ≠ Config.TransportSSH →
                   ∃ protocol, Adapters.Start dial listen tunnel
                               = Some (protocol +:+ " protocol not yet implemented")).
  { intros Hne. destruct tunnel as [s|s|s|s|s]; cbn.
    - apply createTunnel_SSHTunnel in Hc as [_ Ht]. done.
    - by exists "Hysteria".
    - by exists "V2Ray".
    - by exists "WireGuard".
    - by exists "Trojan". }
  split; [|split; [done|]].
  - destruct (decide (Config.Transport server = Config.TransportSSH)) as [Ht|Hne].
    + rewrite (Hssh Ht). cbn. unfold Adapters.SSHTunnel_Start.
      unfold Adapters.startSOCKS5, Adapters.startHTTP.
      repeat case_bool_decide;
        destruct (dial _); destruct (listen _); naive_solver.
    + destruct (Hother Hne) as [p ->]. naive_solver.
  - intros Ht Hpw. rewrite (Hssh Ht). cbn. unfold Adapters.SSHTunnel_Start.
    rewrite (bool_decide_eq_false_2 (Config.Password server ≠ ""))
      by (intros Hne; by apply Hne).
    by case_bool_decide.
Qed.

(** *** Restarting *)

Lemma StopAllTunnels_returns order tm :
  mu tm = false →
  let tm1 := set_status (foldl (stopStep adapterStop tm) (status tm, []) order).1 tm in
  StopAllTunnels adapterStop order tm
  = Returns (tm1, stopResult (omap (stopError adapterStop tm) order))
  ∧ ∀ name, status tm1 !! name
            = if bool_decide (name ∈ order ∧ is_Some (tunnels tm !! name))
              then set_Status "disconnected" <$> status tm !! name
              else status tm !! name.
Proof.
  intros Hmu tm1. split.
  - unfold StopAllTunnels. rewrite Hmu. by rewrite stop_fold_errors.
  - intros name. unfold tm1. cbn. by rewrite stop_fold_status.
Qed.

(** What [Start] makes of a manager whose lock is free: with a nil
    context it panics; otherwise it does not return (under
    auto-selection only) or returns the manager with the servers
    registered and the new context, which is cancelled exactly when the
    parent is. *)
Lemma Start_outcome parent order now tm :
  mu tm = false →
  match parent with
  | None => Start adapterTest parent order now tm = Panics
  | Some cancelled =>
      let tm1 := registerAll (set_ctx (Some cancelled) (set_mu true tm)) in
      (Start adapterTest parent order now tm = Blocks
       ∧ Config.AutoSelect (config tm) = true)
      ∨ ∃ err, Start adapterTest parent order now tm = Returns (set_mu false tm1, err)
  end.
Proof.
  intros Hmu. destruct parent as [cancelled|]; [|unfold Start; by rewrite Hmu].
  intros tm1. unfold Start. rewrite Hmu. fold tm1.
  destruct (registerAll_frame (set_ctx (Some cancelled) (set_mu true tm)))
    as (Hc & Hm & _).
  fold tm1 in Hc, Hm. cbn in Hc, Hm. rewrite Hc.
  destruct (Config.AutoSelect (config tm)); [|by eauto].
  destruct (startAutoSelected_locked adapterTest order now tm1 Hm) as [->| ->]; eauto.
Qed.

(** X4.  [RestartTunnels] is [StopAllTunnels] followed by [Start],
    called with the manager's own context, on the manager the stopping
    leaves, in which every registered tunnel is ["disconnected"].  So
    on a manager that has never been started, whose context is nil, it
    panics; and when it returns, the new context is cancelled exactly
    when the old one was: after [Stop] has cancelled the context, every
    restart leaves a cancelled context.  When the [Stop] of some adapter
    fails it returns the stopping error without calling [Start]:
    everything is left stopped, nothing is registered anew and the
    context is not renewed. *)
Theorem RestartTunnels_stops_then_starts stopOrder startOrder now tm :
  mu tm = false → range_order (tunnels tm) stopOrder →
  ∃ tm1,
    tunnels tm1 = tunnels tm ∧ config tm1 = config tm ∧ ctx tm1 = ctx tm
    ∧ workers tm1 = workers tm
    ∧ (∀ name st, is_Some (tunnels tm !! name) → status tm !! name = Some st →
         status tm1 !! name = Some (set_Status "disconnected" st))
    ∧ ((∀ name tunnel, tunnels tm !! name = Some tunnel → adapterStop tunnel = None) →
       RestartTunnels adapterStop adapterTest stopOrder startOrder now tm
       = Start adapterTest (ctx tm) startOrder now tm1
       ∧ (ctx tm = None →
          RestartTunnels adapterStop adapterTest stopOrder startOrder now tm = Panics))
    ∧ (∀ name tunnel err, tunnels tm !! name = Some tunnel →
         adapterStop tunnel = Some err →
         ∃ msg, RestartTunnels adapterStop adapterTest stopOrder startOrder now tm
                = Returns (tm1, Some ("errors stopping tunnels: " +:+ msg)))
    ∧ (∀ tm' err,
         RestartTunnels adapterStop adapterTest stopOrder startOrder now tm
         = Returns (tm', err) →
         ctx tm' = ctx tm ∧ (err = None → ctx tm ≠ None)).
Proof.
  intros Hmu Horder.
  destruct (StopAllTunnels_returns stopOrder tm Hmu) as [Hstop Hstatus].
  set (tm1 := set_status _ tm) in *. exists tm1.
  do 4 (split; [done|]). split; [|split; [|split]].
  - intros name st Hsome Hst. rewrite Hstatus, Hst.
    rewrite bool_decide_eq_true_2; [done|].
    split; [|done]. by apply (range_order_elem _ _ _ Horder).
  - intros Hall.
    assert (Heq : RestartTunnels adapterStop adapterTest stopOrder startOrder now tm
                  = Start adapterTest (ctx tm) startOrder now tm1).
    { unfold RestartTunnels. rewrite Hstop.
      by rewrite (stop_no_error adapterStop tm stopOrder Hall). }
    split; [exact Heq|]. intros Hnil. rewrite Heq, Hnil.
    exact (Start_outcome None startOrder now tm1 Hmu).
  - intros name tunnel err Ht Herr. unfold RestartTunnels. rewrite Hstop.
    assert (Hin : "failed to stop tunnel " +:+ name +:+ ": " +:+ err
                  ∈ omap (stopError adapterStop tm) stopOrder).
    { apply list_elem_of_omap. exists name. split.
      - apply (range_order_elem _ _ _ Horder). by rewrite Ht.
      - unfold stopError. by rewrite Ht, Herr. }
    destruct (omap _ stopOrder) as [|e errors]; [by apply elem_of_nil in Hin|].
    cbn. eauto.
  - intros tm' err. unfold RestartTunnels. rewrite Hstop.
    destruct (stopResult _) as [e|].
    + intros [= <- <-]. done.
    + change (ctx tm1) with (ctx tm).
      pose proof (Start_outcome (ctx tm) startOrder now tm1 Hmu) as Hout.
      destruct (ctx tm) as [cancelled|]; [|by rewrite Hout].
      destruct Hout as [[-> _]|[e ->]]; [done|]. intros [= <- _].
      split; [|done]. cbn [ctx set_mu].
      by destruct (registerAll_frame (set_ctx (Some cancelled) (set_mu true tm1)))
        as (_ & _ & -> & _).
Qed.

(** X5.  No adapter of the repository ever fails to stop: [Stop] and
    [StopAllTunnels] return nil whatever the state of the tunnels, and
    [RestartTunnels] always goes on to call [Start] with the manager's
    own context: it panics when the manager has never been started. *)
Theorem stopping_never_fails_with_the_adapters stopOrder startOrder now tm :
  mu tm = false →
  ∃ tm1 tm2,
    StopAllTunnels Adapters.Stop stopOrder tm = Returns (tm1, None)
    ∧ Stop Adapters.Stop stopOrder tm = Returns (tm2, None)
    ∧ RestartTunnels Adapters.Stop adapterTest stopOrder startOrder now tm
      = Start adapterTest (ctx tm) startOrder now tm1
    ∧ (ctx tm = None →
       RestartTunnels Adapters.Stop adapterTest stopOrder startOrder now tm = Panics)
    ∧ ∀ name st, name ∈ stopOrder → is_Some (tunnels tm !! name) →
        status tm !! name = Some st →
        status tm1 !! name = Some (set_Status "disconnected" st)
        ∧ status tm2 !! name = Some (set_Status "disconnected" st).
Proof.
  intros Hmu.
  assert (Hnil : ∀ tm' , omap (stopError Adapters.Stop tm') stopOrder = []).
  { intros tm'. apply stop_no_error. by intros name [s|s|s|s|s] _. }
  eexists _, _. split; [|split; [|split; [|split]]].
  - unfold StopAllTunnels. rewrite Hmu, stop_fold_errors, Hnil. done.
  - unfold Stop. rewrite Hmu, stop_fold_errors, Hnil. done.
  - unfold RestartTunnels, StopAllTunnels. rewrite Hmu, stop_fold_errors, Hnil. done.
  - intros Hctx. unfold RestartTunnels, StopAllTunnels.
    rewrite Hmu, stop_fold_errors, Hnil. cbn [stopResult ctx set_status].
    rewrite Hctx. unfold Start. cbn [mu set_status]. by rewrite Hmu.
  - intros name st Hin Hsome Hst. cbn. rewrite !stop_fold_status. cbn.
    assert (tunnels (match ctx tm with Some _ => set_ctx (Some true) tm | None => tm end)
            = tunnels tm) as Ht by by destruct (ctx tm).
    assert (status (match ctx tm with Some _ => set_ctx (Some true) tm | None => tm end)
            = status tm) as Hs by by destruct (ctx tm).
    rewrite Ht, Hs, Hst. by rewrite bool_decide_eq_true_2.
Qed.


(** *** Replacing the configuration *)

(** X6.  [UpdateConfig] replaces the configuration and leaves every
    tunnel registered, and no later [Start] unregisters one: after
    [UpdateConfig] and [Start], each tunnel registered before is still
    registered, and a tunnel whose name the new configuration does not
    mention keeps its adapter and its status record, although
    [GetTunnels] no longer lists its server.  [Start] is called with
    any context other than nil. *)
Theorem UpdateConfig_and_Start_never_unregister cancelled order now cfg tm :
  mu tm = false → Config.AutoSelect cfg = false →
  ∃ tm1 tm2,
    Manager.UpdateConfig cfg tm = Returns (tm1, None)
    ∧ tunnels tm1 = tunnels tm ∧ status tm1 = status tm
    ∧ Manager.GetTunnels tm1 = Returns (Config.Servers cfg)
    ∧ Start adapterTest (Some cancelled) order now tm1 = Returns (tm2, None)
    ∧ Manager.GetStatus tm2 = Returns (status tm2)
    ∧ (∀ name, is_Some (tunnels tm !! name) → is_Some (tunnels tm2 !! name))
    ∧ (∀ name, (∀ s, s ∈ Config.Servers cfg → Config.Name s ≠ name) →
         tunnels tm2 !! name = tunnels tm !! name
         ∧ status tm2 !! name = status tm !! name).
Proof.
  intros Hmu Hauto.
  set (tm1 := set_config cfg tm).
  set (tm' := registerAll (set_ctx (Some cancelled) (set_mu true tm1))).
  exists tm1, (set_mu false tm').
  destruct (registerAll_frame (set_ctx (Some cancelled) (set_mu true tm1))) as (Hc & _).
  fold tm' in Hc. cbn in Hc.
  split; [unfold Manager.UpdateConfig; by rewrite Hmu|].
  split; [done|]. split; [done|].
  split; [unfold Manager.GetTunnels; cbn; by rewrite Hmu|].
  split.
  { unfold Start. change (mu tm1) with (mu tm). rewrite Hmu. fold tm'.
    by rewrite Hc, Hauto. }
  split; [done|]. split.
  - intros name Hsome. cbn. by apply register_fold_monotone.
  - intros name Hnot. cbn.
    apply (register_fold_untouched (Config.Servers cfg)
             (set_ctx (Some cancelled) (set_mu true tm1)) name).
    intros s Hin Heq. by destruct (Hnot s Hin).
Qed.

(** *** Servers that share a name *)

(** X7.  The tunnels are keyed by the servers' names, which nothing
    requires to differ: of several enabled servers of one name, [Start]
    keeps the adapter of the last one that has an adapter, with a fresh
    ["disconnected"] status; the adapters of the earlier ones are
    dropped. *)
Theorem Start_keeps_the_last_server_of_a_name cancelled order now tm pre server post tunnel :
  Config.Servers (config tm) = pre ++ server :: post →
  Config.Enabled server = true →
  createTunnel server = Ok tunnel →
  (∀ s, s ∈ post → Config.Name s = Config.Name server → ¬ Manager.registrable s) →
  tunnels (registerAll tm) !! Config.Name server = Some tunnel
  ∧ status (registerAll tm) !! Config.Name server
    = Some (initialStatus (Config.Name server))
  ∧ (mu tm = false → Config.AutoSelect (config tm) = false →
     ∃ tm', Start adapterTest (Some cancelled) order now tm = Returns (tm', None)
            ∧ tunnels tm' !! Config.Name server = Some tunnel).
Proof.
  intros Hservers Hen Hc Hpost.
  assert (Hgen : ∀ tm0,
    tunnels (foldl registerServer tm0 (pre ++ server :: post)) !! Config.Name server
    = Some tunnel
    ∧ status (foldl registerServer tm0 (pre ++ server :: post)) !! Config.Name server
      = Some (initialStatus (Config.Name server))).
  { intros tm0. rewrite foldl_app. cbn [foldl].
    set (tm1 := registerServer (foldl registerServer tm0 pre) server).
    destruct (register_fold_untouched post tm1 (Config.Name server)) as [-> ->].
    { intros s Hin Heq Hens Hsup. by apply (Hpost s Hin Heq). }
    unfold tm1, registerServer. rewrite Hen, Hc. cbn.
    by rewrite !lookup_insert_eq. }
  split; [|split].
  - unfold registerAll. rewrite Hservers. apply Hgen.
  - unfold registerAll. rewrite Hservers. apply Hgen.
  - intros Hmu Hauto. eexists. split.
    + unfold Start. rewrite Hmu.
      destruct (registerAll_frame (set_ctx (Some cancelled) (set_mu true tm))) as (-> & _).
      cbn. by rewrite Hauto.
    + cbn. unfold registerAll. cbn. rewrite Hservers. apply Hgen.
Qed.

(** *** The states of the manager *)

Lemma aligned_stopped order tm :
  aligned tm →
  aligned (set_status (foldl (stopStep adapterStop tm) (status tm, []) order).1 tm).
Proof.
  intros Hal name. cbn. rewrite stop_fold_status. cbn.
  destruct (bool_decide _); [|apply Hal].
  rewrite fmap_is_Some. apply Hal.
Qed.

Lemma Start_invariant parent tm :
  aligned tm →
  aligned (set_mu false (registerAll (set_ctx parent (set_mu true tm)))).
Proof.
  intros Hal.
  assert (aligned (registerAll (set_ctx parent (set_mu true tm)))) as H
    by by apply registerAll_aligned.
  exact H.
Qed.

(** What every call that returns keeps: each tunnel has its status
    record, the lock is free, and a manager without context has no
    tunnel. *)
Lemma run_invariant c tm tm' err :
  aligned tm → mu tm = false → (ctx tm = None → tunnels tm = ∅) →
  Manager.run adapterStop adapterTest c tm = Returns (tm', err) →
  aligned tm' ∧ mu tm' = false ∧ (ctx tm' = None → tunnels tm' = ∅).
Proof.
  intros Hal Hmu Hctx.
  assert (Hstarted : ∀ cancelled tm0,
            ctx (set_mu false (registerAll (set_ctx (Some cancelled) (set_mu true tm0))))
            = None → False).
  { intros cancelled tm0. cbn [ctx set_mu].
    by destruct (registerAll_frame (set_ctx (Some cancelled) (set_mu true tm0)))
      as (_ & _ & -> & _). }
  destruct c as [parent order now|order|now name|order|o1 o2 now|cfg]; cbn.
  - pose proof (Start_outcome parent order now tm Hmu) as Hout.
    destruct parent as [cancelled|]; [|by rewrite Hout].
    destruct Hout as [[-> _]|[e ->]]; [done|].
    intros [= <- _]. split; [by apply Start_invariant|]. split; [done|].
    intros H. by destruct (Hstarted _ _ H).
  - unfold Stop. rewrite Hmu. intros [= <- _]. split; [|split].
    + assert (Hal1 : aligned (match ctx tm with
                              | Some _ => set_ctx (Some true) tm
                              | None => tm
                              end)) by by destruct (ctx tm).
      exact (aligned_stopped order _ Hal1).
    + cbn. by destruct (ctx tm).
    + destruct (ctx tm) eqn:Hc; cbn; [done|]. intros _. by apply Hctx.
  - unfold StartTunnel. rewrite Hmu.
    destruct (tunnels tm !! name) as [t|] eqn:Ht; [|by intros [= <- _]].
    destruct (status tm !! name) as [st|] eqn:Hst; [|done].
    intros [= <- _]. split; [|split; [done|exact Hctx]]. intros n. cbn.
    destruct (decide (name = n)) as [->|Hne].
    + rewrite lookup_insert_eq, Ht. split; eauto.
    + rewrite lookup_insert_ne by done. apply Hal.
  - unfold StopAllTunnels. rewrite Hmu. intros [= <- _].
    split; [by apply aligned_stopped|]. split; [done|exact Hctx].
  - unfold RestartTunnels, StopAllTunnels. rewrite Hmu.
    destruct (stopResult _).
    { intros [= <- _]. split; [by apply aligned_stopped|]. split; [done|exact Hctx]. }
    set (tm1 := set_status _ tm). change (ctx tm1) with (ctx tm).
    pose proof (Start_outcome (ctx tm) o2 now tm1 Hmu) as Hout.
    destruct (ctx tm) as [cancelled|]; [|by rewrite Hout].
    destruct Hout as [[-> _]|[e ->]]; [done|].
    intros [= <- _]. split; [|split; [done|]].
    + apply Start_invariant. by apply aligned_stopped.
    + intros H. by destruct (Hstarted _ _ H).
  - unfold Manager.UpdateConfig. rewrite Hmu. by intros [= <- _].
Qed.

Lemma manager_reachable_invariant tm :
  Manager.reachable adapterStop adapterTest tm →
  aligned tm ∧ mu tm = false ∧ (ctx tm = None → tunnels tm = ∅).
Proof.
  induction 1 as [cfg|c tm tm' err _ (Hal & Hmu & Hctx) Hrun].
  - split; [apply NewTunnelManager_aligned|done].
  - by eapply run_invariant.
Qed.

(** X8.  In every manager the calls of the interface can lead to, each
    tunnel has its status record and the lock is free between calls.
    So no call panics on a missing status record: a call panics exactly
    when it hands the nil context to [context.WithCancel], which
    [Start] does when it is called with nil and [RestartTunnels] when
    the manager has never been started.  The only calls that do not
    return are [Start] and [RestartTunnels] under [auto_select] (the
    goroutines that settle a tunnel's status write into existing
    records and do not change this). *)
Theorem manager_panics_only_on_a_nil_context c tm :
  Manager.reachable adapterStop adapterTest tm →
  aligned tm ∧ mu tm = false
  ∧ (Manager.run adapterStop adapterTest c tm = Panics
     ↔ match c with
       | Manager.CallStart parent _ _ => parent = None
       | Manager.CallRestartTunnels _ _ _ => ctx tm = None
       | _ => False
       end)
  ∧ (Manager.run adapterStop adapterTest c tm = Blocks →
     Config.AutoSelect (config tm) = true
     ∧ match c with
       | Manager.CallStart _ _ _ | Manager.CallRestartTunnels _ _ _ => True
       | _ => False
       end).
Proof.
  intros Hreach.
  destruct (manager_reachable_invariant tm Hreach) as (Hal & Hmu & Hctx).
  split; [done|]. split; [done|].
  destruct c as [parent order now|order|now name|order|o1 o2 now|cfg]; cbn.
  - pose proof (Start_outcome parent order now tm Hmu) as Hout.
    destruct parent as [cancelled|]; [|by rewrite Hout].
    destruct Hout as [[-> ?]|[e ->]]; done.
  - unfold Stop. by rewrite Hmu.
  - unfold StartTunnel. rewrite Hmu.
    destruct (tunnels tm !! name) eqn:Ht; [|done].
    destruct (status tm !! name) eqn:Hst; [done|].
    assert (is_Some (status tm !! name)) as [? Hs] by (apply Hal; eauto).
    by rewrite Hst in Hs.
  - unfold StopAllTunnels. by rewrite Hmu.
  - unfold RestartTunnels, StopAllTunnels. rewrite Hmu.
    set (tm1 := set_status _ tm). change (ctx tm1) with (ctx tm).
    pose proof (Start_outcome (ctx tm) o2 now tm1 Hmu) as Hout.
    destruct (ctx tm) as [cancelled|] eqn:Hc.
    + destruct (stopResult _); [done|].
      destruct Hout as [[-> ?]|[e ->]]; done.
    + rewrite stop_fold_errors, (stop_no_error adapterStop tm o1).
      * cbn [stopResult]. by rewrite Hout.
      * intros name tunnel Ht. by rewrite (Hctx eq_refl), lookup_empty in Ht.
  - unfold Manager.UpdateConfig. by rewrite Hmu.
Qed.

End ManagerFacts.

(** With the three servers measuring 80ms, 25ms and 45ms and
    [auto_select] on, [Start] does not return. *)
Lemma Start_with_auto_select_witness :
  Protocols.Start Scenario.probe_80_25_45 (Some false) ["a"; "b"; "c"] 0 Cases.threeAuto
  = Blocks.
Proof.
  destruct (Start_with_auto_select_blocks_or_fails Scenario.probe_80_25_45 false
              ["a"; "b"; "c"] 0 Cases.threeAuto) as [Hblocks _].
  - reflexivity.
  - reflexivity.
  - solve_range_order.
  - apply Hblocks. cbn. exists ["a"], "b", ["c"], (25 * Millisecond).
    split; [reflexivity|]. split; [discriminate|]. split; [reflexivity|].
    split; [reflexivity|]. split.
    + intros n l Hn. apply list_elem_of_singleton in Hn as ->.
      vm_compute. intros [= <-]. reflexivity.
    + intros n l Hn. apply list_elem_of_singleton in Hn as ->.
      vm_compute. intros [= <-]. discriminate.
Defined.

(** A hysteria and a trojan server: both are registered, none is
    selected. *)
Lemma Start_auto_select_settles_on_ssh_witness :
  ∃ tm',
    Protocols.Start (Adapters.Test Cases.ping5) (Some false) ["t"; "h"] 0
      (Protocols.NewTunnelManager Cases.noSSH)
    = Returns (tm', Some "no available servers found")
    ∧ is_Some (Protocols.tunnels tm' !! "h")
    ∧ is_Some (Protocols.tunnels tm' !! "t").
Proof.
  destruct (Start_auto_select_settles_on_ssh_servers_only Cases.ping5 false ["t"; "h"] 0
              Cases.noSSH) as (Hreg & _ & HStart).
  - done.
  - done.
  - intros s Hin _. cbn in Hin.
    apply elem_of_cons in Hin as [->|Hin]; [done|].
    apply list_elem_of_singleton in Hin as ->. done.
  - eexists. split; [exact HStart|]. split; vm_compute; eauto.
Defined.

(** An SSH server with a password, on a network that answers. *)
Lemma only_ssh_with_a_password_witness :
  Adapters.Start Cases.dialOK Cases.listenOK
    (Protocols.SSHTunnel (Scenario.server "a" "ssh")) = None
  ∧ Adapters.Start Cases.dialOK Cases.listenOK
      (Protocols.TrojanTunnel (Scenario.server "t" "trojan"))
    = Some "Trojan protocol not yet implemented".
Proof.
  split.
  - apply (only_ssh_with_a_password_can_start Cases.dialOK Cases.listenOK
             (Scenario.server "a" "ssh") _ eq_refl).
    repeat split; try done. by left.
  - done.
Defined.

(** The adapter of ["b"] fails to stop: the restart ends there.  On a
    new manager, which has no context yet, the restart panics. *)
Lemma RestartTunnels_stops_then_starts_witness :
  (∃ tm1 msg,
     Protocols.RestartTunnels Scenario.stopFailsForB Scenario.probe_80_25_45
       ["c"; "b"; "a"] ["a"; "b"; "c"] 300 Cases.tmRunning
     = Returns (tm1, Some ("errors stopping tunnels: " +:+ msg))
     ∧ Protocols.status tm1 !! "b"
       = Some (Protocols.mkTunnelStatus "b" "disconnected" 100 "" 0 0 0)
     ∧ Protocols.ctx tm1 = Protocols.ctx Cases.tmRunning)
  ∧ Protocols.RestartTunnels Scenario.stopFailsForB Scenario.probe_80_25_45 [] [] 300
      (Protocols.NewTunnelManager (Scenario.configOf Scenario.threeServers false))
    = Panics.
Proof.
  split.
  - destruct (RestartTunnels_stops_then_starts Scenario.stopFailsForB
                Scenario.probe_80_25_45 ["c"; "b"; "a"] ["a"; "b"; "c"] 300
                Cases.tmRunning eq_refl)
      as (tm1 & _ & _ & Hctx & _ & Hst & _ & Herr & _).
    { solve_range_order. }
    destruct (Herr "b" (Protocols.SSHTunnel (Scenario.server "b" "ssh")) "connection reset")
      as [msg Hmsg]; [by vm_compute..|].
    exists tm1, msg. split; [exact Hmsg|]. split; [|exact Hctx].
    apply (Hst "b" (Protocols.mkTunnelStatus "b" "connected" 100 "" 0 0 0)).
    + vm_compute. eauto.
    + by vm_compute.
  - destruct (RestartTunnels_stops_then_starts Scenario.stopFailsForB
                Scenario.probe_80_25_45 [] [] 300
                (Protocols.NewTunnelManager (Scenario.configOf Scenario.threeServers false))
                eq_refl)
      as (tm1 & _ & _ & _ & _ & _ & Hok & _).
    { solve_range_order. }
    apply Hok; [|reflexivity]. intros name tunnel Ht. by vm_compute in Ht.
Defined.

(** The three tunnels, ["b"] connected, restarted with the adapters of
    the repository: once with a live context, and once after [Stop]
    has cancelled it. *)
Lemma stopping_never_fails_witness :
  (∃ tm1,
     Protocols.StopAllTunnels Adapters.Stop ["c"; "b"; "a"] Cases.tmRunning
     = Returns (tm1, None)
     ∧ Protocols.RestartTunnels Adapters.Stop (Adapters.Test Cases.ping5)
         ["c"; "b"; "a"] ["a"; "b"; "c"] 300 Cases.tmRunning
       = Protocols.Start (Adapters.Test Cases.ping5) (Some false) ["a"; "b"; "c"] 300 tm1)
  ∧ (∃ tm1,
       Protocols.RestartTunnels Adapters.Stop (Adapters.Test Cases.ping5)
         ["c"; "b"; "a"] ["a"; "b"; "c"] 300 Cases.tmCancelled
       = Protocols.Start (Adapters.Test Cases.ping5) (Some true) ["a"; "b"; "c"] 300 tm1).
Proof.
  split.
  - destruct (stopping_never_fails_with_the_adapters (Adapters.Test Cases.ping5)
                ["c"; "b"; "a"] ["a"; "b"; "c"] 300 Cases.tmRunning eq_refl)
      as (tm1 & tm2 & H1 & _ & H3 & _).
    exists tm1. split; [exact H1|exact H3].
  - destruct (stopping_never_fails_with_the_adapters (Adapters.Test Cases.ping5)
                ["c"; "b"; "a"] ["a"; "b"; "c"] 300 Cases.tmCancelled eq_refl)
      as (tm1 & tm2 & _ & _ & H3 & _).
    exists tm1. exact H3.
Defined.

(** The manager of ["a"], ["b"] and ["c"] is given a configuration that
    keeps ["a"] only: ["b"] stays registered. *)
Lemma UpdateConfig_and_Start_witness :
  ∃ tm1 tm2,
    Manager.UpdateConfig Cases.onlyA Scenario.tmThree = Returns (tm1, None)
    ∧ Protocols.Start Scenario.probe_80_25_45 (Some false) ["a"; "b"; "c"] 7 tm1 = Returns (tm2, None)
    ∧ (Config.Name <$> Config.Servers (Protocols.config tm2)) = ["a"]
    ∧ Protocols.tunnels tm2 !! "b" = Protocols.tunnels Scenario.tmThree !! "b"
    ∧ is_Some (Protocols.tunnels tm2 !! "b").
Proof.
  destruct (UpdateConfig_and_Start_never_unregister Scenario.probe_80_25_45 false
              ["a"; "b"; "c"] 7 Cases.onlyA Scenario.tmThree eq_refl eq_refl)
    as (tm1 & tm2 & H1 & _ & _ & _ & H2 & _ & Hmono & Hkeep).
  exists tm1, tm2. split; [exact H1|]. split; [exact H2|].
  split.
  { unfold Manager.UpdateConfig in H1. cbn in H1. injection H1 as <-.
    unfold Protocols.Start in H2. cbn in H2. injection H2 as <-. done. }
  split.
  - apply Hkeep. intros s Hin. cbn in Hin.
    apply list_elem_of_singleton in Hin as ->. done.
  - apply Hmono. vm_compute. eauto.
Defined.

(** Two servers named ["a"], the first over SSH and the second over
    trojan: the trojan adapter is the one registered. *)
Lemma Start_keeps_the_last_server_witness :
  Protocols.tunnels (Protocols.registerAll (Protocols.NewTunnelManager Cases.twoOfAName))
    !! "a"
  = Some (Protocols.TrojanTunnel (Scenario.server "a" "trojan")).
Proof.
  destruct (Start_keeps_the_last_server_of_a_name Scenario.probe_80_25_45 false [] 0
              (Protocols.NewTunnelManager Cases.twoOfAName)
              [Scenario.server "a" "ssh"] (Scenario.server "a" "trojan") []
              (Protocols.TrojanTunnel (Scenario.server "a" "trojan")))
    as (H & _); [done..| |exact H].
  intros s Hin. by apply elem_of_nil in Hin.
Defined.

(** The manager of the three servers after [Start]: starting a tunnel
    does not panic.  A new manager: restarting it panics. *)
Lemma manager_panics_only_on_a_nil_context_witness :
  Manager.reachable Scenario.stopFailsForB Scenario.probe_80_25_45 Cases.tmStarted
  ∧ Protocols.aligned Cases.tmStarted
  ∧ Manager.run Scenario.stopFailsForB Scenario.probe_80_25_45
      (Manager.CallStartTunnel 5 "a") Cases.tmStarted ≠ Panics
  ∧ Manager.run Scenario.stopFailsForB Scenario.probe_80_25_45
      (Manager.CallRestartTunnels ["a"; "b"; "c"] ["a"; "b"; "c"] 5)
      (Protocols.NewTunnelManager (Scenario.configOf Scenario.threeServers false))
    = Panics.
Proof.
  assert (Hnew : Manager.reachable Scenario.stopFailsForB Scenario.probe_80_25_45
                   (Protocols.NewTunnelManager
                      (Scenario.configOf Scenario.threeServers false)))
    by apply Manager.reach_New.
  assert (Hreach : Manager.reachable Scenario.stopFailsForB Scenario.probe_80_25_45
                     Cases.tmStarted).
  { eapply (Manager.reach_call _ _ (Manager.CallStart (Some false) [] 0)).
    - exact Hnew.
    - reflexivity. }
  destruct (manager_panics_only_on_a_nil_context Scenario.stopFailsForB
              Scenario.probe_80_25_45 (Manager.CallStartTunnel 5 "a") _ Hreach)
    as (Hal & _ & Hnp & _).
  destruct (manager_panics_only_on_a_nil_context Scenario.stopFailsForB
              Scenario.probe_80_25_45
              (Manager.CallRestartTunnels ["a"; "b"; "c"] ["a"; "b"; "c"] 5) _ Hnew)
    as (_ & _ & Hp & _).
  split; [exact Hreach|]. split; [exact Hal|]. split.
  - intros H. by apply Hnp in H.
  - apply Hp. reflexivity.
Defined.

(** ** The overlay: allocation, invariants, status and connections *)

Section OverlayFacts.

Import Mesh.

Variable ParseCIDR : string → result Net.IPNet.

(** *** The address [assignMeshIP] returns *)

(** The loop returns the first candidate that is not in use. *)
Lemma assignMeshIP_loop_first fuel mn ip0 ip :
  assignMeshIP_loop fuel mn ip0 = Some ip →
  ∃ k, (1 ≤ k ≤ fuel)%nat
       ∧ ip = Net.ipString (Nat.iter k Net.nextIP ip0)
       ∧ ∀ j, (1 ≤ j < k)%nat →
              isIPUsed mn (Net.ipString (Nat.iter j Net.nextIP ip0)) = true.
Proof.
  revert ip0. induction fuel as [|fuel IH]; intros ip0; [done|].
  cbn [assignMeshIP_loop].
  destruct (isIPUsed mn (Net.ipString (Net.nextIP ip0))) eqn:Hused; cbn [negb].
  - intros Hloop. destruct (IH _ Hloop) as (k & Hk & -> & Hbefore).
    exists (S k). split; [lia|]. split; [by rewrite Nat.iter_succ_r|].
    intros [|[|j]] Hj; [lia|done|].
    rewrite Nat.iter_succ_r. apply Hbefore. lia.
  - intros [= <-]. exists 1%nat. split; [lia|]. split; [done|]. intros j Hj. lia.
Qed.

(** X9.  On an IPv4 block that parses, [assignMeshIP] returns the first
    address after the network address, counting upwards modulo [2^32],
    that no node of the registry holds.  It returns within one round
    more than there are nodes, and nothing in it compares the address
    with the block.  [AddServer] and [Initialize] give that address to
    the node they register, and never fail. *)
Theorem assignMeshIP_takes_the_first_unused_address mn network :
  ParseCIDR (NetworkCIDR (config mn)) = Ok network →
  length (Net.netIP network) = 4%nat → Net.valid (Net.netIP network) →
  Z.of_nat (size (nodes mn)) < 2 ^ 32 →
  ∃ k, (1 ≤ k ≤ S (size (nodes mn)))%nat
    ∧ let ip := Nat.iter k Net.nextIP (Net.netIP network) in
      (∀ fuel, (S (size (nodes mn)) ≤ fuel)%nat →
         assignMeshIP ParseCIDR fuel mn = Some (Ok (Net.ipString ip)))
      ∧ Net.toZ ip = (Net.toZ (Net.netIP network) + Z.of_nat k) mod 2 ^ 32
      ∧ isIPUsed mn (Net.ipString ip) = false
      ∧ (∀ j, (1 ≤ j < k)%nat →
           isIPUsed mn (Net.ipString (Nat.iter j Net.nextIP (Net.netIP network))) = true)
      ∧ (∀ nanos now serverConfig,
           ∃ mn' node,
             AddServer ParseCIDR (S (size (nodes mn))) nanos now serverConfig mn
             = Some (mn', Ok node)
             ∧ MeshIP node = Net.ipString ip
             ∧ nodes mn' !! generateNodeID nanos = Some node)
      ∧ (∀ nanos now,
           ∃ mn' node,
             Initialize ParseCIDR (S (size (nodes mn))) nanos now mn = Some (mn', None)
             ∧ localNode mn' = Some (generateNodeID nanos)
             ∧ nodes mn' !! generateNodeID nanos = Some node
             ∧ MeshIP node = Net.ipString ip).
Proof.
  intros Hparse Hlen Hv Hsize.
  destruct (assignMeshIP_loop_returns mn _ Hlen Hv Hsize) as [ip Hloop].
  destruct (assignMeshIP_loop_first _ _ _ _ Hloop) as (k & Hk & -> & Hbefore).
  exists k. split; [done|]. cbn zeta.
  assert (Hassign : assignMeshIP ParseCIDR (S (size (nodes mn))) mn
            = Some (Ok (Net.ipString (Nat.iter k Net.nextIP (Net.netIP network))))).
  { unfold assignMeshIP. by rewrite Hparse, Hloop. }
  split; [|split; [|split; [|split; [|split]]]].
  - intros fuel Hfuel. unfold assignMeshIP. rewrite Hparse.
    replace fuel with (S (size (nodes mn)) + (fuel - S (size (nodes mn))))%nat by lia.
    by rewrite (assignMeshIP_loop_more_fuel _ _ _ _ _ Hloop).
  - destruct (nextIP_iter (Net.netIP network) k Hv) as (_ & _ & ->). by rewrite Hlen.
  - by eapply assignMeshIP_loop_unused.
  - exact Hbefore.
  - intros nanos now serverConfig. unfold AddServer. rewrite Hassign. cbn.
    eexists _, _. split; [reflexivity|]. split; [done|]. cbn. by rewrite lookup_insert_eq.
  - intros nanos now. unfold Initialize, createLocalNode. rewrite Hassign. cbn.
    eexists _, _. split; [reflexivity|]. split; [done|]. cbn.
    split; [by rewrite lookup_insert_eq|done].
Qed.

(** *** What holds in every overlay *)

Lemma insert_unused mn key node :
  uniqueAddresses mn → isIPUsed mn (MeshIP node) = false →
  uniqueAddresses (mkMeshNetwork (<[key := node]> (nodes mn)) (localNode mn) (config mn)).
Proof.
  intros Huniq Hfree k1 k2 n1 n2. cbn.
  assert (Hno : ∀ k n, nodes mn !! k = Some n → MeshIP n ≠ MeshIP node).
  { intros k n Hn Hip. apply not_true_iff_false in Hfree. apply Hfree.
    apply isIPUsed_spec. eauto. }
  destruct (decide (k1 = key)) as [->|H1]; destruct (decide (k2 = key)) as [->|H2].
  - done.
  - rewrite lookup_insert_eq, lookup_insert_ne by done. intros [= <-] Hn2 Hip.
    by destruct (Hno k2 n2 Hn2).
  - rewrite lookup_insert_eq, lookup_insert_ne by done. intros Hn1 [= <-] Hip.
    by destruct (Hno k1 n1 Hn1).
  - rewrite !lookup_insert_ne by done. apply Huniq.
Qed.

Lemma performHealthCheck_config probe clock order mn :
  config (performHealthCheck probe clock order mn) = config mn.
Proof.
  unfold performHealthCheck. revert mn.
  induction order as [|a order IH]; intros mn; [done|]. cbn [foldl].
  rewrite IH. by destruct (healthStep_frame probe clock mn a).
Qed.

Lemma overlay_reachable_invariant cfg mn :
  MeshOps.reachable ParseCIDR cfg mn → MeshOps.invariant cfg mn.
Proof.
  induction 1 as [|fuel nanos now mn mn' err _ IH Hinit
                  |fuel nanos now serverConfig mn mn' r _ IH Hadd
                  |elapsed clock order mn _ IH Horder].
  - split; [done|]. split; [|split; [|split]].
    + intros key node. cbn. by rewrite lookup_empty.
    + intros k1 k2 n1 n2. cbn. by rewrite lookup_empty.
    + intros key node. cbn. by rewrite lookup_empty.
    + done.
  - destruct IH as (Hcfg & Hkey & Huniq & Hon & Hloc).
    unfold Initialize, createLocalNode, assignMeshIP in Hinit. cbn in Hinit.
    destruct (ParseCIDR _) as [network|e]; [|by injection Hinit as <- _].
    destruct (assignMeshIP_loop _ _ _) as [ip|] eqn:Hloop; [|done].
    apply assignMeshIP_loop_unused in Hloop. cbn in Hinit. injection Hinit as <- _.
    split; [done|]. split; [|split; [|split]].
    + intros key node. cbn. destruct (decide (key = generateNodeID nanos)) as [->|Hne].
      * rewrite lookup_insert_eq. by intros [= <-].
      * rewrite lookup_insert_ne by done. apply Hkey.
    + intros k1 k2 n1 n2.
      refine (insert_unused mn (generateNodeID nanos) _ Huniq _ k1 k2 n1 n2). done.
    + intros key node. cbn. destruct (decide (key = generateNodeID nanos)) as [->|Hne].
      * rewrite lookup_insert_eq. by intros [= <-].
      * rewrite lookup_insert_ne by done. apply Hon.
    + intros key. cbn. intros [= <-]. rewrite lookup_insert_eq. eauto.
  - destruct IH as (Hcfg & Hkey & Huniq & Hon & Hloc).
    unfold AddServer, assignMeshIP in Hadd. cbn in Hadd.
    destruct (ParseCIDR _) as [network|e]; [|by injection Hadd as <- _].
    destruct (assignMeshIP_loop _ _ _) as [ip|] eqn:Hloop; [|done].
    apply assignMeshIP_loop_unused in Hloop. cbn in Hadd. injection Hadd as <- _.
    split; [done|]. split; [|split; [|split]].
    + intros key node. cbn. destruct (decide (key = generateNodeID nanos)) as [->|Hne].
      * rewrite lookup_insert_eq. by intros [= <-].
      * rewrite lookup_insert_ne by done. apply Hkey.
    + intros k1 k2 n1 n2.
      refine (insert_unused mn (generateNodeID nanos) _ Huniq _ k1 k2 n1 n2). done.
    + intros key node. cbn. destruct (decide (key = generateNodeID nanos)) as [->|Hne].
      * rewrite lookup_insert_eq. by intros [= <-].
      * rewrite lookup_insert_ne by done. apply Hon.
    + intros key. cbn. case_bool_decide as Hl; [done|]. intros Hk.
      destruct (decide (key = generateNodeID nanos)) as [->|Hne]; [by destruct Hl|].
      rewrite lookup_insert_ne by done. by apply Hloc.
  - destruct IH as (Hcfg & Hkey & Huniq & Hon & Hloc).
    pose proof (range_order_NoDup _ _ Horder) as Hnd.
    set (probe := λ node, pingNode (elapsed node) node).
    assert (Hlook : ∀ k node', nodes (performHealthCheck probe clock order mn) !! k
                                = Some node' →
              ∃ node, nodes mn !! k = Some node ∧ ID node' = ID node
                      ∧ MeshIP node' = MeshIP node ∧ Status node' = "online").
    { intros k node'. unfold performHealthCheck.
      destruct (health_fold probe clock mn order k Hnd) as [_ ->].
      case_bool_decide.
      - destruct (nodes mn !! k) as [node|] eqn:Hn; [|done]. cbn. intros [= <-].
        exists node. split; [done|]. unfold probe, pingNode, checkNode.
        by case_bool_decide; destruct node.
      - intros Hn. exists node'. split; [done|]. split; [done|]. split; [done|].
        by eapply Hon. }
    split; [by rewrite performHealthCheck_config|]. split; [|split; [|split]].
    + intros key node' Hn. destruct (Hlook _ _ Hn) as (node & Hn0 & -> & _).
      by eapply Hkey.
    + intros k1 k2 n1 n2 H1 H2 Hip.
      destruct (Hlook _ _ H1) as (m1 & Hm1 & _ & Hip1 & _).
      destruct (Hlook _ _ H2) as (m2 & Hm2 & _ & Hip2 & _).
      eapply Huniq; [done..|]. congruence.
    + intros key node' Hn. by destruct (Hlook _ _ Hn) as (node & _ & _ & _ & ?).
    + intros key. unfold performHealthCheck.
      destruct (health_fold probe clock mn order key Hnd) as [-> ->].
      intros Hl. rewrite bool_decide_eq_false_2 by (by intros [_ ?]). by apply Hloc.
Qed.

(** *** The status of the overlay *)

Lemma countStep_fold mn order acc :
  foldl (MeshOps.countStep mn) acc order
  = (acc.1 + Z.of_nat (length (filter (λ key, Status <$> nodes mn !! key = Some "online")
                                      order)),
     acc.2 + Z.of_nat (length (filter (λ key, is_Some (nodes mn !! key)
                                              ∧ Status <$> nodes mn !! key ≠ Some "online")
                                      order))).
Proof.
  revert acc. induction order as [|key order IH]; intros [on off]; cbn [foldl].
  { cbn. f_equal; lia. }
  rewrite IH. rewrite !filter_cons. unfold MeshOps.countStep.
  destruct (nodes mn !! key) as [node|] eqn:Hn; cbn [fmap option_fmap option_map fst snd].
  - destruct (decide (Status node = "online")) as [Hon|Hoff].
    + rewrite (bool_decide_eq_true_2 _ Hon).
      rewrite decide_True by (by rewrite Hon).
      rewrite decide_False by (intros [_ Hne]; apply Hne; by rewrite Hon).
      cbn [fst snd length]. f_equal; lia.
    + rewrite (bool_decide_eq_false_2 _ Hoff).
      rewrite decide_False by (by intros [= ?]).
      rewrite decide_True by (split; [by eauto|by intros [= ?]]).
      cbn [fst snd length]. f_equal; lia.
  - rewrite decide_False by done.
    rewrite decide_False by (intros [[? ?] _]; done).
    done.
Qed.

Lemma filter_keys_length {A} (P : A → Prop) `{!∀ x, Decision (P x)}
    (Q : string → Prop) `{!∀ k, Decision (Q k)} (l : list (string * A)) :
  (∀ k x, (k, x) ∈ l → (Q k ↔ P x)) →
  length (filter Q l.*1) = length (filter (λ kx, P kx.2) l).
Proof.
  induction l as [|[k x] l IH]; intros HQ; [done|].
  rewrite fmap_cons, !filter_cons. cbn [fst snd].
  destruct (decide (Q k)) as [Hq|Hq].
  - rewrite decide_True by (by apply (HQ k x); [left|]).
    cbn [length]. f_equal. apply IH. intros k' x' Hin. apply HQ. by right.
  - rewrite decide_False by (intros Hp; apply Hq; by apply (HQ k x); [left|]).
    apply IH. intros k' x' Hin. apply HQ. by right.
Qed.

(** X10.  [GetNetworkStatus] counts as online the nodes whose status is
    ["online"] and as offline every other node, those still
    ["connecting"] included; the two counts add up to the number of
    nodes, and no count depends on the order in which the map is
    visited. *)
Theorem GetNetworkStatus_counts order mn :
  range_order (nodes mn) order →
  let s := MeshOps.GetNetworkStatus order mn in
  MeshOps.total_nodes s = Z.of_nat (size (nodes mn))
  ∧ MeshOps.online_nodes s
    = Z.of_nat (length (filter (λ kn, Status kn.2 = "online") (map_to_list (nodes mn))))
  ∧ MeshOps.offline_nodes s
    = Z.of_nat (length (filter (λ kn, Status kn.2 ≠ "online") (map_to_list (nodes mn))))
  ∧ MeshOps.online_nodes s + MeshOps.offline_nodes s = MeshOps.total_nodes s.
Proof.
  intros Horder s. unfold range_order in Horder.
  assert (Hon : MeshOps.online_nodes s
    = Z.of_nat (length (filter (λ kn, Status kn.2 = "online") (map_to_list (nodes mn))))).
  { unfold s, MeshOps.GetNetworkStatus. cbn. rewrite countStep_fold. cbn [fst snd].
    rewrite Z.add_0_l. f_equal. rewrite Horder.
    refine (filter_keys_length (λ node : MeshNode, Status node = "online") _ _ _).
    intros k x Hin. apply elem_of_map_to_list in Hin. rewrite Hin. cbn.
    split; [by intros [= ?]|by intros ->]. }
  assert (Hoff : MeshOps.offline_nodes s
    = Z.of_nat (length (filter (λ kn, Status kn.2 ≠ "online") (map_to_list (nodes mn))))).
  { unfold s, MeshOps.GetNetworkStatus. cbn. rewrite countStep_fold. cbn [fst snd].
    rewrite Z.add_0_l. f_equal. rewrite Horder.
    refine (filter_keys_length (λ node : MeshNode, Status node ≠ "online") _ _ _).
    intros k x Hin. apply elem_of_map_to_list in Hin. rewrite Hin. cbn.
    split.
    - intros [_ Hne] Heq. apply Hne. by rewrite Heq.
    - intros Hne. split; [by eauto|]. by intros [= ?]. }
  split; [done|]. split; [done|]. split; [done|].
  rewrite Hon, Hoff. cbn.
  rewrite <- Nat2Z.inj_add, <- length_app.
  rewrite (filter_app_complement (λ kn : string * MeshNode, Status kn.2 = "online")).
  by rewrite length_map_to_list.
Qed.

(** X11.  Whatever sequence of [Initialize], [AddServer] and health
    checks has run on a new overlay: every node is stored under its own
    id, no two nodes have the same virtual address, the local node is a
    node of the registry, and every node is online.  No node is ever
    offline, because [probeNode] and [pingNode] cannot fail; so
    [GetNetworkStatus] always reports zero offline nodes. *)
Theorem every_overlay_keeps_its_invariants cfg order mn :
  MeshOps.reachable ParseCIDR cfg mn →
  range_order (nodes mn) order →
  MeshOps.invariant cfg mn
  ∧ MeshOps.offline_nodes (MeshOps.GetNetworkStatus order mn) = 0
  ∧ MeshOps.online_nodes (MeshOps.GetNetworkStatus order mn) = Z.of_nat (size (nodes mn)).
Proof.
  intros Hreach Horder.
  pose proof (overlay_reachable_invariant cfg mn Hreach) as Hinv.
  split; [done|]. destruct Hinv as (_ & _ & _ & Hon & _).
  assert (Hoff : MeshOps.offline_nodes (MeshOps.GetNetworkStatus order mn) = 0).
  { unfold MeshOps.GetNetworkStatus. cbn. rewrite countStep_fold. cbn.
    assert (Hnone : ∀ l, filter (λ key, is_Some (nodes mn !! key)
                           ∧ Status <$> nodes mn !! key ≠ Some "online") l = []).
    { intros l. induction l as [|k l IHl]; [done|].
      rewrite filter_cons. rewrite decide_False; [done|].
      intros [[node Hn] Hne]. rewrite Hn in Hne. cbn in Hne.
      by rewrite (Hon _ _ Hn) in Hne. }
    by rewrite Hnone. }
  split; [done|].
  unfold MeshOps.GetNetworkStatus in *. cbn in *. rewrite countStep_fold in *. cbn in *.
  assert (Hall : filter (λ key, Status <$> nodes mn !! key = Some "online") order = order).
  { assert (Hin : ∀ key, key ∈ order → is_Some (nodes mn !! key))
      by (intros key; apply (range_order_elem _ _ _ Horder)).
    clear Horder Hoff. induction order as [|key order' IH]; [done|].
    rewrite filter_cons. destruct (Hin key ltac:(left)) as [node Hn].
    rewrite decide_True by (rewrite Hn; cbn; by rewrite (Hon _ _ Hn)).
    f_equal. apply IH. intros k Hk. apply Hin. by right. }
  rewrite Hall. f_equal. unfold range_order in Horder.
  by rewrite Horder, length_fmap, length_map_to_list.
Qed.

(** *** Connecting to a node *)

(** X12.  [ConnectToNode] on a node [AddServer] has just registered.
    A protocol named by the caller is used without a look at what the
    node speaks; any other protocol name leaves the choice to
    [connectViaBestProtocol], which knows the server's transport only
    when it is ["wireguard"], ["ssh"] or ["v2ray"]: a server added with
    another transport (trojan, hysteria, vless, vmess) has no suitable
    protocol. *)
Theorem ConnectToNode_after_AddServer fuel nanos now serverConfig mn mn' node protocol :
  AddServer ParseCIDR fuel nanos now serverConfig mn = Some (mn', Ok node) →
  MeshOps.ConnectToNode (ID node) protocol mn'
  = if bool_decide (protocol = "wireguard") then Ok "WireGuard"
    else if bool_decide (protocol = "ssh") then Ok "SSH"
    else if bool_decide (protocol = "v2ray") then Ok "V2Ray"
    else if bool_decide (Config.Transport serverConfig = "wireguard") then Ok "WireGuard"
    else if bool_decide (Config.Transport serverConfig = "ssh") then Ok "SSH"
    else if bool_decide (Config.Transport serverConfig = "v2ray") then Ok "V2Ray"
    else Err "no suitable protocol found".
Proof.
  unfold AddServer. destruct (assignMeshIP _ _ _) as [[ip|e]|]; [|done..].
  cbn. intros [= <- <-]. unfold MeshOps.ConnectToNode. cbn.
  rewrite lookup_insert_eq. cbn.
  unfold MeshOps.connectViaBestProtocol, MeshOps.connectViaWireGuard,
    MeshOps.connectViaSSH, MeshOps.connectViaV2Ray. cbn.
  rewrite !orb_false_r. done.
Qed.

Lemma ConnectToNode_online key node protocol mn :
  nodes mn !! key = Some node → Status node = "online" →
  MeshOps.ConnectToNode key protocol mn
  = if bool_decide (protocol = "wireguard") then Ok "WireGuard"
    else if bool_decide (protocol = "ssh") then Ok "SSH"
    else if bool_decide (protocol = "v2ray") then Ok "V2Ray"
    else MeshOps.connectViaBestProtocol node.
Proof.
  intros Hn Hon. unfold MeshOps.ConnectToNode. rewrite Hn.
  by rewrite bool_decide_eq_false_2 by (intros Hne; by apply Hne).
Qed.

(** X13.  A node returned by [GetBestNode], [GetNodesByRegion] or
    [GetNodesByTag] can be handed to [ConnectToNode] by its id, as the
    command line does with the protocol ["ssh"]: in an overlay whose
    nodes are stored under their ids the node is found and is online,
    so the call cannot fail for the protocols ["wireguard"], ["ssh"]
    and ["v2ray"]. *)
Theorem selected_nodes_accept_connections order criteria region tag mn node :
  MeshOps.keyedByID mn →
  GetBestNode order criteria mn = Ok node
  ∨ node ∈ GetNodesByRegion order region mn
  ∨ node ∈ GetNodesByTag order tag mn →
  nodes mn !! ID node = Some node
  ∧ Status node = "online"
  ∧ MeshOps.ConnectToNode (ID node) "ssh" mn = Ok "SSH"
  ∧ MeshOps.ConnectToNode (ID node) "wireguard" mn = Ok "WireGuard"
  ∧ MeshOps.ConnectToNode (ID node) "v2ray" mn = Ok "V2Ray"
  ∧ ∀ protocol, protocol ∉ ["wireguard"; "ssh"; "v2ray"] →
      MeshOps.ConnectToNode (ID node) protocol mn = MeshOps.connectViaBestProtocol node.
Proof.
  clear ParseCIDR.
  intros Hkey Hsel.
  assert (∃ key, nodes mn !! key = Some node ∧ Status node = "online")
    as (key & Hn & Hon).
  { destruct Hsel as [Hbest|[Hreg|Htag]].
    - unfold GetBestNode in Hbest.
      destruct (bestNode_fold mn criteria order) as [[Hr _]|(key & best & Hr & _ & Hel & _)];
        rewrite Hr in Hbest; [done|].
      injection Hbest as <-. destruct Hel as (Hn & Hon & _). eauto.
    - apply list_elem_of_omap in Hreg as (key & _ & Hk).
      destruct (nodes mn !! key) as [n|] eqn:Hn; [|done]. cbn in Hk.
      destruct (bool_decide (Region n = region)); [|done].
      case_bool_decide as Hon; [|done]. cbn in Hk. injection Hk as <-. eauto.
    - apply list_elem_of_omap in Htag as (key & _ & Hk).
      destruct (nodes mn !! key) as [n|] eqn:Hn; [|done]. cbn in Hk.
      case_bool_decide as Hon; [|done].
      destruct (containsString (Tags n) tag); [|done]. cbn in Hk.
      injection Hk as <-. eauto. }
  rewrite (Hkey _ _ Hn). split; [done|]. split; [done|].
  rewrite !(ConnectToNode_online key node _ mn Hn Hon). cbn.
  do 3 (split; [done|]). intros protocol Hp.
  rewrite (ConnectToNode_online key node _ mn Hn Hon).
  rewrite !bool_decide_eq_false_2; [done|..];
    intros ->; apply Hp; set_solver.
Qed.

(** *** Load balancing: the node returned *)

Lemma getHealthyNodes_elem order mn node :
  node ∈ getHealthyNodes order mn ↔ ∃ key, key ∈ order ∧ eligible mn key node.
Proof.
  unfold getHealthyNodes. rewrite list_elem_of_omap. split.
  - intros (key & Hin & Hk). exists key. split; [done|].
    destruct (nodes mn !! key) as [n|] eqn:Hn; [|done]. cbn in Hk.
    destruct (skipped mn key n) eqn:Hs; [done|]. injection Hk as <-.
    by apply skipped_false.
  - intros (key & Hin & Hel). exists key. split; [done|].
    destruct Hel as (Hn & Hrest). rewrite Hn. cbn.
    by rewrite (proj2 (skipped_false mn key node Hn)).
Qed.

Lemma latencyBasedSelect_fold l :
  let r := foldl (λ (acc : option MeshNode * Z) node,
                    if Latency node <? acc.2 then (Some node, Latency node) else acc)
                 (None, Hour) l in
  (r = (None, Hour) ∧ ∀ m, m ∈ l → Hour ≤ Latency m)
  ∨ ∃ n, r = (Some n, Latency n) ∧ n ∈ l ∧ Latency n < Hour
         ∧ ∀ m, m ∈ l → Latency n ≤ Latency m.
Proof.
  induction l as [|x l IH] using rev_ind; intros r.
  { left. split; [done|]. intros m Hm. by apply elem_of_nil in Hm. }
  unfold r. rewrite foldl_app. cbn [foldl].
  destruct IH as [[-> Hall]|(n & -> & Hin & Hlt & Hmin)]; cbn [snd].
  - destruct (Z.ltb_spec (Latency x) Hour) as [Hx|Hx].
    + right. exists x. split; [done|]. split; [set_solver|]. split; [done|].
      intros m Hm. apply elem_of_app in Hm as [Hm|Hm].
      * specialize (Hall m Hm). lia.
      * apply list_elem_of_singleton in Hm as ->. lia.
    + left. split; [done|]. intros m Hm. apply elem_of_app in Hm as [Hm|Hm]; [by apply Hall|].
      by apply list_elem_of_singleton in Hm as ->.
  - right. destruct (Z.ltb_spec (Latency x) (Latency n)) as [Hx|Hx].
    + exists x. split; [done|]. split; [set_solver|]. split; [lia|].
      intros m Hm. apply elem_of_app in Hm as [Hm|Hm].
      * specialize (Hmin m Hm). lia.
      * apply list_elem_of_singleton in Hm as ->. lia.
    + exists n. split; [done|]. split; [set_solver|]. split; [done|].
      intros m Hm. apply elem_of_app in Hm as [Hm|Hm]; [by apply Hmin|].
      by apply list_elem_of_singleton in Hm as ->.
Qed.

Lemma leastConnectionsSelect_fold l :
  let r := foldl (λ (acc : option MeshNode * float) node,
                    if (LoadScore node <? acc.2)%float
                    then (Some node, LoadScore node) else acc)
                 (None, 1%float) l in
  (r = (None, 1%float) ∧ ∀ m, m ∈ l → (LoadScore m <? 1)%float = false)
  ∨ ∃ n, r = (Some n, LoadScore n) ∧ n ∈ l ∧ (LoadScore n <? 1)%float = true
         ∧ ∀ m, m ∈ l → (LoadScore m <? LoadScore n)%float = false.
Proof.
  induction l as [|x l IH] using rev_ind; intros r.
  { left. split; [done|]. intros m Hm. by apply elem_of_nil in Hm. }
  unfold r. rewrite foldl_app. cbn [foldl].
  destruct IH as [[-> Hall]|(n & -> & Hin & Hlt & Hmin)]; cbn [snd].
  - destruct (LoadScore x <? 1)%float eqn:Hx.
    + right. exists x. split; [done|]. split; [set_solver|]. split; [done|].
      intros m Hm. apply elem_of_app in Hm as [Hm|Hm].
      * destruct (LoadScore m <? LoadScore x)%float eqn:Hmx; [|done].
        pose proof (Hall m Hm) as Hm1.
        by rewrite (float_ltb_trans _ _ _ Hmx Hx) in Hm1.
      * apply list_elem_of_singleton in Hm as ->. apply float_ltb_irrefl.
    + left. split; [done|]. intros m Hm. apply elem_of_app in Hm as [Hm|Hm]; [by apply Hall|].
      by apply list_elem_of_singleton in Hm as ->.
  - right. destruct (LoadScore x <? LoadScore n)%float eqn:Hx.
    + exists x. split; [done|]. split; [set_solver|].
      split; [by apply (float_ltb_trans _ _ _ Hx Hlt)|].
      intros m Hm. apply elem_of_app in Hm as [Hm|Hm].
      * destruct (LoadScore m <? LoadScore x)%float eqn:Hmx; [|done].
        pose proof (Hmin m Hm) as Hm1.
        by rewrite (float_ltb_trans _ _ _ Hmx Hx) in Hm1.
      * apply list_elem_of_singleton in Hm as ->. apply float_ltb_irrefl.
    + exists n. split; [done|]. split; [set_solver|]. split; [done|].
      intros m Hm. apply elem_of_app in Hm as [Hm|Hm]; [by apply Hmin|].
      by apply list_elem_of_singleton in Hm as ->.
Qed.

(** X14.  When [LoadBalance] returns a node, it is a healthy one (online
    and not the local node) chosen as the policy says.  Under
    ["round_robin"] it is the node at position [second mod n] of the
    [n] healthy nodes, where [second] is the second within the current
    minute: a node is always returned, and never one at position 60 or
    beyond.  Under
    ["least_connections"] it is a healthy node of the least load score,
    provided some healthy node's load score is below 1.  Under any
    other policy it is a healthy node of the least latency, provided
    some healthy node's latency is below one hour.  With no healthy
    node the call fails. *)
Theorem LoadBalance_returns_a_healthy_node order second target mn :
  let healthy := getHealthyNodes order mn in
  (∀ n, n ∈ healthy ↔ ∃ key, key ∈ order ∧ eligible mn key n)
  ∧ (healthy = [] → LoadBalance order second target mn = Err "no healthy nodes available")
  ∧ (healthy ≠ [] → LoadBalancing (config mn) = "round_robin" → 0 ≤ second < 60 →
     ∃ n, LoadBalance order second target mn = Ok (Some n)
          ∧ healthy !! Z.to_nat (second mod Z.of_nat (length healthy)) = Some n
          ∧ n ∈ healthy
          ∧ (Z.to_nat (second mod Z.of_nat (length healthy)) < 60)%nat)
  ∧ (LoadBalancing (config mn) = "least_connections" →
     (∃ m, m ∈ healthy ∧ (LoadScore m <? 1)%float = true) →
     ∃ n, LoadBalance order second target mn = Ok (Some n)
          ∧ n ∈ healthy
          ∧ ∀ m, m ∈ healthy → (LoadScore m <? LoadScore n)%float = false)
  ∧ (LoadBalancing (config mn) ≠ "round_robin" →
     LoadBalancing (config mn) ≠ "least_connections" →
     (∃ m, m ∈ healthy ∧ Latency m < Hour) →
     ∃ n, LoadBalance order second target mn = Ok (Some n)
          ∧ n ∈ healthy
          ∧ ∀ m, m ∈ healthy → Latency n ≤ Latency m).
Proof.
  intros healthy. split; [intros n; apply getHealthyNodes_elem|].
  assert (Hne : ∀ m, m ∈ healthy →
            bool_decide (length (getHealthyNodes order mn) = 0%nat) = false).
  { intros m Hm. apply bool_decide_eq_false. intros Hlen.
    apply nil_length_inv in Hlen. fold healthy in Hlen. rewrite Hlen in Hm.
    by apply elem_of_nil in Hm. }
  split; [|split; [|split]].
  - intros Hnil. unfold LoadBalance. fold healthy. by rewrite Hnil.
  - intros Hnonempty Hpolicy Hsec. unfold LoadBalance. fold healthy.
    rewrite bool_decide_eq_false_2 by (intros Hlen; by apply nil_length_inv in Hlen).
    rewrite Hpolicy. cbn. unfold roundRobinSelect.
    destruct healthy as [|h0 rest] eqn:Hh; [done|].
    set (i := Z.to_nat (second mod Z.of_nat (length (h0 :: rest)))).
    assert (Hi : (i < length (h0 :: rest))%nat).
    { unfold i. cbn [length]. apply Nat2Z.inj_lt. rewrite Z2Nat.id.
      - apply Z.mod_pos_bound. lia.
      - apply Z.mod_pos_bound. lia. }
    destruct (lookup_lt_is_Some_2 _ _ Hi) as [n Hn].
    exists n. split; [by rewrite Hn|]. split; [done|].
    split; [by apply list_elem_of_lookup_2 in Hn|].
    unfold i. cbn [length].
    assert (second mod Z.of_nat (S (length rest)) ≤ second) by (apply Z.mod_le; lia).
    assert (0 ≤ second mod Z.of_nat (S (length rest))) by (apply Z.mod_pos_bound; lia).
    lia.
  - intros Hpolicy (m & Hm & Hlt). unfold LoadBalance. rewrite (Hne m Hm), Hpolicy. cbn.
    unfold leastConnectionsSelect. fold healthy.
    destruct (leastConnectionsSelect_fold healthy) as [[_ Hall]|(n & -> & Hin & _ & Hmin)].
    + pose proof (Hall m Hm) as Hm1. by rewrite Hlt in Hm1.
    + exists n. done.
  - intros Hrr Hlc (m & Hm & Hlt). unfold LoadBalance. rewrite (Hne m Hm).
    rewrite (bool_decide_eq_false_2 _ Hrr), (bool_decide_eq_false_2 _ Hlc).
    assert (∃ n, latencyBasedSelect healthy = Some n ∧ n ∈ healthy
                 ∧ ∀ m, m ∈ healthy → Latency n ≤ Latency m) as (n & Hsel & Hin & Hmin).
    { unfold latencyBasedSelect.
      destruct (latencyBasedSelect_fold healthy) as [[_ Hall]|(n & -> & Hin & _ & Hmin)].
      - specialize (Hall m Hm). lia.
      - eauto. }
    exists n. split; [|done]. fold healthy. rewrite Hsel.
    by destruct (bool_decide (LoadBalancing (config mn) = "latency")).
Qed.

End OverlayFacts.

Section AddressArithmetic.

Import Net.

(** X15.  [nextIP] adds one to the address read as a big-endian number
    and wraps around after the last address of its length: it returns
    an address of the same length, whose value is the next one modulo
    [256^n]; below the last address this is the successor, and the
    address of all 255 is followed by the address of all 0. *)
Theorem nextIP_adds_one ip :
  valid ip →
  length (nextIP ip) = length ip
  ∧ valid (nextIP ip)
  ∧ toZ (nextIP ip) = (toZ ip + 1) mod 256 ^ Z.of_nat (length ip)
  ∧ (toZ ip + 1 < 256 ^ Z.of_nat (length ip) → toZ (nextIP ip) = toZ ip + 1)
  ∧ (toZ ip + 1 = 256 ^ Z.of_nat (length ip) → toZ (nextIP ip) = 0).
Proof.
  intros Hv. destruct (nextIP_spec ip Hv) as (Hlen & Hv' & Hz).
  pose proof (toZ_range ip Hv) as Hr.
  split; [done|]. split; [done|]. split; [done|]. split.
  - intros Hlt. rewrite Hz. apply Z.mod_small. lia.
  - intros Heq. rewrite Hz, Heq. apply Z.mod_same. lia.
Qed.

End AddressArithmetic.

(** Decides a property of every entry of a concrete map. *)
Ltac solve_map_Forall :=
  apply map_Forall_lookup; apply (bool_decide_unpack _); vm_compute; exact I.

(** The block 10.99.0.0/30 with the local node at 10.99.0.1: the next
    address is the second after the network address. *)
Lemma assignMeshIP_first_unused_witness :
  ∃ k, (1 ≤ k ≤ 2)%nat
    ∧ Mesh.assignMeshIP Scenario.cidrs 8 Scenario.mesh30_local
      = Some (Ok (Net.ipString (Nat.iter k Net.nextIP [10; 99; 0; 0])))
    ∧ Mesh.isIPUsed Scenario.mesh30_local
        (Net.ipString (Nat.iter k Net.nextIP [10; 99; 0; 0])) = false.
Proof.
  destruct (assignMeshIP_takes_the_first_unused_address Scenario.cidrs
              Scenario.mesh30_local Scenario.block30)
    as (k & Hk & Hassign & _ & Hfree & _).
  - reflexivity.
  - reflexivity.
  - repeat constructor; lia.
  - by vm_compute.
  - exists k. split; [exact Hk|]. split; [|exact Hfree].
    apply (Hassign 8%nat). vm_compute. lia.
Defined.

(** The scenario's overlay is one the program can be in. *)
Lemma every_overlay_witness :
  MeshOps.invariant (Scenario.meshConfig "10.99.0.0/24" "latency") (Scenario.mesh24 "latency")
  ∧ MeshOps.offline_nodes
      (MeshOps.GetNetworkStatus ["node-0"; "node-1"; "node-2"] (Scenario.mesh24 "latency"))
    = 0.
Proof.
  assert (Hreach : MeshOps.reachable Scenario.cidrs
                     (Scenario.meshConfig "10.99.0.0/24" "latency")
                     (Scenario.mesh24 "latency")).
  { eapply (MeshOps.reach_AddServer _ _ 8 2 2 (Scenario.relay "plain" "")
              (Scenario.mesh24_1 "latency")); [|by vm_compute].
    eapply (MeshOps.reach_AddServer _ _ 8 1 1 (Scenario.relay "eu-1" "eu")
              (Scenario.mesh24_local "latency")); [|by vm_compute].
    eapply (MeshOps.reach_Initialize _ _ 8 0 0 (Scenario.mesh24_0 "latency"));
      [|by vm_compute].
    apply MeshOps.reach_New. }
  destruct (every_overlay_keeps_its_invariants Scenario.cidrs _
              ["node-0"; "node-1"; "node-2"] _ Hreach) as (Hinv & Hoff & _).
  { solve_range_order. }
  split; [exact Hinv|exact Hoff].
Defined.

(** An overlay with one node offline. *)
Lemma GetNetworkStatus_counts_witness :
  range_order (Mesh.nodes Cases.mesh24_eu_down) ["node-2"; "node-0"; "node-1"]
  ∧ MeshOps.online_nodes
      (MeshOps.GetNetworkStatus ["node-2"; "node-0"; "node-1"] Cases.mesh24_eu_down)
    + MeshOps.offline_nodes
        (MeshOps.GetNetworkStatus ["node-2"; "node-0"; "node-1"] Cases.mesh24_eu_down)
    = MeshOps.total_nodes
        (MeshOps.GetNetworkStatus ["node-2"; "node-0"; "node-1"] Cases.mesh24_eu_down)
  ∧ MeshOps.offline_nodes
      (MeshOps.GetNetworkStatus ["node-2"; "node-0"; "node-1"] Cases.mesh24_eu_down) = 1.
Proof.
  assert (Horder : range_order (Mesh.nodes Cases.mesh24_eu_down)
                     ["node-2"; "node-0"; "node-1"]) by solve_range_order.
  destruct (GetNetworkStatus_counts ["node-2"; "node-0"; "node-1"] Cases.mesh24_eu_down
              Horder) as (_ & _ & _ & Hsum).
  split; [exact Horder|]. split; [exact Hsum|]. by vm_compute.
Defined.

(** A trojan server added to the scenario's overlay. *)
Lemma ConnectToNode_after_AddServer_witness :
  ∃ mn' node,
    Mesh.AddServer Scenario.cidrs 8 5 5 Cases.trojanRelay (Scenario.mesh24 "latency")
    = Some (mn', Ok node)
    ∧ MeshOps.ConnectToNode (Mesh.ID node) "auto" mn' = Err "no suitable protocol found"
    ∧ MeshOps.ConnectToNode (Mesh.ID node) "ssh" mn' = Ok "SSH".
Proof.
  destruct (Mesh.AddServer Scenario.cidrs 8 5 5 Cases.trojanRelay (Scenario.mesh24 "latency"))
    as [[mn' [node|e]]|] eqn:Hadd; [|by vm_compute in Hadd..].
  exists mn', node. split; [done|].
  split.
  - by rewrite (ConnectToNode_after_AddServer Scenario.cidrs _ _ _ _ _ _ _ "auto" Hadd).
  - by rewrite (ConnectToNode_after_AddServer Scenario.cidrs _ _ _ _ _ _ _ "ssh" Hadd).
Defined.

(** The best node of the scenario's overlay accepts the connection. *)
Lemma selected_nodes_accept_connections_witness :
  ∃ node,
    Mesh.GetBestNode ["node-0"; "node-1"; "node-2"] "eu" (Scenario.mesh24 "latency") = Ok node
    ∧ MeshOps.ConnectToNode (Mesh.ID node) "ssh" (Scenario.mesh24 "latency") = Ok "SSH".
Proof.
  destruct (Mesh.GetBestNode ["node-0"; "node-1"; "node-2"] "eu" (Scenario.mesh24 "latency"))
    as [node|e] eqn:Hbest; [|by vm_compute in Hbest].
  exists node. split; [done|].
  destruct (selected_nodes_accept_connections ["node-0"; "node-1"; "node-2"] "eu" "" ""
              (Scenario.mesh24 "latency") node) as (_ & _ & H & _).
  - unfold MeshOps.keyedByID. solve_map_Forall.
  - by left.
  - exact H.
Defined.

(** Round robin over the two servers of the scenario's overlay. *)
Lemma LoadBalance_returns_a_healthy_node_witness :
  ∃ n,
    Mesh.LoadBalance ["node-0"; "node-1"; "node-2"] 7 "example.org"
      (Scenario.mesh24 "round_robin") = Ok (Some n)
    ∧ n ∈ Mesh.getHealthyNodes ["node-0"; "node-1"; "node-2"] (Scenario.mesh24 "round_robin").
Proof.
  destruct (LoadBalance_returns_a_healthy_node ["node-0"; "node-1"; "node-2"] 7
              "example.org" (Scenario.mesh24 "round_robin")) as (_ & _ & Hrr & _).
  destruct Hrr as (n & Hn & _ & Hin & _).
  - by vm_compute.
  - reflexivity.
  - lia.
  - exists n. split; [exact Hn|exact Hin].
Defined.

(** The address after 10.99.0.255 is 10.99.1.0. *)
Lemma nextIP_adds_one_witness :
  Net.toZ (Net.nextIP [10; 99; 0; 255]) = Net.toZ [10; 99; 0; 255] + 1
  ∧ Net.nextIP [10; 99; 0; 255] = [10; 99; 1; 0].
Proof.
  destruct (nextIP_adds_one [10; 99; 0; 255]) as (_ & _ & _ & Hsucc & _).
  - repeat constructor; lia.
  - split; [|reflexivity]. apply Hsucc. by vm_compute.
Defined.

(** ** The configuration file: defaults, validation, saving and loading *)

Section ConfigFileFacts.

Import ConfigFull.

(** *** Defaults *)

Lemma default_idem {A} `{EqDecision A} (x d z : A) :
  d ≠ z →
  (if bool_decide ((if bool_decide (x = z) then d else x) = z) then d
   else if bool_decide (x = z) then d else x)
  = if bool_decide (x = z) then d else x.
Proof. intros Hd. by repeat case_bool_decide. Qed.

Lemma default_name_not_empty (i : nat) : "server-" +:+ pretty (Z.of_nat i + 1) ≠ "".
Proof.
  change ("server-" +:+ pretty (Z.of_nat i + 1))
    with (String "s" ("erver-" +:+ pretty (Z.of_nat i + 1))).
  done.
Qed.

Lemma defaultServer_idem i server :
  defaultServer i (defaultServer i server) = defaultServer i server.
Proof.
  unfold defaultServer. cbn.
  rewrite (default_idem (Name server)) by apply default_name_not_empty.
  rewrite (default_idem (Transport server)) by done.
  rewrite (default_idem (Proxy server)) by done.
  rewrite (default_idem (LocalPort server)) by lia.
  rewrite (default_idem (MaxRetries server)) by done.
  rewrite (default_idem (Timeout server)) by done.
  done.
Qed.

Lemma defaultServer_complete i server : complete (defaultServer i server).
Proof.
  unfold complete, defaultServer. cbn.
  repeat split; case_bool_decide; try done; lia.
Qed.

Lemma setDefaults_idem config : setDefaults (setDefaults config) = setDefaults config.
Proof.
  unfold setDefaults. cbn.
  rewrite (default_idem (Version config)) by done.
  rewrite (default_idem (SelectionMethod config)) by done.
  rewrite (default_idem (LatencyTimeout config)) by done.
  rewrite (default_idem (FailoverTimeout config)) by done.
  rewrite (default_idem (Monitoring.LogLevel (Monitoring config))) by done.
  rewrite (default_idem (API.Host (API config))) by done.
  rewrite (default_idem (API.Port (API config))) by done.
  f_equal.
  - apply list_eq. intros i. rewrite !list_lookup_imap.
    destruct (Servers config !! i); cbn; [|done]. by rewrite defaultServer_idem.
  - f_equal. destruct (Monitoring.Enabled (Monitoring config)); cbn; [|done].
    by repeat case_bool_decide.
Qed.

(** X16.  [setDefaults] fills what is empty and changes nothing else:
    afterwards the version, the selection method and both timeouts are
    set, every server has a name, a transport, a proxy type, a local
    port, a retry count and a timeout, and no server has lost or gained
    a host, port, user, password or key path.  The server at index [i]
    that had no name is called [server-<i+1>].  Applying [setDefaults]
    again changes nothing. *)
Theorem setDefaults_completes_and_is_idempotent config :
  setDefaults (setDefaults config) = setDefaults config
  ∧ Version (setDefaults config) ≠ ""
  ∧ SelectionMethod (setDefaults config) ≠ ""
  ∧ LatencyTimeout (setDefaults config) ≠ 0
  ∧ FailoverTimeout (setDefaults config) ≠ 0
  ∧ length (Servers (setDefaults config)) = length (Servers config)
  ∧ ∀ i server, Servers config !! i = Some server →
      ∃ server', Servers (setDefaults config) !! i = Some server'
        ∧ complete server'
        ∧ Name server' = (if bool_decide (Name server = "")
                          then "server-" +:+ pretty (Z.of_nat i + 1) else Name server)
        ∧ Host server' = Host server ∧ Port server' = Port server
        ∧ User server' = User server ∧ Password server' = Password server
        ∧ KeyPath server' = KeyPath server ∧ Enabled server' = Enabled server.
Proof.
  split; [|split; [|split; [|split; [|split; [|split]]]]].
  - apply setDefaults_idem.
  - cbn. by case_bool_decide.
  - cbn. by case_bool_decide.
  - cbn. by case_bool_decide.
  - cbn. by case_bool_decide.
  - cbn. by rewrite length_imap.
  - intros i server Hs. exists (defaultServer i server). cbn.
    rewrite list_lookup_imap, Hs. split; [done|].
    split; [apply defaultServer_complete|]. done.
Qed.

(** *** Validation *)

Lemma validateServers_None i servers :
  validateServers i servers = None
  ↔ ∀ j server, servers !! j = Some server → validateServer (i + j) server = None.
Proof.
  revert i. induction servers as [|s rest IH]; intros i; cbn [validateServers].
  { split; [by intros _ j server|done]. }
  destruct (validateServer i s) as [e|] eqn:Hs.
  - split; [done|]. intros Hall. specialize (Hall 0%nat s eq_refl).
    rewrite Nat.add_0_r in Hall. congruence.
  - rewrite IH. split.
    + intros Hall [|j] server Hj.
      * injection Hj as <-. by rewrite Nat.add_0_r.
      * rewrite <- Nat.add_succ_comm. by apply Hall.
    + intros Hall j server Hj. rewrite Nat.add_succ_comm. by apply (Hall (S j)).
Qed.

Lemma validateServers_Some i servers e :
  validateServers i servers = Some e →
  ∃ j server, servers !! j = Some server
    ∧ validateServer (i + j) server = Some e
    ∧ ∀ k server', (k < j)%nat → servers !! k = Some server' →
        validateServer (i + k) server' = None.
Proof.
  revert i. induction servers as [|s rest IH]; intros i; cbn [validateServers]; [done|].
  destruct (validateServer i s) as [e'|] eqn:Hs.
  - intros [= <-]. exists 0%nat, s. rewrite Nat.add_0_r. split; [done|]. split; [done|].
    intros k server' Hk. lia.
  - intros Hrest. destruct (IH _ Hrest) as (j & server & Hj & He & Hbefore).
    exists (S j), server. split; [done|]. split; [by rewrite <- Nat.add_succ_comm|].
    intros [|k] server' Hk Hlook.
    + injection Hlook as <-. by rewrite Nat.add_0_r.
    + rewrite <- Nat.add_succ_comm. apply Hbefore; [lia|done].
Qed.

Lemma validateConfig_None config :
  validateConfig config = None
  ↔ Servers config ≠ []
    ∧ ∀ i server, Servers config !! i = Some server → validateServer i server = None.
Proof.
  unfold validateConfig.
  destruct (Servers config) as [|s rest] eqn:Hservers; cbn [length].
  - rewrite bool_decide_eq_true_2 by done. split; [done|]. by intros [? _].
  - rewrite bool_decide_eq_false_2 by done.
    rewrite (validateServers_None 0). split; [by intros ?|by intros [_ ?]].
Qed.

(** X17.  [validateConfig] accepts a configuration exactly when it has
    a server and the check of every server passes, and otherwise
    reports the first server in error, under its index counted from
    zero.  The check asks every server for a host and a port, and for
    what the transports ssh, hysteria, v2ray, vmess, vless and wireguard
    need; a server of any other transport, trojan or unknown, passes
    with a host and a port, and names are not looked at. *)
Theorem validateConfig_reports_the_first_error config :
  (validateConfig config = None
   ↔ Servers config ≠ []
     ∧ ∀ i server, Servers config !! i = Some server → validateServer i server = None)
  ∧ (Servers config = [] → validateConfig config = Some "no servers configured")
  ∧ (∀ e, Servers config ≠ [] → validateConfig config = Some e →
       ∃ i server, Servers config !! i = Some server
         ∧ validateServer i server = Some e
         ∧ ∀ k server', (k < i)%nat → Servers config !! k = Some server' →
             validateServer k server' = None)
  ∧ (∀ i server,
       Host server ≠ "" → Port server ≠ "" →
       Transport server ∉ [Config.TransportSSH; Config.TransportHysteria;
                           Config.TransportV2Ray; Config.TransportVMess;
                           Config.TransportVLESS; Config.TransportWireGuard] →
       validateServer i server = None).
Proof.
  split; [apply validateConfig_None|]. unfold validateConfig. split; [|split].
  - intros ->. done.
  - intros e Hne. rewrite bool_decide_eq_false_2.
    + intros He. by apply (validateServers_Some 0) in He.
    + intros Hlen. by apply nil_length_inv in Hlen.
  - intros i server Hhost Hport Ht. unfold validateServer.
    rewrite (bool_decide_eq_false_2 _ Hhost), (bool_decide_eq_false_2 _ Hport).
    rewrite !bool_decide_eq_false_2; [done|..]; set_solver.
Qed.

(** X18.  A configuration can pass [validateConfig] and leave [Start]
    with nothing to register: validation does not look at whether the
    transport has an adapter.  When every server has a host and a port
    and a transport [createTunnel] does not know, the configuration is
    valid and [Start] on a new manager, called with any context other
    than nil, returns nil with no tunnel and no status record. *)
Theorem a_valid_configuration_may_register_nothing adapterTest cancelled order now config :
  Servers config ≠ [] →
  AutoSelect config = false →
  (∀ server, server ∈ Servers config →
     Host server ≠ "" ∧ Port server ≠ ""
     ∧ ¬ Protocols.supported (Transport server)) →
  validateConfig config = None
  ∧ ∃ tm', Protocols.Start adapterTest (Some cancelled) order now
             (Protocols.NewTunnelManager (toConfig config)) = Returns (tm', None)
           ∧ Protocols.tunnels tm' = ∅ ∧ Protocols.status tm' = ∅.
Proof.
  intros Hne Hauto Hall. split.
  - apply validateConfig_None. split; [done|].
    intros i server Hs.
    destruct (Hall server (list_elem_of_lookup_2 _ _ _ Hs)) as (Hhost & Hport & Hsup).
    unfold validateServer.
    rewrite (bool_decide_eq_false_2 _ Hhost), (bool_decide_eq_false_2 _ Hport).
    unfold Protocols.supported in Hsup.
    rewrite !bool_decide_eq_false_2; [done|..]; naive_solver.
  - eexists. split.
    + unfold Protocols.Start. cbn [Protocols.mu Protocols.NewTunnelManager].
      destruct (registerAll_frame (Protocols.set_ctx (Some cancelled)
                  (Protocols.set_mu true (Protocols.NewTunnelManager (toConfig config)))))
        as (-> & _). cbn. by rewrite Hauto.
    + cbn.
      assert (Hkeep : ∀ name,
        Protocols.tunnels (foldl Protocols.registerServer
            (Protocols.set_ctx (Some cancelled)
               (Protocols.set_mu true (Protocols.NewTunnelManager (toConfig config))))
            (toServer <$> Servers config)) !! name = None
        ∧ Protocols.status (foldl Protocols.registerServer
            (Protocols.set_ctx (Some cancelled)
               (Protocols.set_mu true (Protocols.NewTunnelManager (toConfig config))))
            (toServer <$> Servers config)) !! name = None).
      { intros name.
        destruct (register_fold_untouched (toServer <$> Servers config)
                    (Protocols.set_ctx (Some cancelled)
                       (Protocols.set_mu true (Protocols.NewTunnelManager (toConfig config))))
                    name) as [-> ->]; [|done].
        intros s Hin _ _. apply list_elem_of_fmap in Hin as (server & -> & Hin).
        by destruct (Hall server Hin) as (_ & _ & ?). }
      split; apply map_eq; intros name; rewrite lookup_empty; apply Hkeep.
Qed.

(** *** Saving and loading *)

Section Files.

Variable Sum256 : list byte → list byte.
Variable gcmSeal : list byte → list byte → list byte → list byte.
Variable gcmOpen : list byte → list byte → list byte → option (list byte).
Variable Marshal : Config → result (list byte).
Variable Unmarshal : list byte → result Config.

(** X19.  What [SaveConfig] writes, [LoadConfig] reads back.  Assume of
    the libraries that digests have 32 bytes, that AES-GCM opens what it
    sealed, and, for this configuration, that YAML decodes what it
    encoded and that the encoding does not begin with ["ENC:"].  Then
    the file is encrypted exactly when [encrypt_config] is set, and
    [LoadConfig] on it returns the configuration with its defaults set
    if that is valid, and the validation error if not, provided that for
    an encrypted file [CONFIG_PASSWORD] at loading is the passphrase
    [SaveConfig] used: the master password of the configuration and,
    only when that is empty, [CONFIG_PASSWORD] at saving. *)
Theorem LoadConfig_reads_what_SaveConfig_wrote
    configPath config yaml saveEnv loadEnv nonce data :
  (∀ m, length (Sum256 m) = 32%nat) →
  (∀ key nonce data, length nonce = Config.NonceSize →
                     gcmOpen key nonce (gcmSeal key nonce data) = Some data) →
  Marshal config = Ok yaml → Unmarshal yaml = Ok config →
  Config.isEncrypted yaml = false →
  length nonce = Config.NonceSize →
  SaveConfig Sum256 gcmSeal Marshal config saveEnv (Ok nonce) None None = Ok data →
  (EncryptConfig (Security config) = true →
   loadEnv = if bool_decide (MasterPassword (Security config) = "")
             then saveEnv else MasterPassword (Security config)) →
  Config.isEncrypted data = EncryptConfig (Security config)
  ∧ LoadConfig Sum256 gcmOpen Unmarshal configPath (Some (Ok data)) loadEnv
    = match validateConfig (setDefaults config) with
      | Some e => Err ("configuration validation failed: " +:+ e)
      | None => Ok (setDefaults config)
      end.
Proof.
  intros Hsize Hopen Hmarshal Hunmarshal Hplain Hnonce Hsave Henv.
  unfold SaveConfig in Hsave. rewrite Hmarshal in Hsave.
  destruct (EncryptConfig (Security config)) eqn:Henc.
  - specialize (Henv eq_refl). rewrite <- Henv in Hsave.
    destruct (bool_decide (loadEnv = "")) eqn:Hempty; [done|].
    destruct (decrypt_encrypt Sum256 gcmSeal gcmOpen Hsize Hopen yaml loadEnv nonce Hnonce)
      as (sealed & Hsealed & Hprefix & Hdecrypt).
    rewrite Hsealed in Hsave. injection Hsave as <-.
    split; [done|]. unfold LoadConfig. rewrite Hprefix, Hempty, Hdecrypt, Hunmarshal. done.
  - injection Hsave as <-. split; [done|].
    unfold LoadConfig. rewrite Hplain, Hunmarshal. done.
Qed.

(** X20.  What a caller of [LoadConfig] can rely on.  When it returns a
    configuration, the file exists and could be read, an encrypted file
    came with a non-empty [CONFIG_PASSWORD], and the configuration has
    its defaults set and is valid: it has a server, every server has a
    name, a host, a port, a transport and a proxy type, and every SSH
    server has a user and a password or a key path. *)
Theorem LoadConfig_returns_complete_valid_configurations
    configPath file CONFIG_PASSWORD config :
  LoadConfig Sum256 gcmOpen Unmarshal configPath file CONFIG_PASSWORD = Ok config →
  (∃ data, file = Some (Ok data)
           ∧ (Config.isEncrypted data = true → CONFIG_PASSWORD ≠ ""))
  ∧ validateConfig config = None
  ∧ setDefaults config = config
  ∧ Servers config ≠ []
  ∧ ∀ server, server ∈ Servers config →
      complete server ∧ Host server ≠ "" ∧ Port server ≠ ""
      ∧ (Transport server = Config.TransportSSH →
         User server ≠ "" ∧ (Password server ≠ "" ∨ KeyPath server ≠ "")).
Proof.
  unfold LoadConfig. destruct file as [[data|e]|]; [|done..].
  intros Hload.
  assert (∃ parsed, config = setDefaults parsed ∧ validateConfig config = None
                    ∧ (Config.isEncrypted data = true → CONFIG_PASSWORD ≠ ""))
    as (parsed & -> & Hvalid & Hpw).
  { destruct (Config.isEncrypted data).
    - case_bool_decide as Hempty; [done|].
      destruct (Config.decrypt _ _ _ _) as [plain|e]; [|done].
      destruct (Unmarshal plain) as [parsed|e]; [|done].
      destruct (validateConfig (setDefaults parsed)) eqn:Hv; [done|].
      injection Hload as <-. eauto.
    - destruct (Unmarshal data) as [parsed|e]; [|done].
      destruct (validateConfig (setDefaults parsed)) eqn:Hv; [done|].
      injection Hload as <-. exists parsed. done. }
  split; [by eauto|]. split; [done|].
  split; [apply setDefaults_idem|].
  apply validateConfig_None in Hvalid as [Hne Hall]. split; [done|].
  intros server Hin. apply list_elem_of_lookup in Hin as [i Hi].
  specialize (Hall i server Hi).
  assert (Hcomplete : complete server).
  { cbn in Hi. rewrite list_lookup_imap in Hi.
    destruct (Servers parsed !! i) as [s0|]; [|done]. injection Hi as <-.
    apply defaultServer_complete. }
  split; [done|]. unfold validateServer in Hall.
  case_bool_decide as Hhost; [done|]. case_bool_decide as Hport; [done|].
  split; [done|]. split; [done|]. intros Hssh.
  rewrite (bool_decide_eq_true_2 _ Hssh) in Hall.
  case_bool_decide as Huser; [done|]. split; [done|].
  destruct (decide (Password server = "")) as [Hp|Hp]; [|by left].
  destruct (decide (KeyPath server = "")) as [Hk|Hk]; [|by right].
  by rewrite !bool_decide_eq_true_2 in Hall.
Qed.

End Files.

End ConfigFileFacts.

(** A configuration whose only server wants the transport ["quic"]. *)
Lemma a_valid_configuration_witness :
  ConfigFull.validateConfig Cases.quicFile = None
  ∧ ∃ tm', Protocols.Start Scenario.probe_80_25_45 (Some false) [] 0
             (Protocols.NewTunnelManager (ConfigFull.toConfig Cases.quicFile))
           = Returns (tm', None)
           ∧ Protocols.tunnels tm' = ∅.
Proof.
  destruct (a_valid_configuration_may_register_nothing Scenario.probe_80_25_45 false [] 0
              Cases.quicFile) as (Hvalid & tm' & HStart & Hnone & _).
  - done.
  - done.
  - intros server Hin. apply list_elem_of_singleton in Hin as ->.
    split; [done|]. split; [done|]. unfold Protocols.supported. cbn.
    intros H. repeat destruct H as [H|H]; done.
  - split; [exact Hvalid|]. exists tm'. split; [exact HStart|exact Hnone].
Defined.

(** The configuration of the scenario, saved under its master password
    and loaded with that password in [CONFIG_PASSWORD]. *)
Lemma LoadConfig_reads_what_SaveConfig_wrote_witness :
  ∃ data,
    ConfigFull.SaveConfig Scenario.padSum Scenario.tagSeal Cases.marshal
      Cases.fileConfig "" (Ok (replicate 12 x00)) None None = Ok data
    ∧ Config.isEncrypted data = true
    ∧ ConfigFull.LoadConfig Scenario.padSum Scenario.tagOpen Cases.unmarshal
        "config.yaml" (Some (Ok data)) "alpha"
      = Ok (ConfigFull.setDefaults Cases.fileConfig).
Proof.
  destruct (ConfigFull.SaveConfig Scenario.padSum Scenario.tagSeal Cases.marshal
              Cases.fileConfig "" (Ok (replicate 12 x00)) None None)
    as [data|e] eqn:Hsave; [|by vm_compute in Hsave].
  destruct (LoadConfig_reads_what_SaveConfig_wrote Scenario.padSum Scenario.tagSeal
              Scenario.tagOpen Cases.marshal Cases.unmarshal "config.yaml"
              Cases.fileConfig Cases.yamlText "" "alpha" (replicate 12 x00) data)
    as [Henc Hload].
  - intros m. unfold Scenario.padSum. rewrite length_take, length_app, length_replicate. lia.
  - intros key n d _. unfold Scenario.tagOpen, Scenario.tagSeal.
    rewrite length_app, Nat.add_sub. rewrite drop_app_length, take_app_length.
    by rewrite bool_decide_eq_true_2.
  - reflexivity.
  - reflexivity.
  - reflexivity.
  - reflexivity.
  - exact Hsave.
  - reflexivity.
  - exists data. split; [reflexivity|]. split; [exact Henc|].
    rewrite Hload. reflexivity.
Defined.

(** The same configuration, loaded from its plain text. *)
Lemma LoadConfig_returns_complete_witness :
  ConfigFull.LoadConfig Scenario.padSum Scenario.tagOpen Cases.unmarshal
    "config.yaml" (Some (Ok Cases.yamlText)) ""
  = Ok (ConfigFull.setDefaults Cases.fileConfig)
  ∧ ConfigFull.validateConfig (ConfigFull.setDefaults Cases.fileConfig) = None
  ∧ ConfigFull.Servers (ConfigFull.setDefaults Cases.fileConfig) ≠ [].
Proof.
  assert (Hload : ConfigFull.LoadConfig Scenario.padSum Scenario.tagOpen Cases.unmarshal
                    "config.yaml" (Some (Ok Cases.yamlText)) ""
                  = Ok (ConfigFull.setDefaults Cases.fileConfig)) by reflexivity.
  destruct (LoadConfig_returns_complete_valid_configurations Scenario.padSum
              Scenario.tagOpen Cases.unmarshal _ _ _ _ Hload)
    as (_ & Hvalid & _ & Hne & _).
  split; [exact Hload|]. split; [exact Hvalid|exact Hne].
Defined.

(** ** Monitoring *)

Section MonitoringFacts.

Import Monitoring.

Lemma logEntry_logs m e :
  logs (logEntry m e)
  = drop (length (logs m ++ [e]) - 1000) (logs m ++ [e]).
Proof.
  unfold logEntry, LogEvent. cbn.
  assert (mkLogEntry (Timestamp e) (Level e) (Component e) (Message e) (Details e) = e)
    as -> by by destruct e.
  case_bool_decide as Hlen; [done|].
  replace (length (logs m ++ [e]) - 1000)%nat with 0%nat by lia. done.
Qed.

Lemma logEntry_frame m e :
  metrics (logEntry m e) = metrics m ∧ config (logEntry m e) = config m
  ∧ startTime (logEntry m e) = startTime m.
Proof. done. Qed.

(** X21.  The log is the list of the last 1000 entries: after any
    number of [LogEvent] calls [GetLogs] returns, oldest first, the
    entries logged so far without all but the latest 1000 of them; it
    never holds more than 1000 entries, its last entry is the one logged
    last, and logging touches nothing else of the monitor. *)
Theorem the_log_keeps_the_latest_1000_entries events m :
  (length (logs m) ≤ 1000)%nat →
  let m' := foldl logEntry m events in
  GetLogs m' = drop (length (logs m ++ events) - 1000) (logs m ++ events)
  ∧ (length (GetLogs m') ≤ 1000)%nat
  ∧ (∀ e, last events = Some e → last (GetLogs m') = Some e)
  ∧ metrics m' = metrics m.
Proof.
  intros Hlen m'. unfold GetLogs.
  assert (Hlogs : logs m' = drop (length (logs m ++ events) - 1000) (logs m ++ events)
                  ∧ metrics m' = metrics m).
  { unfold m'. clear m'. induction events as [|e events IH] using rev_ind.
    - cbn. rewrite app_nil_r. replace (length (logs m) - 1000)%nat with 0%nat by lia. done.
    - rewrite foldl_app. cbn [foldl]. destruct IH as [IH1 IH2].
      split; [|by destruct (logEntry_frame (foldl logEntry m events) e) as [-> _]].
      rewrite logEntry_logs, IH1.
      set (L := logs m ++ events). set (a := (length L - 1000)%nat).
      rewrite <- (drop_app_le L [e] a) by (unfold a; lia).
      rewrite drop_drop, length_drop. rewrite (app_assoc (logs m) events [e]). fold L.
      f_equal. rewrite !length_app. cbn [length]. unfold a. lia. }
  destruct Hlogs as [Hlogs Hmetrics]. split; [done|]. split; [|split; [|done]].
  - rewrite Hlogs, length_drop. lia.
  - intros e He. rewrite Hlogs.
    apply last_Some in He as [events' ->].
    rewrite app_assoc. set (L := logs m ++ events').
    rewrite drop_app_le by (rewrite length_app; cbn; lia).
    by rewrite last_snoc.
Qed.

Lemma record_Name status latency sent recv t :
  Name (record status latency sent recv t) = Name t.
Proof. done. Qed.

(** X22.  [UpdateTunnelMetrics] records the figures of a tunnel under
    its name: the entry of that name is updated in place, or a new entry
    is appended when there is none; the other entries are untouched and
    names stay unique.  But nothing is recorded while the monitor has
    not collected metrics yet, and every later collection
    ([updateMetrics]) starts from an empty list again: the figures of
    the tunnels do not survive it. *)
Theorem UpdateTunnelMetrics_upserts name status latency sent recv m :
  let m' := UpdateTunnelMetrics name status latency sent recv m in
  (metrics m = None → m' = m)
  ∧ (∀ ms, metrics m = Some ms → NoDup (Name <$> Tunnels ms) →
       ∃ ms', metrics m' = Some ms'
         ∧ NoDup (Name <$> Tunnels ms')
         ∧ (∃ t, t ∈ Tunnels ms' ∧ Name t = name ∧ Status t = status
                 ∧ Latency t = latency ∧ BytesSent t = sent ∧ BytesRecv t = recv)
         ∧ (∀ t, Name t ≠ name → t ∈ Tunnels ms' ↔ t ∈ Tunnels ms)
         ∧ length (Tunnels ms')
           = (if bool_decide (name ∈ Name <$> Tunnels ms)
              then length (Tunnels ms) else S (length (Tunnels ms)))
         ∧ System ms' = System ms ∧ Application ms' = Application ms)
  ∧ (∀ now later system,
       Tunnels <$> metrics (updateMetrics now later system m') = Some []).
Proof.
  intros m'. split; [|split].
  - intros Hnone. unfold m', UpdateTunnelMetrics. by rewrite Hnone.
  - intros ms Hms Hnd. unfold m', UpdateTunnelMetrics. rewrite Hms. cbn.
    eexists. split; [reflexivity|]. cbn.
    destruct (list_find (λ t, Name t = name) (Tunnels ms)) as [[i t]|] eqn:Hfind.
    + apply list_find_Some in Hfind as (Hi & Hname & _).
      assert (Hnames : Name <$> <[i := record status latency sent recv t]> (Tunnels ms)
                       = Name <$> Tunnels ms).
      { rewrite list_fmap_insert, record_Name. apply list_insert_id.
        by rewrite list_lookup_fmap, Hi. }
      split; [by rewrite Hnames|]. split; [|split; [|split]].
      * exists (record status latency sent recv t). split; [|done].
        apply list_elem_of_lookup. exists i. apply list_lookup_insert_eq.
        by apply lookup_lt_Some in Hi.
      * intros t0 Hne. rewrite !list_elem_of_lookup. split.
        -- intros [j Hj]. destruct (decide (j = i)) as [->|Hji].
           ++ rewrite list_lookup_insert_eq in Hj by (by apply lookup_lt_Some in Hi).
              injection Hj as <-. by destruct Hne.
           ++ rewrite list_lookup_insert_ne in Hj by done. eauto.
        -- intros [j Hj]. destruct (decide (j = i)) as [->|Hji].
           ++ rewrite Hi in Hj. injection Hj as <-. by destruct Hne.
           ++ exists j. by rewrite list_lookup_insert_ne.
      * rewrite length_insert. rewrite bool_decide_eq_true_2; [done|].
        apply list_elem_of_fmap. exists t. split; [done|].
        by apply list_elem_of_lookup_2 in Hi.
      * done.
    + apply list_find_None in Hfind.
      assert (Hfresh : name ∉ Name <$> Tunnels ms).
      { intros Hin. apply list_elem_of_fmap in Hin as (t & Ht & Hin).
        rewrite Forall_forall in Hfind. by apply (Hfind t Hin). }
      split; [|split; [|split; [|split]]].
      * rewrite fmap_app. cbn. apply NoDup_app. split; [done|]. split.
        -- intros x Hx Hx'. apply list_elem_of_singleton in Hx' as ->. done.
        -- apply NoDup_singleton.
      * eexists. split; [apply elem_of_app; right; by apply list_elem_of_singleton|done].
      * intros t0 Hne. rewrite elem_of_app, list_elem_of_singleton. split; [|by left].
        intros [?| ->]; [done|]. by destruct Hne.
      * rewrite length_app. cbn. rewrite bool_decide_eq_false_2 by done. lia.
      * done.
  - done.
Qed.

End MonitoringFacts.

(** ** The REST API *)

Section ApiFacts.

Import App.

(** *** The header of a request *)

Lemma substring_all s : String.substring 0 (String.length s) s = s.
Proof. induction s as [|c s IH]; [done|]. cbn. by rewrite IH. Qed.

Lemma substring_none s : String.substring 0 0 s = "".
Proof. by destruct s. Qed.

Lemma Bearer_app t :
  "Bearer " +:+ t
  = String "B" (String "e" (String "a" (String "r" (String "e" (String "r"
      (String " " t)))))).
Proof. done. Qed.

(** A header longer than seven bytes that begins with ["Bearer "] is
    ["Bearer "] followed by a non-empty token, which is what is left of
    it after the first seven bytes. *)
Lemma Bearer_split header :
  (7 < String.length header)%nat ∧ String.substring 0 7 header = "Bearer "
  ↔ ∃ token, header = "Bearer " +:+ token ∧ token ≠ "".
Proof.
  split.
  - intros [Hlen Hpre].
    destruct header as [|c1 [|c2 [|c3 [|c4 [|c5 [|c6 [|c7 t]]]]]]]; cbn in Hlen; try lia.
    cbn in Hpre. rewrite substring_none in Hpre. injection Hpre as -> -> -> -> -> -> ->.
    exists t. split; [by rewrite Bearer_app|]. intros ->. cbn in Hlen. lia.
  - intros (t & -> & Hne). rewrite Bearer_app. cbn. rewrite substring_none.
    split; [|done]. destruct t; [done|]. cbn. lia.
Qed.

Lemma Bearer_token token :
  String.substring 7 (String.length ("Bearer " +:+ token) - 7) ("Bearer " +:+ token) = token.
Proof. rewrite Bearer_app. cbn. rewrite Nat.sub_0_r. apply substring_all. Qed.

Lemma valid_token (token : string) tokens :
  existsb (λ validToken, bool_decide (token = validToken)) tokens = true ↔ token ∈ tokens.
Proof.
  rewrite existsb_exists. split.
  - intros (t & Hin & Heq). apply bool_decide_eq_true in Heq as ->.
    by apply list_elem_of_In.
  - intros Hin. exists token. split; [by apply list_elem_of_In|].
    by apply bool_decide_eq_true.
Qed.

(** X23.  Which requests [authMiddleware] passes on.  A request goes
    through exactly when its [Authorization] header is ["Bearer "]
    followed by a non-empty configured token, or is not of that form, is
    not empty and is itself a configured token.  So with no token
    configured every request is refused, an empty configured token can
    never be presented, and every refusal is a 401. *)
Theorem authMiddleware_lets_through a header :
  let tokens := ConfigFull.AuthTokens (ConfigFull.Security (config a)) in
  (authMiddleware a header = None
   ↔ (∃ token, header = "Bearer " +:+ token ∧ token ≠ "" ∧ token ∈ tokens)
     ∨ (header ≠ ""
        ∧ (∀ token, token ≠ "" → header ≠ "Bearer " +:+ token)
        ∧ header ∈ tokens))
  ∧ (tokens = [] → authMiddleware a header ≠ None)
  ∧ (tokens = [""] → authMiddleware a header ≠ None)
  ∧ (∀ response, authMiddleware a header = Some response →
       code response = StatusUnauthorized).
Proof.
  intros tokens.
  assert (Hiff : authMiddleware a header = None
    ↔ (∃ token, header = "Bearer " +:+ token ∧ token ≠ "" ∧ token ∈ tokens)
      ∨ (header ≠ ""
         ∧ (∀ token, token ≠ "" → header ≠ "Bearer " +:+ token)
         ∧ header ∈ tokens)).
  { unfold authMiddleware. fold tokens.
    destruct (decide (header = "")) as [->|Hne].
    { cbn. split; [done|]. intros [(t & Ht & _)|[? _]]; [|done].
      by rewrite Bearer_app in Ht. }
    rewrite (bool_decide_eq_false_2 _ Hne).
    destruct (decide ((7 < String.length header)%nat
                      ∧ String.substring 0 7 header = "Bearer ")) as [Hyes|Hno].
    - apply Bearer_split in Hyes as (t & -> & Ht).
      assert (bool_decide (7 < String.length ("Bearer " +:+ t))%nat
              && bool_decide (String.substring 0 7 ("Bearer " +:+ t) = "Bearer ") = true)
        as ->.
      { apply andb_true_iff. rewrite !bool_decide_eq_true. apply Bearer_split. eauto. }
      rewrite Bearer_token.
      destruct (existsb _ tokens) eqn:Hvalid; cbn.
      + apply valid_token in Hvalid. split; [|done]. intros _. left. eauto.
      + split; [done|]. intros [(t' & Heq & _ & Hin)|(_ & Hnot & _)].
        * rewrite !Bearer_app in Heq. injection Heq as <-.
          apply valid_token in Hin. congruence.
        * by destruct (Hnot t Ht).
    - rewrite Bearer_split in Hno.
      assert (bool_decide (7 < String.length header)%nat
              && bool_decide (String.substring 0 7 header = "Bearer ") = false) as ->.
      { apply not_true_iff_false. intros Hb. apply Hno.
        apply andb_true_iff in Hb. rewrite !bool_decide_eq_true in Hb.
        by apply Bearer_split. }
      destruct (existsb _ tokens) eqn:Hvalid; cbn.
      + apply valid_token in Hvalid. split; [|done]. intros _. right.
        split; [done|]. split; [|done]. intros t Ht ->. apply Hno. eauto.
      + split; [done|]. intros [(t & -> & Ht & _)|(_ & _ & Hin)].
        * exfalso. apply Hno. eauto.
        * apply valid_token in Hin. congruence. }
  split; [exact Hiff|]. split; [|split].
  - intros Hnil. rewrite Hiff, Hnil. intros [(? & _ & _ & Hin)|(_ & _ & Hin)];
      by apply elem_of_nil in Hin.
  - intros Hone. rewrite Hiff, Hone. intros [(t & _ & Ht & Hin)|(Hne & _ & Hin)];
      apply list_elem_of_singleton in Hin; congruence.
  - intros response. unfold authMiddleware.
    case_bool_decide; [by intros [= <-]|].
    destruct (negb _); [by intros [= <-]|done].
Qed.

(** *** Reading the configuration *)




(** *** Writing the configuration *)

(** X25.  The API stores what it is sent.  [handleUpdateConfig] accepts
    every configuration that has a server, without the defaults and the
    checks of [LoadConfig]: the configuration replaces the old one as it
    is, for the application and for the tunnel manager, whose tunnels
    stay as they are.  So a server without transport, which [LoadConfig]
    would have made an SSH server, gets no tunnel from a later [Start],
    and with an empty token list every request that passes through
    [authMiddleware] is refused from then on.  [handleAddServer] appends
    any server, unchecked, to the configuration the manager reads. *)
Theorem the_API_stores_configurations_unchecked newConfig server a :
  Protocols.mu (tunnelMgr a) = false →
  ConfigFull.Servers newConfig ≠ [] →
  (∃ a', handleUpdateConfig (Ok newConfig) a
         = Returns (a', mkResponse StatusOK (MessageBody "Configuration updated successfully"))
     ∧ config a' = newConfig
     ∧ Protocols.config (tunnelMgr a') = ConfigFull.toConfig newConfig
     ∧ Protocols.tunnels (tunnelMgr a') = Protocols.tunnels (tunnelMgr a)
     ∧ Protocols.status (tunnelMgr a') = Protocols.status (tunnelMgr a)
     ∧ (ConfigFull.AuthTokens (ConfigFull.Security newConfig) = [] →
        ∀ header, authMiddleware a' header ≠ None))
  ∧ (∀ i s, ConfigFull.Transport s = "" →
       (∃ e, Protocols.createTunnel (ConfigFull.toServer s) = Err e)
       ∧ Protocols.createTunnel (ConfigFull.toServer (ConfigFull.defaultServer i s))
         = Ok (Protocols.SSHTunnel (ConfigFull.toServer (ConfigFull.defaultServer i s))))
  ∧ (let a' := (handleAddServer (Ok server) a).1 in
     (handleAddServer (Ok server) a).2 = mkResponse StatusCreated (ServerBody server)
     ∧ ConfigFull.Servers (config a') = ConfigFull.Servers (config a) ++ [server]
     ∧ Manager.GetTunnels (tunnelMgr a')
       = Returns (ConfigFull.toServer <$> ConfigFull.Servers (config a) ++ [server])
     ∧ Protocols.tunnels (tunnelMgr a') = Protocols.tunnels (tunnelMgr a)).
Proof.
  intros Hmu Hne. split; [|split].
  - unfold handleUpdateConfig, validateConfig.
    rewrite bool_decide_eq_false_2 by (intros Hlen; by apply nil_length_inv in Hlen).
    unfold Manager.UpdateConfig. rewrite Hmu.
    eexists. split; [reflexivity|]. cbn. do 4 (split; [done|]).
    intros Hnil header Hpass. unfold authMiddleware in Hpass. cbn in Hpass.
    rewrite Hnil in Hpass. cbn in Hpass. by case_bool_decide.
  - intros i s Ht. split.
    + unfold Protocols.createTunnel. cbn. rewrite Ht. cbn. eauto.
    + unfold Protocols.createTunnel, ConfigFull.defaultServer. cbn. rewrite Ht. done.
  - cbn. split; [done|]. split; [done|]. split; [|done].
    unfold Manager.GetTunnels. cbn. by rewrite Hmu.
Qed.

End ApiFacts.

(** 1001 entries logged into a new monitor: the first one is gone. *)
Lemma the_log_keeps_the_latest_witness :
  Monitoring.GetLogs (foldl Monitoring.logEntry Cases.newMonitor Cases.ticks)
  = drop 1 Cases.ticks
  ∧ (length (Monitoring.GetLogs (foldl Monitoring.logEntry Cases.newMonitor Cases.ticks))
     ≤ 1000)%nat.
Proof.
  destruct (the_log_keeps_the_latest_1000_entries Cases.ticks Cases.newMonitor)
    as (Hlogs & Hlen & _).
  - cbn. lia.
  - split; [|exact Hlen]. rewrite Hlogs. reflexivity.
Defined.

(** A configuration without token, sent to an application whose API
    asks for one: the update is accepted and locks every client out. *)
Lemma the_API_stores_configurations_witness :
  ∃ a',
    App.handleUpdateConfig (Ok Cases.quicFile) (App.New Cases.fileConfig 0)
    = Returns (a', App.mkResponse App.StatusOK
                     (App.MessageBody "Configuration updated successfully"))
    ∧ App.authMiddleware (App.New Cases.fileConfig 0) "Bearer s3cret" = None
    ∧ App.authMiddleware a' "Bearer s3cret" ≠ None.
Proof.
  destruct (the_API_stores_configurations_unchecked Cases.quicFile Cases.fileServer
              (App.New Cases.fileConfig 0)) as ((a' & Hupdate & _ & _ & _ & _ & Hlock) & _).
  - reflexivity.
  - done.
  - exists a'. split; [exact Hupdate|]. split; [reflexivity|]. by apply Hlock.
Defined.
